(** * Retail dashboard: normalization, aggregation and quality checks

    A shallow embedding of [genai_dashboard_app.py].  The program reads three
    CSV tables (customers, inventory, sales) with pandas, normalizes them in
    [load_data], and derives KPIs, a monthly revenue trend with a 3-month
    moving average, two top-10 rankings, a low-stock table and three data
    quality checks.

    Conventions of the embedding.
    - A pandas frame is a list of column labels and a list of rows.  A row is
      read through [cell_at], which answers [CNaN] beyond the end of the row:
      a short line has missing cells, as [read_csv] pads it.  The row index
      of pandas is not modelled, and types are carried by the cells, not by
      the columns.
    - Numbers are exact rationals ([Q]); float rounding is abstracted away,
      and statements about amounts use [==] where two computations of the
      same number may differ in representation.
    - [NaN], [NaT] and [None] are the single missing marker [CNaN].
    - A text is a sequence of characters with code points below 256, one
      [ascii] per character; texts with other characters are not modelled.
    - A Python exception is an [Err] result.
    - What belongs to pandas and not to the program is an interface: the
      string and number parsers behind [pd.to_datetime] and [pd.to_numeric]
      are [Coercions]; the sorting algorithm behind [sort_values] is
      [SortKind], and what pandas promises of it is [SortContract]; the
      check [merge] makes on the types of the two key columns is
      [MergeKeys], and what is known of it is [MergeContract].

    The file has three parts: the program, the vocabulary of the statements,
    and the properties with their worked instances. *)

From Stdlib Require Import String Ascii List Bool Arith ZArith QArith Lia.
From Stdlib Require Import Permutation Sorted Setoid Morphisms.
Import ListNotations.

Local Open Scope string_scope.
Local Open Scope Q_scope.
Local Open Scope list_scope.

(* ------------------------------------------------------------------ *)
(** ** Exceptions as results *)

Inductive error : Type :=
| KeyError (label : string)
| TypeError
| ValueError
| AttributeError.

Inductive result (A : Type) : Type :=
| Ok (a : A)
| Err (e : error).

Arguments Ok {A} a.
Arguments Err {A} e.

Definition bind {A B : Type} (r : result A) (k : A -> result B) : result B :=
  match r with
  | Ok a => k a
  | Err e => Err e
  end.

Notation "x <- r ;; k" := (bind r (fun x => k))
  (at level 61, r at next level, right associativity).

Fixpoint mapM {A B : Type} (f : A -> result B) (l : list A) : result (list B) :=
  match l with
  | [] => Ok []
  | a :: t => b <- f a ;; bs <- mapM f t ;; Ok (b :: bs)
  end.

(* ------------------------------------------------------------------ *)
(** ** Cells, timestamps and frames *)

Record Timestamp : Type := mkTimestamp {
  ts_year : Z;
  ts_month : Z;
  ts_day : Z;
  ts_nanos : Z   (* nanoseconds since midnight *)
}.

(** [datetime.date] *)
Record Date : Type := mkDate {
  d_year : Z;
  d_month : Z;
  d_day : Z
}.

Inductive cell : Type :=
| CStr (s : string)
| CNum (q : Q)
| CDate (t : Timestamp)
| CNaN.

Record DataFrame : Type := mkFrame {
  columns : list string;
  rows : list (list cell)
}.

(** [pd.DataFrame()] *)
Definition empty_frame : DataFrame := mkFrame [] [].

(** [df.empty]: some axis has length zero. *)
Definition empty (df : DataFrame) : bool :=
  match columns df, rows df with
  | [], _ => true
  | _, [] => true
  | _, _ => false
  end.

(** [df.shape[0]] *)
Definition shape0 (df : DataFrame) : nat := length (rows df).

Definition cell_at (i : nat) (r : list cell) : cell := nth i r CNaN.

(** Writing a cell pads a short row with missing cells. *)
Fixpoint set_at (i : nat) (v : cell) (r : list cell) : list cell :=
  match i, r with
  | O, [] => [v]
  | O, _ :: t => v :: t
  | S i', [] => CNaN :: set_at i' v []
  | S i', x :: t => x :: set_at i' v t
  end.

Fixpoint drop_at (i : nat) (r : list cell) : list cell :=
  match i, r with
  | _, [] => []
  | O, _ :: t => t
  | S i', x :: t => x :: drop_at i' t
  end.

(** Positions of a label among the column labels. *)
Fixpoint positions (name : string) (cols : list string) (i : nat) : list nat :=
  match cols with
  | [] => []
  | c :: t => if String.eqb c name then i :: positions name t (S i)
              else positions name t (S i)
  end.

Definition has_column (name : string) (df : DataFrame) : bool :=
  existsb (String.eqb name) (columns df).

(** Selecting one column by label: [KeyError] when no column carries the
    label.  A label carried by several columns selects a sub-frame instead of
    a series, which the call sites of this program do not expect; the model
    stops there with [ValueError], as [pd.to_datetime], [groupby] and
    [sort_values] do, and [numeric_if_present] turns it into the
    [TypeError] of [pd.to_numeric].  The statements of this file are about
    labels carried by one column or by none. *)
Definition locate (name : string) (df : DataFrame) : result nat :=
  match positions name (columns df) 0 with
  | [] => Err (KeyError name)
  | [i] => Ok i
  | _ => Err ValueError
  end.

(** [df[name]] *)
Definition getitem (df : DataFrame) (name : string) : result (list cell) :=
  i <- locate name df ;; Ok (map (cell_at i) (rows df)).

(** Two lists walked together; a missing value leaves the row as it is. *)
Fixpoint write_column (i : nat) (vals : list cell) (rs : list (list cell))
  : list (list cell) :=
  match rs, vals with
  | r :: rt, v :: vt => set_at i v r :: write_column i vt rt
  | _, _ => rs
  end.

(** [df[name] = vals]: replaces the column when the label exists, appends a
    new last column otherwise. *)
Definition setitem (df : DataFrame) (name : string) (vals : list cell)
  : result DataFrame :=
  match positions name (columns df) 0 with
  | [] => Ok (mkFrame (columns df ++ [name])
                      (write_column (length (columns df)) vals (rows df)))
  | [i] => Ok (mkFrame (columns df) (write_column i vals (rows df)))
  | _ => Err ValueError
  end.

(* ------------------------------------------------------------------ *)
(** ** Column labels: [str.strip] *)

(** The whitespace of Python's [str.isspace] among the characters below
    256: U+0009 to U+000D, U+001C to U+0020, U+0085 and U+00A0. *)
Definition is_space (a : ascii) : bool :=
  let n := nat_of_ascii a in
  ((9 <=? n) && (n <=? 13) || (28 <=? n) && (n <=? 32)
   || (n =? 133) || (n =? 160))%nat.

Fixpoint lstrip (s : string) : string :=
  match s with
  | EmptyString => EmptyString
  | String a s' => if is_space a then lstrip s' else s
  end.

Fixpoint rstrip (s : string) : string :=
  match s with
  | EmptyString => EmptyString
  | String a s' =>
      match rstrip s' with
      | EmptyString => if is_space a then EmptyString else String a EmptyString
      | r => String a r
      end
  end.

Definition strip (s : string) : string := rstrip (lstrip s).

(** [df.columns = [c.strip() for c in df.columns]] *)
Definition strip_columns (df : DataFrame) : DataFrame :=
  mkFrame (map strip (columns df)) (rows df).

(* ------------------------------------------------------------------ *)
(** ** Coercions of [load_data] *)

Class Coercions : Type := {
  (** a date string understood by [pd.to_datetime] *)
  datetime_of_string : string -> option Timestamp;
  (** a number read as an epoch offset, [None] when out of bounds *)
  datetime_of_number : Q -> option Timestamp;
  (** a numeral understood by [pd.to_numeric] *)
  number_of_string : string -> option Q;
  (** a timestamp read as its epoch offset *)
  number_of_datetime : Timestamp -> Q
}.

Definition of_option {A : Type} (f : A -> cell) (o : option A) : cell :=
  match o with
  | Some a => f a
  | None => CNaN
  end.

Section Normalizer.
Context {P : Coercions}.

(** [pd.to_datetime(x, errors="coerce")], cell by cell *)
Definition to_datetime (c : cell) : cell :=
  match c with
  | CStr s => of_option CDate (datetime_of_string s)
  | CNum q => of_option CDate (datetime_of_number q)
  | CDate t => CDate t
  | CNaN => CNaN
  end.

(** [pd.to_numeric(x, errors="coerce")], cell by cell *)
Definition to_numeric (c : cell) : cell :=
  match c with
  | CStr s => of_option CNum (number_of_string s)
  | CNum q => CNum q
  | CDate t => CNum (number_of_datetime t)
  | CNaN => CNaN
  end.

(** [series.fillna(0)] *)
Definition fillna0 (c : cell) : cell :=
  match c with
  | CNaN => CNum 0
  | _ => c
  end.

(** [if name in df.columns: df[name] = f(df[name])] *)
Definition coerce_if_present (name : string) (f : cell -> cell) (df : DataFrame)
  : result DataFrame :=
  if has_column name df then
    col <- getitem df name ;;
    setitem df name (map f col)
  else Ok df.

Definition numeric0 (c : cell) : cell := fillna0 (to_numeric c).

(** [if name in df.columns: df[name] = pd.to_numeric(df[name],
    errors="coerce").fillna(0)].  When several columns carry the label,
    [df[name]] is a sub-frame: [pd.to_datetime] refuses it with
    [ValueError], as [locate] reports it, and [pd.to_numeric] with
    [TypeError]. *)
Definition numeric_if_present (name : string) (df : DataFrame) : result DataFrame :=
  match coerce_if_present name numeric0 df with
  | Err ValueError => Err TypeError
  | r => r
  end.

(** Lines 24-42 of [load_data]: the normalization pass on the three
    frames, in the order (customers, inventory, sales). *)
Definition normalize (customers inventory sales : DataFrame)
  : result (DataFrame * DataFrame * DataFrame) :=
  let customers := strip_columns customers in
  let inventory := strip_columns inventory in
  let sales := strip_columns sales in
  sales <- coerce_if_present "sale_date" to_datetime sales ;;
  customers <- coerce_if_present "join_date" to_datetime customers ;;
  sales <- numeric_if_present "total_amount" sales ;;
  sales <- numeric_if_present "quantity" sales ;;
  inventory <- numeric_if_present "price_per_unit" inventory ;;
  inventory <- numeric_if_present "quantity_in_stock" inventory ;;
  Ok (customers, inventory, sales).

(** [pd.read_csv(path) if os.path.exists(path) else pd.DataFrame()]: the
    argument is the parsed file, [None] when the file does not exist. *)
Definition read_csv_if_exists (source : option DataFrame) : DataFrame :=
  match source with
  | Some df => df
  | None => empty_frame
  end.

Definition load_data (customers_csv inventory_csv sales_csv : option DataFrame)
  : result (DataFrame * DataFrame * DataFrame) :=
  normalize (read_csv_if_exists customers_csv)
            (read_csv_if_exists inventory_csv)
            (read_csv_if_exists sales_csv).

End Normalizer.

(* ------------------------------------------------------------------ *)
(** ** Orders on cells *)

Definition lex (c1 c2 : comparison) : comparison :=
  match c1 with
  | Eq => c2
  | _ => c1
  end.

Definition ts_compare (a b : Timestamp) : comparison :=
  lex (ts_year a ?= ts_year b)%Z
   (lex (ts_month a ?= ts_month b)%Z
     (lex (ts_day a ?= ts_day b)%Z (ts_nanos a ?= ts_nanos b)%Z)).

Definition ts_lt (a b : Timestamp) : Prop := ts_compare a b = Lt.

(** Numbers sort before strings, as pandas orders mixed group keys. *)
Definition cell_rank (c : cell) : nat :=
  match c with
  | CNum _ => 0
  | CStr _ => 1
  | CDate _ => 2
  | CNaN => 3
  end.

Definition cell_compare (a b : cell) : comparison :=
  match a, b with
  | CNum x, CNum y => (x ?= y)%Q
  | CStr x, CStr y => String.compare x y
  | CDate x, CDate y => ts_compare x y
  | _, _ => Nat.compare (cell_rank a) (cell_rank b)
  end.

Definition cell_eqb (a b : cell) : bool :=
  match cell_compare a b with
  | Eq => true
  | _ => false
  end.

Definition isna (c : cell) : bool :=
  match c with
  | CNaN => true
  | _ => false
  end.

(* ------------------------------------------------------------------ *)
(** ** Series operations *)

(** A cell of a numeric series: a number or a missing value. *)
Definition as_number (c : cell) : result (option Q) :=
  match c with
  | CNum q => Ok (Some q)
  | CNaN => Ok None
  | _ => Err TypeError
  end.

Fixpoint present {A : Type} (l : list (option A)) : list A :=
  match l with
  | [] => []
  | Some a :: t => a :: present t
  | None :: t => present t
  end.

Definition Qsum (l : list Q) : Q := fold_right Qplus 0 l.

(** [series.sum()], missing values skipped.  The sum is exact: pandas
    sums an integer column modulo 2^64 and rounds the sum of a float column,
    which coincide with this sum as long as the amounts are whole numbers
    of moderate size. *)
Definition series_sum (col : list cell) : result Q :=
  xs <- mapM as_number col ;; Ok (Qsum (present xs)).

Definition Qltb (x y : Q) : bool := negb (Qle_bool y x).

(** [series < x]: a missing value compares false, a string or a date does
    not compare with a number. *)
Definition lt_scalar (x : Q) (c : cell) : result bool :=
  match c with
  | CNum q => Ok (Qltb q x)
  | CNaN => Ok false
  | _ => Err TypeError
  end.

(** [series.isin(values)] *)
Definition isin (values : list cell) (c : cell) : bool :=
  existsb (cell_eqb c) values.

(** [series.dropna()] *)
Definition dropna (col : list cell) : list cell :=
  filter (fun c => negb (isna c)) col.

(** [series.unique()]: the distinct values in order of first appearance. *)
Fixpoint unique (col : list cell) : list cell :=
  match col with
  | [] => []
  | c :: t => c :: filter (fun x => negb (cell_eqb x c)) (unique t)
  end.

(** [series.min()] and [series.max()]: missing values are skipped, the
    result is missing when nothing is left; values of two types do not
    compare. *)
Fixpoint extreme (better : comparison -> bool) (best : cell) (col : list cell)
  : result cell :=
  match col with
  | [] => Ok best
  | c :: t =>
      if isna c then extreme better best t
      else if Nat.eqb (cell_rank c) (cell_rank best)
      then extreme better (if better (cell_compare c best) then c else best) t
      else Err TypeError
  end.

Definition is_lt (o : comparison) : bool :=
  match o with
  | Lt => true
  | _ => false
  end.

Definition is_gt (o : comparison) : bool :=
  match o with
  | Gt => true
  | _ => false
  end.

Definition series_min (col : list cell) : result cell :=
  match dropna col with
  | [] => Ok CNaN
  | c :: t => extreme is_lt c t
  end.

Definition series_max (col : list cell) : result cell :=
  match dropna col with
  | [] => Ok CNaN
  | c :: t => extreme is_gt c t
  end.

(** [df[mask]] *)
Fixpoint keep_where {A : Type} (mask : list bool) (l : list A) : list A :=
  match mask, l with
  | true :: mt, a :: t => a :: keep_where mt t
  | false :: mt, _ :: t => keep_where mt t
  | _, _ => []
  end.

Definition select_rows (df : DataFrame) (mask : list bool) : DataFrame :=
  mkFrame (columns df) (keep_where mask (rows df)).

(** [df[[label, ...]]] *)
Definition select_columns (df : DataFrame) (labels : list string)
  : result DataFrame :=
  idx <- mapM (fun l => locate l df) labels ;;
  Ok (mkFrame labels (map (fun r => map (fun i => cell_at i r) idx) (rows df))).

(** [df.dropna(subset=[label])] *)
Definition dropna_subset (df : DataFrame) (label : string) : result DataFrame :=
  i <- locate label df ;;
  Ok (mkFrame (columns df) (filter (fun r => negb (isna (cell_at i r))) (rows df))).

(** [df.head(n)] *)
Definition head (n : nat) (df : DataFrame) : DataFrame :=
  mkFrame (columns df) (firstn n (rows df)).

(** [.dt.to_period('M').dt.to_timestamp()]: the first instant of the month. *)
Definition month_start (t : Timestamp) : Timestamp :=
  mkTimestamp (ts_year t) (ts_month t) 1 0.

(** The [.dt] accessor exists on datetime series only. *)
Definition dt_month_start (c : cell) : result cell :=
  match c with
  | CDate t => Ok (CDate (month_start t))
  | CNaN => Ok CNaN
  | _ => Err AttributeError
  end.

(* ------------------------------------------------------------------ *)
(** ** [groupby(key)[value].sum().reset_index()] *)

(** Group keys: the distinct keys in ascending order. *)
Fixpoint insert_key (k : cell) (ks : list cell) : list cell :=
  match ks with
  | [] => [k]
  | k' :: t =>
      match cell_compare k k' with
      | Lt => k :: ks
      | Eq => ks
      | Gt => k' :: insert_key k t
      end
  end.

Definition group_keys (keys : list cell) : list cell :=
  fold_left (fun acc k => insert_key k acc) keys [].

Definition groupby_sum (df : DataFrame) (key value : string) : result DataFrame :=
  ki <- locate key df ;;
  vi <- locate value df ;;
  (* dropna=True: rows with a missing key belong to no group *)
  let kept := filter (fun r => negb (isna (cell_at ki r))) (rows df) in
  let group k := filter (fun r => cell_eqb (cell_at ki r) k) kept in
  out <- mapM (fun k => s <- series_sum (map (cell_at vi) (group k)) ;;
                        Ok [k; CNum s])
              (group_keys (map (cell_at ki) kept)) ;;
  Ok (mkFrame [key; value] out).

(* ------------------------------------------------------------------ *)
(** ** [series.rolling(3, min_periods=1).mean()] *)

Definition keep_last {A : Type} (w : nat) (l : list A) : list A :=
  skipn (length l - w) l.

Definition Qmean (l : list Q) : Q :=
  Qsum l / inject_Z (Z.of_nat (length l)).

(** The mean of the observations in the window, missing when there are
    fewer than [min_periods] of them. *)
Definition window_mean (min_periods : nat) (win : list (option Q)) : cell :=
  let obs := present win in
  if (min_periods <=? length obs)%nat then CNum (Qmean obs) else CNaN.

(** The window slides over the series: [win] holds the last values seen. *)
Fixpoint roll (w min_periods : nat) (win xs : list (option Q)) : list cell :=
  match xs with
  | [] => []
  | x :: t =>
      let win' := keep_last w (win ++ [x]) in
      window_mean min_periods win' :: roll w min_periods win' t
  end.

Definition rolling_mean (w min_periods : nat) (col : list cell)
  : result (list cell) :=
  xs <- mapM as_number col ;; Ok (roll w min_periods [] xs).

(* ------------------------------------------------------------------ *)
(** ** [left.merge(right, on=key, how="left")] *)

Definition fit (n : nat) (r : list cell) : list cell :=
  firstn n (r ++ repeat CNaN n).

(** A label other than the key carried by both frames gets a suffix. *)
Definition suffixed (key sfx : string) (others cols : list string) : list string :=
  map (fun c => if negb (String.eqb c key) && existsb (String.eqb c) others
                then (c ++ sfx)%string else c) cols.

Fixpoint drop_label (i : nat) (l : list string) : list string :=
  match i, l with
  | _, [] => []
  | O, _ :: t => t
  | S i', x :: t => x :: drop_label i' t
  end.

(** Before it joins, [merge] compares the types of the two key columns and
    refuses, with [ValueError], columns it cannot match, such as numbers on
    one side and text on the other.  The check belongs to pandas:
    [keys_compatible left_keys right_keys] is its answer on the cells of the
    two key columns. *)
Class MergeKeys : Type := {
  keys_compatible : list cell -> list cell -> bool
}.

Definition merge_left {M : MergeKeys} (left right : DataFrame) (key : string)
  : result DataFrame :=
  li <- locate key left ;;
  ri <- locate key right ;;
  if keys_compatible (map (cell_at li) (rows left)) (map (cell_at ri) (rows right))
  then
    let nl := length (columns left) in
    let nr := length (columns right) in
    let attrs r := fit (nr - 1) (drop_at ri r) in
    let joined l :=
      match filter (fun r => cell_eqb (cell_at li l) (cell_at ri r)) (rows right) with
      | [] => [fit nl l ++ repeat CNaN (nr - 1)]
      | ms => map (fun r => fit nl l ++ attrs r) ms
      end in
    Ok (mkFrame (suffixed key "_x" (columns right) (columns left)
                   ++ drop_label ri (suffixed key "_y" (columns left) (columns right)))
                (flat_map joined (rows left)))
  else Err ValueError.

(* ------------------------------------------------------------------ *)
(** ** [df.sort_values(label, ascending=...)] *)

Definition total {A : Type} (leb : A -> A -> bool) : Prop :=
  forall a b, leb a b = true \/ leb b a = true.

Definition transitive {A : Type} (leb : A -> A -> bool) : Prop :=
  forall a b c, leb a b = true -> leb b c = true -> leb a c = true.

(** The sorting algorithm [sort_values] runs.  The program passes no
    [kind=], so it is pandas' default, [kind="quicksort"]. *)
Class SortKind : Type := {
  sort_by : forall A : Type, (A -> A -> bool) -> list A -> list A
}.

Arguments sort_by {_} {A} leb l.

(** What pandas promises of that algorithm: the rows come back in order.
    Nothing is promised about rows with equal keys. *)
Class SortContract (S : SortKind) : Prop := {
  sort_by_perm : forall (A : Type) (leb : A -> A -> bool) (l : list A),
      Permutation l (sort_by leb l);
  sort_by_sorted : forall (A : Type) (leb : A -> A -> bool),
      total leb -> transitive leb -> forall l : list A,
      StronglySorted (fun a b => leb a b = true) (sort_by leb l)
}.

(** Order of the sort keys: missing values last in both directions. *)
Definition key_leb (ascending : bool) (a b : option Q) : bool :=
  match a, b with
  | _, None => true
  | None, Some _ => false
  | Some x, Some y => if ascending then Qle_bool x y else Qle_bool y x
  end.

Section Engine.
Context {S : SortKind} {M : MergeKeys}.

(** The program sorts numeric columns only; a string or a date among the
    keys is a [TypeError] here. *)
Definition sort_values (df : DataFrame) (label : string) (ascending : bool)
  : result DataFrame :=
  i <- locate label df ;;
  keys <- mapM as_number (map (cell_at i) (rows df)) ;;
  let sorted := sort_by (fun a b => key_leb ascending (fst a) (fst b))
                        (combine keys (rows df)) in
  Ok (mkFrame (columns df) (map snd sorted)).

(* ------------------------------------------------------------------ *)
(** ** The dashboard *)

(** What a section of the page shows. *)
Inductive view : Type :=
| Table (df : DataFrame)     (* [st.dataframe] or a chart of the frame *)
| Info (msg : string)        (* [st.info] *)
| Success (msg : string).    (* [st.success] *)

(** [Timestamp.date()] *)
Definition timestamp_date (t : Timestamp) : Date :=
  mkDate (ts_year t) (ts_month t) (ts_day t).

(** [value.date()], as [date_input] calls it on a bound that is a
    [datetime]: a timestamp gives its day, and [NaT], which is a [datetime]
    too, raises [ValueError].  Line 30 has coerced the column, so a bound is
    one or the other and the last case is not reached. *)
Definition to_date (c : cell) : result Date :=
  match c with
  | CDate t => Ok (timestamp_date t)
  | CNaN => Err ValueError
  | _ => Err TypeError
  end.

(** [st.sidebar.date_input(label, value=(a, b))]: the range the widget
    holds when the page is first run, its two bounds as dates.  The limits
    the widget sets itself, ten years around the bounds, contain them. *)
Definition date_input (value : cell * cell) : result (Date * Date) :=
  a <- to_date (fst value) ;;
  b <- to_date (snd value) ;;
  Ok (a, b).

(** Lines 50-55: the date range of the sidebar, [None] when there is no
    sale. *)
Definition date_range_bounds (sales : DataFrame) : result (option (Date * Date)) :=
  if negb (empty sales) then
    dates <- getitem sales "sale_date" ;;
    min_date <- series_min dates ;;
    dates <- getitem sales "sale_date" ;;
    max_date <- series_max dates ;;
    date_range <- date_input (min_date, max_date) ;;
    Ok (Some date_range)
  else Ok None.

(** Lines 57-62: the options of the category selector, [None] when the
    inventory has no [category] column. *)
Definition categories (inventory : DataFrame) : result (option (list cell)) :=
  if has_column "category" inventory then
    col <- getitem inventory "category" ;;
    let categories := unique (dropna col) in
    Ok (Some (CStr "All" :: categories))
  else Ok None.

(** Line 69 *)
Definition total_sales (sales : DataFrame) : result Q :=
  if negb (empty sales) then
    col <- getitem sales "total_amount" ;; series_sum col
  else Ok 0.

(** Lines 70-72 *)
Definition num_customers (customers : DataFrame) : nat := shape0 customers.
Definition num_products (inventory : DataFrame) : nat := shape0 inventory.
Definition total_transactions (sales : DataFrame) : nat := shape0 sales.

(** Lines 84-87: the frame [monthly] before the moving average is added. *)
Definition monthly (sales : DataFrame) : result DataFrame :=
  let df_sales := sales in
  df_sales <- dropna_subset df_sales "sale_date" ;;
  dates <- getitem df_sales "sale_date" ;;
  months <- mapM dt_month_start dates ;;
  df_sales <- setitem df_sales "sale_month" months ;;
  groupby_sum df_sales "sale_month" "total_amount".

(** Line 92: [monthly["ma3"] = ...] *)
Definition ma3 (monthly : DataFrame) : result DataFrame :=
  col <- getitem monthly "total_amount" ;;
  avg <- rolling_mean 3 1 col ;;
  setitem monthly "ma3" avg.

(** Lines 83-98 *)
Definition monthly_trend (sales : DataFrame) : result view :=
  if negb (empty sales) then
    m <- monthly sales ;;
    m <- ma3 m ;;
    Ok (Table m)
  else Ok (Info "No sales data available to plot.").

(** Lines 103-105 *)
Definition top_cust (sales customers : DataFrame) : result DataFrame :=
  top_cust <- groupby_sum sales "customer_id" "total_amount" ;;
  top_cust <- merge_left top_cust customers "customer_id" ;;
  top_cust <- sort_values top_cust "total_amount" false ;;
  Ok (head 10 top_cust).

(** Lines 102-109 *)
Definition top_customers (sales customers : DataFrame) : result view :=
  if negb (empty sales) && negb (empty customers) then
    t <- top_cust sales customers ;; Ok (Table t)
  else Ok (Info "Customers or sales data missing.").

(** Lines 114-116 *)
Definition top_prod (sales inventory : DataFrame) : result DataFrame :=
  top_prod <- groupby_sum sales "product_id" "total_amount" ;;
  top_prod <- merge_left top_prod inventory "product_id" ;;
  top_prod <- sort_values top_prod "total_amount" false ;;
  Ok (head 10 top_prod).

(** Lines 113-120 *)
Definition top_products (sales inventory : DataFrame) : result view :=
  if negb (empty sales) && negb (empty inventory) then
    t <- top_prod sales inventory ;; Ok (Table t)
  else Ok (Info "Inventory or sales data missing.").

(** Line 125 with the threshold as a parameter; the program fixes it to 100. *)
Definition low_stock_below (threshold : Q) (inventory : DataFrame)
  : result DataFrame :=
  col <- getitem inventory "quantity_in_stock" ;;
  mask <- mapM (lt_scalar threshold) col ;;
  sort_values (select_rows inventory mask) "quantity_in_stock" true.

Definition low_stock (inventory : DataFrame) : result DataFrame :=
  low_stock_below 100 inventory.

(** Lines 124-129 *)
Definition low_stock_products (inventory : DataFrame) : result view :=
  if negb (empty inventory) then
    t <- low_stock inventory ;; Ok (Table t)
  else Ok (Info "Inventory data missing.").

(** Lines 133-138 *)
Definition rows_count (customers inventory sales : DataFrame) : nat * nat * nat :=
  (shape0 customers, shape0 inventory, shape0 sales).

(** Line 142 *)
Definition missing (sales customers : DataFrame) : result DataFrame :=
  ids <- getitem sales "customer_id" ;;
  known <- getitem customers "customer_id" ;;
  let mask := map (fun c => negb (isin known c)) ids in
  select_columns (select_rows sales mask) ["sale_id"; "customer_id"].

(** Lines 140-145 *)
Definition missing_customers (sales customers : DataFrame) : result view :=
  if negb (empty sales) && negb (empty customers) then
    m <- missing sales customers ;; Ok (Table m)
  else Ok (Info "Need both sales and customers data.").

(** Line 148 *)
Definition neg (sales : DataFrame) : result DataFrame :=
  col <- getitem sales "total_amount" ;;
  mask <- mapM (lt_scalar 0) col ;;
  select_columns (select_rows sales mask) ["sale_id"; "total_amount"].

(** Lines 147-152 *)
Definition negative_amounts (sales : DataFrame) : result view :=
  neg <- neg sales ;;
  if negb (empty neg) then Ok (Table neg)
  else Ok (Success "No negative sales found").

End Engine.

(* ------------------------------------------------------------------ *)
(** ** Reference instances *)

(** Decimal numerals: an optional sign, digits, an optional fraction, an
    optional exponent, with blanks around them ignored. *)
Definition digit_of (a : ascii) : option Z :=
  let n := Z.of_nat (nat_of_ascii a) in
  if ((48 <=? n) && (n <=? 57))%Z then Some (n - 48)%Z else None.

(** [digits s acc scale frac seen]: the numerator read so far, the power of
    ten of the fraction, whether the point was met and whether a digit was. *)
Fixpoint digits (s : string) (acc : Z) (scale : positive) (frac seen : bool)
  : option Q :=
  match s with
  | EmptyString => if seen then Some (acc # scale) else None
  | String a s' =>
      match digit_of a with
      | Some d =>
          digits s' (10 * acc + d)%Z
                 (if frac then (10 * scale)%positive else scale) frac true
      | None =>
          if Ascii.eqb a "."%char && negb frac then digits s' acc scale true seen
          else None
      end
  end.

Definition signed {A : Type} (read : string -> option A) (opp : A -> A) (s : string)
  : option A :=
  match s with
  | String "-"%char s' => option_map opp (read s')
  | String "+"%char s' => read s'
  | _ => read s
  end.

(** The digits of an exponent. *)
Fixpoint natural (s : string) (acc : Z) (seen : bool) : option Z :=
  match s with
  | EmptyString => if seen then Some acc else None
  | String a s' =>
      match digit_of a with
      | Some d => natural s' (10 * acc + d)%Z true
      | None => None
      end
  end.

(** The text before the first [e] or [E], and the text after it. *)
Fixpoint split_exponent (s : string) : string * option string :=
  match s with
  | EmptyString => (EmptyString, None)
  | String a s' =>
      if Ascii.eqb a "e"%char || Ascii.eqb a "E"%char then (EmptyString, Some s')
      else let (m, e) := split_exponent s' in (String a m, e)
  end.

Definition unsigned_decimal (s : string) : option Q :=
  let (mantissa, exponent) := split_exponent s in
  match digits mantissa 0 1 false false, exponent with
  | Some m, None => Some m
  | Some m, Some e =>
      option_map (fun z => m * Qpower 10 z)
                 (signed (fun t => natural t 0 false) Z.opp e)
  | None, _ => None
  end.

(** The blanks the numeral parser skips: U+0009 to U+000D and the space. *)
Definition is_blank (a : ascii) : bool :=
  let n := nat_of_ascii a in
  ((9 <=? n) && (n <=? 13) || (n =? 32))%nat.

Fixpoint skip_blanks (s : string) : string :=
  match s with
  | EmptyString => EmptyString
  | String a s' => if is_blank a then skip_blanks s' else s
  end.

Fixpoint drop_last_blanks (s : string) : string :=
  match s with
  | EmptyString => EmptyString
  | String a s' =>
      match drop_last_blanks s' with
      | EmptyString => if is_blank a then EmptyString else String a EmptyString
      | r => String a r
      end
  end.

Definition decimal (s : string) : option Q :=
  signed unsigned_decimal Qopp (drop_last_blanks (skip_blanks s)).

Definition leap_year (y : Z) : bool :=
  ((y mod 4 =? 0) && negb (y mod 100 =? 0) || (y mod 400 =? 0))%Z.

Definition days_in_month (y m : Z) : Z :=
  if (m =? 2)%Z then (if leap_year y then 29 else 28)%Z
  else if ((m =? 4) || (m =? 6) || (m =? 9) || (m =? 11))%Z then 30%Z
  else 31%Z.

(** The days a nanosecond timestamp can hold: 1677-09-22 to 2262-04-11. *)
Definition in_bounds (y m d : Z) : bool :=
  match ts_compare (mkTimestamp 1677 9 22 0) (mkTimestamp y m d 0),
        ts_compare (mkTimestamp y m d 0) (mkTimestamp 2262 4 11 0) with
  | Gt, _ | _, Gt => false
  | _, _ => true
  end.

(** Dates written [YYYY-MM-DD]: a day of the calendar, within bounds. *)
Definition iso_date (s : string) : option Timestamp :=
  match s with
  | String y1 (String y2 (String y3 (String y4 (String "-"
      (String m1 (String m2 (String "-" (String d1 (String d2 EmptyString))))))))) =>
      match digit_of y1, digit_of y2, digit_of y3, digit_of y4,
            digit_of m1, digit_of m2, digit_of d1, digit_of d2 with
      | Some a, Some b, Some c, Some d, Some e, Some f, Some g, Some h =>
          let yr := (1000 * a + 100 * b + 10 * c + d)%Z in
          let mo := (10 * e + f)%Z in
          let dy := (10 * g + h)%Z in
          if ((1 <=? mo) && (mo <=? 12) && (1 <=? dy) && (dy <=? days_in_month yr mo))%Z
             && in_bounds yr mo dy
          then Some (mkTimestamp yr mo dy 0)
          else None
      | _, _, _, _, _, _, _, _ => None
      end
  | _ => None
  end.

(** A small instance of the parsers, for the worked examples: it reads
    decimal numerals and ISO days, not every form pandas reads (no [inf],
    no time of day, no other date format).  The general statements hold
    for every instance. *)
Definition simple_coercions : Coercions := {|
  datetime_of_string := iso_date;
  datetime_of_number := fun _ => None;
  number_of_string := decimal;
  number_of_datetime := fun _ => 0
|}.

(** Two sorting algorithms to run the statements on, neither of them the
    one of pandas: insertion before the first row that is not smaller, which
    keeps rows with equal keys in their order, and insertion after the last
    row that is not larger, which reverses them.  The general statements
    hold for every algorithm that returns a sorted permutation. *)
Section Insertion.
Variable A : Type.
Variable leb : A -> A -> bool.

Fixpoint insert_before (a : A) (l : list A) : list A :=
  match l with
  | [] => [a]
  | b :: t => if leb a b then a :: l else b :: insert_before a t
  end.

Fixpoint insert_after (a : A) (l : list A) : list A :=
  match l with
  | [] => [a]
  | b :: t => if leb b a then b :: insert_after a t else a :: l
  end.

Definition stable_sort (l : list A) : list A := fold_right insert_before [] l.

Definition reversing_sort (l : list A) : list A := fold_right insert_after [] l.

End Insertion.

Arguments insert_before {A} leb a l.
Arguments insert_after {A} leb a l.
Arguments stable_sort {A} leb l.
Arguments reversing_sort {A} leb l.

Definition stable_kind : SortKind := {| sort_by := @stable_sort |}.

Definition reversing_kind : SortKind := {| sort_by := @reversing_sort |}.

(* ================================================================== *)
(** * Vocabulary of the statements *)

(** ** Columns of one type *)

Definition numeric (c : cell) : bool :=
  match c with
  | CNum _ => true
  | _ => false
  end.

(** A cell of a numeric column before [fillna]. *)
Definition numeric_or_missing (c : cell) : bool :=
  match c with
  | CNum _ | CNaN => true
  | _ => false
  end.

(** A cell of a datetime column: a timestamp or [NaT]. *)
Definition datetime_or_missing (c : cell) : bool :=
  match c with
  | CDate _ | CNaN => true
  | _ => false
  end.

Definition text (c : cell) : bool :=
  match c with
  | CStr _ => true
  | _ => false
  end.

Definition text_or_missing (c : cell) : bool :=
  match c with
  | CStr _ | CNaN => true
  | _ => false
  end.

(** The sort key of a row: the number in the cell, [None] when missing. *)
Definition num_key (c : cell) : option Q :=
  match c with
  | CNum q => Some q
  | _ => None
  end.

(** The number in column [i] of a row, for rows of a numeric column. *)
Definition quantity (i : nat) (r : list cell) : Q :=
  match cell_at i r with
  | CNum q => q
  | _ => 0
  end.

(** ** The normalization pass *)

(** A coercion applied to column [i]. *)
Definition apply_at (i : nat) (f : cell -> cell) (df : DataFrame) : DataFrame :=
  mkFrame (columns df) (map (fun r => set_at i (f (cell_at i r)) r) (rows df)).

(** A column on which a coercion has nothing left to do. *)
Definition settled (name : string) (f : cell -> cell) (df : DataFrame) : Prop :=
  has_column name df = false \/
  exists i, locate name df = Ok i /\
            Forall (fun r => (i < length r)%nat /\ f (cell_at i r) = cell_at i r)
                   (rows df).

(** ** Orders *)

Record order_laws {A : Type} (cmp : A -> A -> comparison) : Prop := {
  cmp_refl : forall a, cmp a a = Eq;
  cmp_antisym : forall a b, cmp b a = CompOpp (cmp a b);
  cmp_eq_compat : forall a b c, cmp a b = Eq -> cmp a c = cmp b c;
  cmp_lt_trans : forall a b c, cmp a b = Lt -> cmp b c = Lt -> cmp a c = Lt
}.

(** Two cells that are the same group or join key. *)
Definition same_key (a b : cell) : Prop := cell_eqb a b = true.

Definition key_lt (a b : cell) : Prop := cell_compare a b = Lt.

(** The order [sort_values] puts the rows in, on column [i]. *)
Definition row_le (i : nat) (ascending : bool) (r1 r2 : list cell) : Prop :=
  key_leb ascending (num_key (cell_at i r1)) (num_key (cell_at i r2)) = true.

(** ** Quality checks and low stock *)

(** The sales rows whose [customer_id] is found nowhere in the
    [customer_id] column of the customer table, in the order of the sales
    table. *)
Definition orphans (ci ki : nat) (sales customers : DataFrame) : list (list cell) :=
  filter (fun r => forallb (fun k => negb (cell_eqb (cell_at ci r) (cell_at ki k)))
                           (rows customers))
         (rows sales).

(** The rows with a negative amount, in the order of the sales table. *)
Definition negatives (ti : nat) (sales : DataFrame) : list (list cell) :=
  filter (fun r => match cell_at ti r with
                   | CNum q => Qltb q 0
                   | _ => false
                   end) (rows sales).

(** A row whose quantity is strictly below the threshold. *)
Definition below (i : nat) (threshold : Q) (r : list cell) : bool :=
  match cell_at i r with
  | CNum q => Qltb q threshold
  | _ => false
  end.

(** ** Groups and buckets *)

(** The amounts found in column [vi] of some rows, missing ones skipped. *)
Definition amounts (vi : nat) (rs : list (list cell)) : list Q :=
  present (map (fun r => num_key (cell_at vi r)) rs).

(** The rows of the group of key [k]. *)
Definition group_rows (ki : nat) (k : cell) (df : DataFrame) : list (list cell) :=
  filter (fun r => cell_eqb (cell_at ki r) k) (rows df).

(** The summed amount of the group of key [k]. *)
Definition group_total (ki vi : nat) (df : DataFrame) (k : cell) : Q :=
  Qsum (amounts vi (group_rows ki k df)).

(** The rows that have a key. *)
Definition keyed_rows (ki : nat) (df : DataFrame) : list (list cell) :=
  filter (fun r => negb (isna (cell_at ki r))) (rows df).

(** The month of a sale, when its date is present. *)
Definition sale_month (di : nat) (r : list cell) : option Timestamp :=
  match cell_at di r with
  | CDate t => Some (month_start t)
  | _ => None
  end.

Definition in_month (di : nat) (m : Timestamp) (r : list cell) : bool :=
  match sale_month di r with
  | Some m' => cell_eqb (CDate m') (CDate m)
  | None => false
  end.

(** Revenue of a bucket: the amounts of the sales dated in that month. *)
Definition bucket_revenue (di ti : nat) (sales : DataFrame) (m : Timestamp) : Q :=
  Qsum (amounts ti (filter (in_month di m) (rows sales))).

Definition month_cell (c : cell) : cell :=
  match c with
  | CDate t => CDate (month_start t)
  | _ => CNaN
  end.

(** The average of the buckets [max 0 (j - 2) .. j]. *)
Definition trailing_mean (revenue : list Q) (j : nat) : Q :=
  Qmean (skipn (j - 2) (firstn (j + 1) revenue)).

(** The rows (month, revenue, moving average) of the trend table. *)
Fixpoint trend_rows (months : list Timestamp) (revenue average : list Q)
  : list (list cell) :=
  match months, revenue, average with
  | m :: ms, v :: vs, a :: avs => [CDate m; CNum v; CNum a] :: trend_rows ms vs avs
  | _, _, _ => []
  end.

(** ** Rankings *)

(** The rows of one group after the left join: one per matching row of the
    dimension table, or a single row with missing attributes. *)
Definition join_group (ci : nat) (dim : DataFrame) (total : cell -> Q) (k : cell)
  : list (list cell) :=
  let width := (length (columns dim) - 1)%nat in
  match filter (fun c => cell_eqb k (cell_at ci c)) (rows dim) with
  | [] => [[k; CNum (total k)] ++ repeat CNaN width]
  | ms => map (fun c => [k; CNum (total k)] ++ fit width (drop_at ci c)) ms
  end.

(** What is known of the check [merge] makes on its key columns: a column
    of numbers, with or without missing values, matches a column of
    numbers; a column of texts matches a column that holds texts; numbers
    on one side and texts on the other are refused. *)
Class MergeContract (M : MergeKeys) : Prop := {
  numbers_compatible : forall l r : list cell,
      r <> [] ->
      forallb numeric_or_missing l = true ->
      forallb numeric_or_missing r = true ->
      keys_compatible l r = true;
  texts_compatible : forall l r : list cell,
      forallb text l = true ->
      forallb text_or_missing r = true -> existsb text r = true ->
      keys_compatible l r = true;
  numbers_and_texts_refused : forall l r : list cell,
      l <> [] -> r <> [] ->
      forallb numeric l = true /\ forallb text r = true \/
      forallb text l = true /\ forallb numeric r = true ->
      keys_compatible l r = false
}.

(** A small instance of the check, for the worked examples: when both
    columns have cells, either both hold numbers only or neither does. *)
Definition plain_keys : MergeKeys := {|
  keys_compatible l r :=
    match l, r with
    | [], _ | _, [] => true
    | _, _ => Bool.eqb (forallb numeric_or_missing l) (forallb numeric_or_missing r)
    end
|}.

(** The key column of the group sums: the keys of the sales table, each
    once, in ascending order. *)
Definition sales_keys (ki : nat) (sales : DataFrame) : list cell :=
  group_keys (map (cell_at ki) (keyed_rows ki sales)).

(** The key column of the dimension table. *)
Definition dim_keys (ci : nat) (dim : DataFrame) : list cell :=
  map (cell_at ci) (rows dim).

(** The frame a ranking sorts: the group sums joined with the dimension
    table. *)
Definition merged {M : MergeKeys} (key : string) (sales dim : DataFrame)
  : result DataFrame :=
  g <- groupby_sum sales key "total_amount" ;; merge_left g dim key.

(** The three lines shared by [top_cust] and [top_prod]. *)
Definition ranking {S : SortKind} {M : MergeKeys} (key : string) (sales dim : DataFrame)
  : result DataFrame :=
  m <- merged key sales dim ;;
  s <- sort_values m "total_amount" false ;;
  Ok (head 10 s).

(** What a Top-N section shows for the key column [key], the sales table
    and the dimension table [dim], when the dimension table has no
    [total_amount] column of its own and [merge] accepts the two key
    columns.  The joined rows are fixed row by row: for each group, in the
    order of the groups, the rows [join_group] gives it.  Only the order of
    the rows with the same revenue is left to the sorting algorithm. *)
Definition top_n_spec {M : MergeKeys} (key : string) (shown : result view)
           (sales dim : DataFrame) : Prop :=
  forall ki vi ci,
    locate key sales = Ok ki ->
    locate "total_amount" sales = Ok vi ->
    Forall (fun r => numeric_or_missing (cell_at vi r) = true) (rows sales) ->
    locate key dim = Ok ci ->
    has_column "total_amount" dim = false ->
    keys_compatible (sales_keys ki sales) (dim_keys ci dim) = true ->
    let total := group_total ki vi sales in
    exists groups sorted,
      (* one group per key of the sales table, in ascending order *)
      StronglySorted key_lt groups /\
      (forall k, In k groups ->
                 isna k = false /\ exists r, In r (rows sales) /\ cell_at ki r = k) /\
      (forall r, In r (rows sales) -> isna (cell_at ki r) = false ->
                 exists k, In k groups /\ same_key (cell_at ki r) k) /\
      (* left join, descending by revenue, first 10 *)
      Permutation (flat_map (join_group ci dim total) groups) sorted /\
      StronglySorted (fun r1 r2 => quantity 1 r2 <= quantity 1 r1) sorted /\
      shown = Ok (Table (mkFrame ([key; "total_amount"] ++ drop_label ci (columns dim))
                                 (firstn 10 sorted))).

(** ** Labels *)

Fixpoint all_space (s : string) : bool :=
  match s with
  | EmptyString => true
  | String a t => is_space a && all_space t
  end.

Definition starts_with_space (s : string) : bool :=
  match s with
  | EmptyString => false
  | String a _ => is_space a
  end.

Fixpoint ends_with_space (s : string) : bool :=
  match s with
  | EmptyString => false
  | String a EmptyString => is_space a
  | String _ t => ends_with_space t
  end.

(** [clean] is [raw] without the whitespace around it. *)
Definition trimmed (raw clean : string) : Prop :=
  exists before after,
    raw = (before ++ clean ++ after)%string /\
    all_space before = true /\ all_space after = true /\
    starts_with_space clean = false /\ ends_with_space clean = false.

(** ** More on keys *)

(** No two rows of the table carry the same key. *)
Definition distinct_keys (ci : nat) (df : DataFrame) : Prop :=
  ForallOrdPairs (fun c1 c2 => cell_eqb (cell_at ci c1) (cell_at ci c2) = false)
                 (rows df).

(** The row a group without a match has after the left join. *)
Definition unmatched_row (dim : DataFrame) (total : cell -> Q) (k : cell) : list cell :=
  [k; CNum (total k)] ++ repeat CNaN (length (columns dim) - 1).

(** The row a group has for the matching row [c] of the dimension table. *)
Definition matched_row (ci : nat) (dim : DataFrame) (total : cell -> Q) (k : cell)
           (c : list cell) : list cell :=
  [k; CNum (total k)] ++ fit (length (columns dim) - 1) (drop_at ci c).

(** ** Tables of the worked instances *)

(** Files as [read_csv] returns them: stray blanks in the headers, numbers
    and dates still text where a cell of the column does not parse. *)
Definition messy_customers : DataFrame :=
  mkFrame [" customer_id"; "customer_name "; "join_date"]
          [[CNum 1; CStr "Ann"; CStr "2023-05-01"];
           [CNum 2; CStr "Bob"; CStr "soon"]].

Definition messy_inventory : DataFrame :=
  mkFrame ["product_id"; " quantity_in_stock"; "price_per_unit"]
          [[CNum 1; CStr "12"; CStr "9.50"];
           [CNum 2; CStr "none"; CNaN]].

Definition messy_sales : DataFrame :=
  mkFrame ["sale_id "; "customer_id"; "sale_date"; " total_amount"; "quantity"]
          [[CNum 1; CNum 1; CStr "2024-01-05"; CStr "10"; CNum 1];
           [CNum 2; CNum 3; CStr "bad"; CStr "abc"; CStr "2"];
           [CNum 3; CNum 2; CStr "2024-02-07"; CStr "-5"; CNaN]].

(** Sales of January to April 2024 with revenues 100, 200, 300 and 400,
    out of order, and one sale without a date. *)
Definition march_sales : DataFrame :=
  mkFrame ["sale_id"; "sale_date"; "total_amount"]
          [[CNum 1; CDate (mkTimestamp 2024 3 15 0); CNum 300];
           [CNum 2; CDate (mkTimestamp 2024 1 5 0); CNum 60];
           [CNum 3; CNaN; CNum 999];
           [CNum 4; CDate (mkTimestamp 2024 2 10 0); CNum 200];
           [CNum 5; CDate (mkTimestamp 2024 1 20 0); CNum 40];
           [CNum 6; CDate (mkTimestamp 2024 4 1 0); CNum 400]].

(** A sales table without a [sale_date] column. *)
Definition receipts : DataFrame :=
  mkFrame ["sale_id"; "total_amount"] [[CNum 1; CNum 10]].

(** The sales column ["10"; "abc"; "-5"]. *)
Definition text_amounts : DataFrame :=
  mkFrame ["total_amount"] [[CStr "10"]; [CStr "abc"]; [CStr "-5"]].

(** The sales [(1, -5); (2, 10)]. *)
Definition refund_and_sale : DataFrame :=
  mkFrame ["sale_id"; "total_amount"] [[CNum 1; CNum (-5)]; [CNum 2; CNum 10]].

(** A sales file with its header and no line. *)
Definition header_only_sales : DataFrame :=
  mkFrame ["sale_id"; "total_amount"] [].

(** Customers 1 and 2, and the sale 9 of customer 3. *)
Definition known_customers : DataFrame :=
  mkFrame ["customer_id"] [[CNum 1]; [CNum 2]].

Definition one_sale : DataFrame :=
  mkFrame ["sale_id"; "customer_id"] [[CNum 9; CNum 3]].

(** Stock quantities 50, 150, 99 and 100. *)
Definition shelf : DataFrame :=
  mkFrame ["product_id"; "quantity_in_stock"]
          [[CNum 1; CNum 50]; [CNum 2; CNum 150]; [CNum 3; CNum 99]; [CNum 4; CNum 100]].

(** An inventory with nothing below 100. *)
Definition full_shelf : DataFrame :=
  mkFrame ["product_id"; "quantity_in_stock"] [[CNum 1; CNum 500]].

(** Inventory files with a quantity that does not parse. *)
Definition stockroom : DataFrame :=
  mkFrame ["product_name"; "quantity_in_stock"]
          [[CStr "A"; CStr "abc"]; [CStr "B"; CStr "7"]].

Definition returns_room : DataFrame :=
  mkFrame ["product_name"; "quantity_in_stock"]
          [[CStr "A"; CStr "abc"]; [CStr "B"; CStr "-5"]].

(** Four sales of three customers and three products; customer 9 and
    product 555 are unknown to the dimension tables. *)
Definition orders : DataFrame :=
  mkFrame ["sale_id"; "customer_id"; "product_id"; "total_amount"]
          [[CNum 1; CNum 7; CNum 100; CNum 30];
           [CNum 2; CNum 8; CNum 101; CNum 60];
           [CNum 3; CNum 7; CNum 100; CNum 20];
           [CNum 4; CNum 9; CNum 555; CNum 5]].

Definition clients : DataFrame :=
  mkFrame ["customer_id"; "customer_name"]
          [[CNum 7; CStr "Ann"]; [CNum 8; CStr "Bob"]].

Definition goods : DataFrame :=
  mkFrame ["product_id"; "product_name"]
          [[CNum 100; CStr "Nut"]; [CNum 101; CStr "Bolt"]].

(** Sales without any date. *)
Definition undated_sales : DataFrame :=
  mkFrame ["sale_id"; "sale_date"; "total_amount"]
          [[CNum 1; CNaN; CNum 10]; [CNum 2; CNaN; CNum 20]].

(** A customers table with a [total_amount] column of its own. *)
Definition billed_clients : DataFrame :=
  mkFrame ["customer_id"; "total_amount"] [[CNum 7; CNum 1]].

(** A sales file whose headers carry a tab, a space and a no-break space
    (U+00A0). *)
Definition padded_sales : DataFrame :=
  mkFrame [String (ascii_of_nat 9) "sale_id ";
           String (ascii_of_nat 160) "total_amount"]
          [[CNum 1; CStr "7"]].

(** A customers table whose ids are texts, with a [total_amount] column. *)
Definition coded_billed_clients : DataFrame :=
  mkFrame ["customer_id"; "total_amount"] [[CStr "C7"; CNum 1]].

(** A customers table whose ids are texts. *)
Definition coded_clients : DataFrame :=
  mkFrame ["customer_id"; "customer_name"]
          [[CStr "C7"; CStr "Ann"]; [CStr "C8"; CStr "Bob"]].

(** Products with a category, one without, one category twice. *)
Definition catalog : DataFrame :=
  mkFrame ["product_id"; "category"]
          [[CNum 1; CStr "Tools"]; [CNum 2; CNaN];
           [CNum 3; CStr "Toys"]; [CNum 4; CStr "Tools"]].

(** The trend table of [march_sales]. *)
Definition march_trend : DataFrame :=
  mkFrame ["sale_month"; "total_amount"; "ma3"]
          [[CDate (mkTimestamp 2024 1 1 0); CNum 100; CNum 100];
           [CDate (mkTimestamp 2024 2 1 0); CNum 200; CNum (300 # 2)];
           [CDate (mkTimestamp 2024 3 1 0); CNum 300; CNum (600 # 3)];
           [CDate (mkTimestamp 2024 4 1 0); CNum 400; CNum (900 # 3)]].

(* ================================================================== *)
(** * Properties *)

(** ** Results and lists *)

Lemma mapM_ok_map {A B : Type} (f : A -> result B) (g : A -> B) (l : list A) :
  (forall a, In a l -> f a = Ok (g a)) -> mapM f l = Ok (map g l).
Proof.
  induction l as [|a t IH]; intros H; simpl.
  - reflexivity.
  - rewrite (H a (or_introl eq_refl)). simpl.
    rewrite IH by (intros; apply H; now right). reflexivity.
Qed.

Lemma keep_where_map {A : Type} (p : A -> bool) (l : list A) :
  keep_where (map p l) l = filter p l.
Proof.
  induction l as [|a t IH]; simpl; [reflexivity|].
  destruct (p a); now rewrite IH.
Qed.

(** ** Cells of a row *)

Lemma cell_at_set_at_same i v r : cell_at i (set_at i v r) = v.
Proof.
  unfold cell_at. revert r.
  induction i as [|i IH]; intros [|x t]; simpl; auto; apply IH.
Qed.

Lemma cell_at_set_at_other i j v r :
  i <> j -> cell_at j (set_at i v r) = cell_at j r.
Proof.
  unfold cell_at. revert j r.
  induction i as [|i IH]; intros [|j] [|x t] H; simpl; try congruence; auto.
  - now destruct j.
  - rewrite IH by congruence. now destruct j.
Qed.

Lemma length_set_at i v r : (i < length (set_at i v r))%nat.
Proof.
  revert r. induction i as [|i IH]; intros [|x t]; simpl; try lia.
  - specialize (IH []). lia.
  - specialize (IH t). lia.
Qed.

Lemma length_set_at_ge i v r : (length r <= length (set_at i v r))%nat.
Proof.
  revert r. induction i as [|i IH]; intros [|x t]; simpl; try lia.
  specialize (IH t). lia.
Qed.

Lemma set_at_same i r : (i < length r)%nat -> set_at i (cell_at i r) r = r.
Proof.
  unfold cell_at. revert r.
  induction i as [|i IH]; intros [|x t] H; simpl in *; try lia; auto.
  f_equal. apply IH. lia.
Qed.

Lemma write_column_map i (g : list cell -> cell) rs :
  write_column i (map g rs) rs = map (fun r => set_at i (g r) r) rs.
Proof. induction rs as [|r t IH]; simpl; [reflexivity|]. now rewrite IH. Qed.

(** ** Column labels *)

Lemma positions_spec name cols n i :
  In i (positions name cols n) <->
  (n <= i)%nat /\ nth_error cols (i - n) = Some name.
Proof.
  revert n. induction cols as [|c t IH]; intros n; simpl.
  - split; [contradiction|]. intros [_ H]. now destruct (i - n)%nat.
  - destruct (String.eqb_spec c name) as [->|Hne]; simpl; rewrite IH.
    + split.
      * intros [<-|[H1 H2]].
        -- split; [lia|]. now rewrite Nat.sub_diag.
        -- split; [lia|]. replace (i - n)%nat with (S (i - S n)) by lia. exact H2.
      * intros [H1 H2]. destruct (Nat.eq_dec n i) as [->|Hni]; [now left|].
        right. split; [lia|].
        replace (i - n)%nat with (S (i - S n)) in H2 by lia. exact H2.
    + split.
      * intros [H1 H2]. split; [lia|].
        replace (i - n)%nat with (S (i - S n)) by lia. exact H2.
      * intros [H1 H2]. destruct (Nat.eq_dec n i) as [->|Hni].
        -- rewrite Nat.sub_diag in H2. simpl in H2. congruence.
        -- split; [lia|].
           replace (i - n)%nat with (S (i - S n)) in H2 by lia. exact H2.
Qed.

Lemma locate_label name df i :
  locate name df = Ok i -> nth_error (columns df) i = Some name.
Proof.
  unfold locate. intros H.
  destruct (positions name (columns df) 0) as [|j [|? ?]] eqn:E; try discriminate.
  injection H as ->.
  assert (Hin : In i (positions name (columns df) 0)) by (rewrite E; now left).
  apply positions_spec in Hin. destruct Hin as [_ Hin].
  now rewrite Nat.sub_0_r in Hin.
Qed.

Lemma locate_distinct n1 n2 df i1 i2 :
  locate n1 df = Ok i1 -> locate n2 df = Ok i2 -> n1 <> n2 -> i1 <> i2.
Proof.
  intros H1 H2 Hne ->. apply locate_label in H1, H2. congruence.
Qed.

Lemma has_column_positions name df :
  has_column name df = false <-> positions name (columns df) 0 = [].
Proof.
  unfold has_column. generalize 0%nat. induction (columns df) as [|c t IH]; intros n; simpl.
  - tauto.
  - rewrite String.eqb_sym. destruct (String.eqb c name); simpl.
    + split; discriminate.
    + apply IH.
Qed.

Lemma has_column_locate name df :
  has_column name df = false <-> locate name df = Err (KeyError name).
Proof.
  rewrite has_column_positions. unfold locate.
  destruct (positions name (columns df) 0) as [|j [|? ?]]; split; congruence.
Qed.

Lemma locate_columns name df df' :
  columns df' = columns df -> locate name df' = locate name df.
Proof. unfold locate. now intros ->. Qed.

Lemma getitem_locate df name i :
  locate name df = Ok i -> getitem df name = Ok (map (cell_at i) (rows df)).
Proof. unfold getitem. now intros ->. Qed.

(** ** [strip] is idempotent *)

Lemma rstrip_head a s :
  is_space a = false -> exists r, rstrip (String a s) = String a r.
Proof.
  intros H. simpl. destruct (rstrip s); [rewrite H|]; eauto.
Qed.

Lemma lstrip_head s :
  lstrip s = EmptyString \/ exists a r, lstrip s = String a r /\ is_space a = false.
Proof.
  induction s as [|a s IH]; simpl; [now left|].
  destruct (is_space a) eqn:E; [exact IH|]. right. eauto.
Qed.

Lemma rstrip_cons a s :
  rstrip (String a s) =
  match rstrip s with
  | EmptyString => if is_space a then EmptyString else String a EmptyString
  | r => String a r
  end.
Proof. reflexivity. Qed.

Lemma rstrip_idem s : rstrip (rstrip s) = rstrip s.
Proof.
  induction s as [|a s IH]; [reflexivity|].
  rewrite rstrip_cons. destruct (rstrip s) as [|b r] eqn:E.
  - destruct (is_space a) eqn:Ea; [reflexivity|].
    rewrite rstrip_cons. simpl. now rewrite Ea.
  - rewrite rstrip_cons, IH. reflexivity.
Qed.

Lemma strip_idem s : strip (strip s) = strip s.
Proof.
  unfold strip. destruct (lstrip_head s) as [->|(a & r & -> & Ha)].
  - reflexivity.
  - destruct (rstrip_head a r Ha) as [r' E]. rewrite E.
    simpl lstrip. rewrite Ha. rewrite <- E. apply rstrip_idem.
Qed.

(** ** The normalization pass *)

Section NormalizerFacts.
Context {P : Coercions}.

Lemma coerce_cases name f df df' :
  coerce_if_present name f df = Ok df' ->
  (has_column name df = false /\ df' = df) \/
  (exists i, locate name df = Ok i /\ df' = apply_at i f df).
Proof.
  unfold coerce_if_present. destruct (has_column name df) eqn:Eh.
  - intros H. right. unfold getitem in H.
    destruct (locate name df) as [i|e] eqn:El; simpl in H; [|discriminate].
    exists i. split; [reflexivity|].
    unfold setitem in H. unfold locate in El.
    destruct (positions name (columns df) 0) as [|j [|? ?]]; try discriminate.
    injection El as ->. injection H as <-.
    unfold apply_at. f_equal. rewrite map_map.
    apply (write_column_map i (fun r => f (cell_at i r))).
  - intros H. injection H as <-. now left.
Qed.

Lemma coerce_columns name f df df' :
  coerce_if_present name f df = Ok df' -> columns df' = columns df.
Proof.
  intros H. destruct (coerce_cases _ _ _ _ H) as [[_ ->]|(i & _ & ->)]; reflexivity.
Qed.

Lemma coerce_shape name f df df' :
  coerce_if_present name f df = Ok df' -> shape0 df' = shape0 df.
Proof.
  intros H. destruct (coerce_cases _ _ _ _ H) as [[_ ->]|(i & _ & ->)];
    [reflexivity|]. unfold shape0, apply_at. simpl. apply length_map.
Qed.

Lemma coerce_getitem_same name f df df' col :
  coerce_if_present name f df = Ok df' ->
  getitem df name = Ok col -> getitem df' name = Ok (map f col).
Proof.
  intros H Hg. unfold getitem in *.
  rewrite (locate_columns name df df' (coerce_columns _ _ _ _ H)).
  destruct (locate name df) as [i|e] eqn:El; simpl in *; [|discriminate].
  injection Hg as <-.
  destruct (coerce_cases _ _ _ _ H) as [[Hh _]|(j & Hj & ->)].
  - apply has_column_locate in Hh. congruence.
  - assert (j = i) by congruence. subst j. f_equal. unfold apply_at. simpl.
    rewrite !map_map. apply map_ext. intros r. apply cell_at_set_at_same.
Qed.

Lemma coerce_getitem_other name f df df' other :
  coerce_if_present name f df = Ok df' ->
  other <> name -> getitem df' other = getitem df other.
Proof.
  intros H Hne. unfold getitem.
  rewrite (locate_columns other df df' (coerce_columns _ _ _ _ H)).
  destruct (locate other df) as [i|e] eqn:El; simpl; [|reflexivity].
  destruct (coerce_cases _ _ _ _ H) as [[_ ->]|(j & Hj & ->)]; [reflexivity|].
  f_equal. unfold apply_at. simpl. rewrite map_map. apply map_ext.
  intros r. apply cell_at_set_at_other.
  exact (locate_distinct _ _ _ _ _ Hj El (not_eq_sym Hne)).
Qed.

Lemma settled_coerce name f df :
  settled name f df -> coerce_if_present name f df = Ok df.
Proof.
  intros [Hh|(i & Hi & Hall)]; unfold coerce_if_present.
  - now rewrite Hh.
  - destruct (has_column name df) eqn:Eh; [|reflexivity].
    unfold getitem. rewrite Hi. simpl. unfold setitem.
    unfold locate in Hi.
    destruct (positions name (columns df) 0) as [|j [|? ?]]; try discriminate.
    injection Hi as ->. f_equal. destruct df as [cols rs]. simpl in *. f_equal.
    rewrite map_map.
    rewrite (write_column_map i (fun r => f (cell_at i r))).
    rewrite <- (map_id rs) at 2. apply map_ext_in. intros r Hr.
    rewrite Forall_forall in Hall. destruct (Hall r Hr) as [Hlen ->].
    now apply set_at_same.
Qed.

Lemma coerce_settles name f df df' :
  (forall c, f (f c) = f c) ->
  coerce_if_present name f df = Ok df' -> settled name f df'.
Proof.
  intros Hf H. destruct (coerce_cases _ _ _ _ H) as [[Hh ->]|(i & Hi & ->)].
  - now left.
  - right. exists i. split; [exact Hi|].
    unfold apply_at. simpl. apply Forall_forall. intros r Hr.
    apply in_map_iff in Hr. destruct Hr as (r0 & <- & _).
    split; [apply length_set_at|]. now rewrite cell_at_set_at_same.
Qed.

Lemma coerce_keeps_settled n1 f1 n2 f2 df df' :
  n1 <> n2 -> coerce_if_present n2 f2 df = Ok df' ->
  settled n1 f1 df -> settled n1 f1 df'.
Proof.
  intros Hne H Hs. destruct (coerce_cases _ _ _ _ H) as [[_ ->]|(j & Hj & ->)];
    [exact Hs|].
  destruct Hs as [Hh|(i & Hi & Hall)]; [now left|].
  right. exists i. split; [exact Hi|].
  assert (Hij : j <> i) by exact (locate_distinct _ _ _ _ _ Hj Hi (not_eq_sym Hne)).
  unfold apply_at. simpl. apply Forall_forall. intros r Hr.
  apply in_map_iff in Hr. destruct Hr as (r0 & <- & Hr0).
  rewrite Forall_forall in Hall. destruct (Hall r0 Hr0) as [Hlen Hfix].
  rewrite cell_at_set_at_other by exact Hij. split; [|exact Hfix].
  pose proof (length_set_at_ge j (f2 (cell_at j r0)) r0). lia.
Qed.

Lemma to_datetime_idem c : to_datetime (to_datetime c) = to_datetime c.
Proof.
  destruct c as [s|q|t|]; simpl; try reflexivity.
  - now destruct (datetime_of_string s).
  - now destruct (datetime_of_number q).
Qed.

Lemma numeric0_number c : exists q, numeric0 c = CNum q.
Proof.
  unfold numeric0. destruct c as [s|q|t|]; simpl; eauto.
  destruct (number_of_string s); simpl; eauto.
Qed.

Lemma numeric0_idem c : numeric0 (numeric0 c) = numeric0 c.
Proof. destruct (numeric0_number c) as [q ->]. reflexivity. Qed.

Lemma numeric0_unparseable c : to_numeric c = CNaN -> numeric0 c = CNum 0.
Proof. unfold numeric0. now intros ->. Qed.

Lemma strip_columns_fixed df cols :
  columns df = map strip cols -> strip_columns df = df.
Proof.
  intros H. destruct df as [c r]. unfold strip_columns. simpl in *. subst c.
  f_equal. rewrite map_map. apply map_ext. intros; apply strip_idem.
Qed.

End NormalizerFacts.

Section NormalizerTheorems.
Context {P : Coercions}.

Ltac bind_step H x Hx :=
  match type of H with
  | bind ?r _ = Ok _ =>
      destruct r as [x|?] eqn:Hx; simpl in H; [|discriminate H]
  end.

Lemma numeric_if_present_ok name df df' :
  numeric_if_present name df = Ok df' <-> coerce_if_present name numeric0 df = Ok df'.
Proof.
  unfold numeric_if_present.
  destruct (coerce_if_present name numeric0 df) as [x|[]]; split; congruence.
Qed.

Lemma normalize_steps customers inventory sales c' i' s' :
  normalize customers inventory sales = Ok (c', i', s') ->
  exists s1 s2 i1,
    coerce_if_present "sale_date" to_datetime (strip_columns sales) = Ok s1 /\
    coerce_if_present "join_date" to_datetime (strip_columns customers) = Ok c' /\
    coerce_if_present "total_amount" numeric0 s1 = Ok s2 /\
    coerce_if_present "quantity" numeric0 s2 = Ok s' /\
    coerce_if_present "price_per_unit" numeric0 (strip_columns inventory) = Ok i1 /\
    coerce_if_present "quantity_in_stock" numeric0 i1 = Ok i'.
Proof.
  unfold normalize. intros H.
  bind_step H s1 H1. bind_step H c1 H2. bind_step H s2 H3.
  bind_step H s3 H4. bind_step H i1 H5. bind_step H i2 H6.
  apply numeric_if_present_ok in H3, H4, H5, H6.
  injection H as <- <- <-. exists s1, s2, i1. auto 10.
Qed.

Lemma normalize_idempotent customers inventory sales c' i' s' :
  normalize customers inventory sales = Ok (c', i', s') ->
  normalize c' i' s' = Ok (c', i', s').
Proof.
  intros H.
  destruct (normalize_steps _ _ _ _ _ _ H) as (s1 & s2 & i1 & H1 & H2 & H3 & H4 & H5 & H6).
  assert (Cc : strip_columns c' = c').
  { apply strip_columns_fixed with (cols := columns customers).
    now rewrite (coerce_columns _ _ _ _ H2). }
  assert (Ci : strip_columns i' = i').
  { apply strip_columns_fixed with (cols := columns inventory).
    rewrite (coerce_columns _ _ _ _ H6). now rewrite (coerce_columns _ _ _ _ H5). }
  assert (Cs : strip_columns s' = s').
  { apply strip_columns_fixed with (cols := columns sales).
    rewrite (coerce_columns _ _ _ _ H4), (coerce_columns _ _ _ _ H3).
    now rewrite (coerce_columns _ _ _ _ H1). }
  assert (Sd : settled "sale_date" to_datetime s').
  { eapply coerce_keeps_settled; [| exact H4 |]; [discriminate|].
    eapply coerce_keeps_settled; [| exact H3 |]; [discriminate|].
    exact (coerce_settles _ _ _ _ to_datetime_idem H1). }
  assert (Sa : settled "total_amount" numeric0 s').
  { eapply coerce_keeps_settled; [| exact H4 |]; [discriminate|].
    exact (coerce_settles _ _ _ _ numeric0_idem H3). }
  assert (Sq : settled "quantity" numeric0 s')
    by exact (coerce_settles _ _ _ _ numeric0_idem H4).
  assert (Sj : settled "join_date" to_datetime c')
    by exact (coerce_settles _ _ _ _ to_datetime_idem H2).
  assert (Sp : settled "price_per_unit" numeric0 i').
  { eapply coerce_keeps_settled; [| exact H6 |]; [discriminate|].
    exact (coerce_settles _ _ _ _ numeric0_idem H5). }
  assert (Sk : settled "quantity_in_stock" numeric0 i')
    by exact (coerce_settles _ _ _ _ numeric0_idem H6).
  unfold normalize. rewrite Cc, Ci, Cs.
  rewrite (settled_coerce _ _ _ Sd). simpl.
  rewrite (settled_coerce _ _ _ Sj). simpl.
  rewrite (proj2 (numeric_if_present_ok _ _ _) (settled_coerce _ _ _ Sa)). simpl.
  rewrite (proj2 (numeric_if_present_ok _ _ _) (settled_coerce _ _ _ Sq)). simpl.
  rewrite (proj2 (numeric_if_present_ok _ _ _) (settled_coerce _ _ _ Sp)). simpl.
  rewrite (proj2 (numeric_if_present_ok _ _ _) (settled_coerce _ _ _ Sk)). reflexivity.
Qed.

(** C9.  The normalization pass of [load_data] (label stripping, then the
    date and the numeric coercions) is idempotent: run on the three frames it
    has produced, it returns the same three frames. *)
Theorem load_data_idempotent customers_csv inventory_csv sales_csv c' i' s' :
  load_data customers_csv inventory_csv sales_csv = Ok (c', i', s') ->
  load_data (Some c') (Some i') (Some s') = Ok (c', i', s').
Proof. unfold load_data. simpl. apply normalize_idempotent. Qed.

End NormalizerTheorems.

Section CoercionTheorems.
Context {P : Coercions}.

Lemma normalize_shape customers inventory sales c' i' s' :
  normalize customers inventory sales = Ok (c', i', s') ->
  shape0 c' = shape0 customers /\ shape0 i' = shape0 inventory /\
  shape0 s' = shape0 sales.
Proof.
  intros H.
  destruct (normalize_steps _ _ _ _ _ _ H) as (s1 & s2 & i1 & H1 & H2 & H3 & H4 & H5 & H6).
  apply coerce_shape in H1, H2, H3, H4, H5, H6.
  unfold strip_columns, shape0 in *. simpl in *. repeat split; congruence.
Qed.

Lemma normalize_sales_numeric customers inventory sales c' i' s' name col :
  normalize customers inventory sales = Ok (c', i', s') ->
  In name ["total_amount"; "quantity"] ->
  getitem (strip_columns sales) name = Ok col ->
  getitem s' name = Ok (map numeric0 col).
Proof.
  intros H Hn Hg.
  destruct (normalize_steps _ _ _ _ _ _ H) as (s1 & s2 & i1 & H1 & _ & H3 & H4 & _).
  destruct Hn as [<-|[<-|[]]].
  - rewrite (coerce_getitem_other _ _ _ _ "total_amount" H4) by discriminate.
    apply (coerce_getitem_same _ _ _ _ _ H3).
    now rewrite (coerce_getitem_other _ _ _ _ "total_amount" H1) by discriminate.
  - apply (coerce_getitem_same _ _ _ _ _ H4).
    rewrite (coerce_getitem_other _ _ _ _ "quantity" H3) by discriminate.
    now rewrite (coerce_getitem_other _ _ _ _ "quantity" H1) by discriminate.
Qed.

Lemma normalize_inventory_numeric customers inventory sales c' i' s' name col :
  normalize customers inventory sales = Ok (c', i', s') ->
  In name ["price_per_unit"; "quantity_in_stock"] ->
  getitem (strip_columns inventory) name = Ok col ->
  getitem i' name = Ok (map numeric0 col).
Proof.
  intros H Hn Hg.
  destruct (normalize_steps _ _ _ _ _ _ H) as (s1 & s2 & i1 & _ & _ & _ & _ & H5 & H6).
  destruct Hn as [<-|[<-|[]]].
  - rewrite (coerce_getitem_other _ _ _ _ "price_per_unit" H6) by discriminate.
    now apply (coerce_getitem_same _ _ _ _ _ H5).
  - apply (coerce_getitem_same _ _ _ _ _ H6).
    now rewrite (coerce_getitem_other _ _ _ _ "quantity_in_stock" H5) by discriminate.
Qed.

Lemma normalize_sale_date customers inventory sales c' i' s' col :
  normalize customers inventory sales = Ok (c', i', s') ->
  getitem (strip_columns sales) "sale_date" = Ok col ->
  getitem s' "sale_date" = Ok (map to_datetime col).
Proof.
  intros H Hg.
  destruct (normalize_steps _ _ _ _ _ _ H) as (s1 & s2 & i1 & H1 & _ & H3 & H4 & _).
  rewrite (coerce_getitem_other _ _ _ _ "sale_date" H4) by discriminate.
  rewrite (coerce_getitem_other _ _ _ _ "sale_date" H3) by discriminate.
  now apply (coerce_getitem_same _ _ _ _ _ H1).
Qed.

Lemma typed_column df name i (f : cell -> cell) (p : cell -> bool) col :
  getitem df name = Ok (map f col) ->
  locate name df = Ok i ->
  (forall c, p (f c) = true) ->
  Forall (fun r => p (cell_at i r) = true) (rows df).
Proof.
  intros Hg Hl Hp. rewrite (getitem_locate _ _ _ Hl) in Hg. injection Hg as Hg.
  apply Forall_forall. intros r Hr.
  assert (Hin : In (cell_at i r) (map (cell_at i) (rows df))) by now apply in_map.
  rewrite Hg in Hin. apply in_map_iff in Hin. destruct Hin as (c & <- & _). apply Hp.
Qed.

(** The sales frame [load_data] returns is typed: its [sale_date] column
    holds timestamps or missing values, its [total_amount] column numbers. *)
Lemma load_data_sales_types customers_csv inventory_csv sales_csv c' i' s' :
  load_data customers_csv inventory_csv sales_csv = Ok (c', i', s') ->
  (forall di, locate "sale_date" s' = Ok di ->
              Forall (fun r => datetime_or_missing (cell_at di r) = true) (rows s')) /\
  (forall ti, locate "total_amount" s' = Ok ti ->
              Forall (fun r => numeric (cell_at ti r) = true) (rows s')).
Proof.
  unfold load_data. intros H.
  destruct (normalize_steps _ _ _ _ _ _ H) as (s1 & s2 & i1 & H1 & _ & H3 & H4 & _).
  assert (Hc : columns s' = columns (strip_columns (read_csv_if_exists sales_csv))).
  { rewrite (coerce_columns _ _ _ _ H4), (coerce_columns _ _ _ _ H3).
    exact (coerce_columns _ _ _ _ H1). }
  split.
  - intros di Hl. pose proof Hl as Hl0. rewrite (locate_columns _ _ _ Hc) in Hl0.
    apply (typed_column s' "sale_date" di to_datetime datetime_or_missing
             (map (cell_at di) (rows (strip_columns (read_csv_if_exists sales_csv))))).
    + exact (normalize_sale_date _ _ _ _ _ _ _ H (getitem_locate _ _ _ Hl0)).
    + exact Hl.
    + intros [s|q|t|]; simpl; try reflexivity.
      * now destruct (datetime_of_string s).
      * now destruct (datetime_of_number q).
  - intros ti Hl. pose proof Hl as Hl0. rewrite (locate_columns _ _ _ Hc) in Hl0.
    apply (typed_column s' "total_amount" ti numeric0 numeric
             (map (cell_at ti) (rows (strip_columns (read_csv_if_exists sales_csv))))).
    + exact (normalize_sales_numeric _ _ _ _ _ _ "total_amount" _ H
               (or_introl eq_refl) (getitem_locate _ _ _ Hl0)).
    + exact Hl.
    + intros c. destruct (numeric0_number c) as [q ->]. reflexivity.
Qed.

End CoercionTheorems.

(** C3.  After [load_data] no frame has lost a row; each of the numeric
    columns [total_amount], [quantity], [price_per_unit] and
    [quantity_in_stock] that is present holds, row by row, the coerced value
    of the cell read from the file; every coerced value is a number, and it
    is 0 when the cell does not parse.  For the sales column
    ["10"; "abc"; "-5"] the normalized column is [10; 0; -5] and the total
    revenue is 5. *)
Theorem numeric_coercion_to_zero
  (P : Coercions) customers_csv inventory_csv sales_csv c' i' s' :
  load_data customers_csv inventory_csv sales_csv = Ok (c', i', s') ->
  (shape0 c' = shape0 (read_csv_if_exists customers_csv) /\
   shape0 i' = shape0 (read_csv_if_exists inventory_csv) /\
   shape0 s' = shape0 (read_csv_if_exists sales_csv)) /\
  (forall name col,
      In name ["total_amount"; "quantity"] ->
      getitem (strip_columns (read_csv_if_exists sales_csv)) name = Ok col ->
      getitem s' name = Ok (map numeric0 col)) /\
  (forall name col,
      In name ["price_per_unit"; "quantity_in_stock"] ->
      getitem (strip_columns (read_csv_if_exists inventory_csv)) name = Ok col ->
      getitem i' name = Ok (map numeric0 col)) /\
  (forall c, (exists q, numeric0 c = CNum q) /\
             (to_numeric c = CNaN -> numeric0 c = CNum 0)) /\
  (exists c i s,
     @load_data simple_coercions None None (Some text_amounts) = Ok (c, i, s) /\
     getitem s "total_amount" = Ok [CNum 10; CNum 0; CNum (-5)] /\
     total_sales s = Ok 5).
Proof.
  unfold load_data. intros H. split; [|split; [|split; [|split]]].
  - exact (normalize_shape _ _ _ _ _ _ H).
  - intros name col. exact (normalize_sales_numeric _ _ _ _ _ _ name col H).
  - intros name col. exact (normalize_inventory_numeric _ _ _ _ _ _ name col H).
  - intros c. split; [apply numeric0_number | apply numeric0_unparseable].
  - eexists _, _, _. split; [vm_compute; reflexivity|].
    split; vm_compute; reflexivity.
Qed.

(** ** Selecting rows and columns *)

Lemma select_rows_filter df (p : list cell -> bool) :
  select_rows df (map p (rows df)) = mkFrame (columns df) (filter p (rows df)).
Proof. unfold select_rows. now rewrite keep_where_map. Qed.

Lemma select_two_columns df a b ia ib :
  locate a df = Ok ia -> locate b df = Ok ib ->
  select_columns df [a; b] =
  Ok (mkFrame [a; b] (map (fun r => [cell_at ia r; cell_at ib r]) (rows df))).
Proof. unfold select_columns. simpl. now intros -> ->. Qed.

(** ** The quality checks *)

Lemma isin_column c ki rs :
  negb (isin (map (cell_at ki) rs) c) =
  forallb (fun k => negb (cell_eqb c (cell_at ki k))) rs.
Proof.
  unfold isin. induction rs as [|k t IH]; simpl; [reflexivity|].
  rewrite negb_orb. now rewrite IH.
Qed.

Lemma missing_orphans sales customers si ci ki :
  locate "sale_id" sales = Ok si ->
  locate "customer_id" sales = Ok ci ->
  locate "customer_id" customers = Ok ki ->
  missing sales customers =
  Ok (mkFrame ["sale_id"; "customer_id"]
              (map (fun r => [cell_at si r; cell_at ci r])
                   (orphans ci ki sales customers))).
Proof.
  intros Hs Hc Hk. unfold missing.
  rewrite (getitem_locate _ _ _ Hc), (getitem_locate _ _ _ Hk). simpl.
  rewrite map_map. rewrite select_rows_filter.
  rewrite (select_two_columns _ "sale_id" "customer_id" si ci) by assumption.
  simpl. unfold orphans. do 3 f_equal. apply filter_ext. intros r.
  apply isin_column.
Qed.

(** C6.  The orphaned-sales check reports "insufficient data" when the sales
    or the customer table is empty.  Otherwise it returns the pairs
    (sale_id, customer_id) of exactly the sales rows whose customer_id
    equals no customer_id of the customer table, in the order of the sales
    table.  With customers 1 and 2 and the single sale (9, 3) the result is
    [(9, 3)]. *)
Theorem missing_customers_spec sales customers :
  (empty sales = true \/ empty customers = true ->
   missing_customers sales customers =
   Ok (Info "Need both sales and customers data.")) /\
  (forall si ci ki,
      empty sales = false -> empty customers = false ->
      locate "sale_id" sales = Ok si ->
      locate "customer_id" sales = Ok ci ->
      locate "customer_id" customers = Ok ki ->
      exists out,
        missing_customers sales customers =
        Ok (Table (mkFrame ["sale_id"; "customer_id"]
                           (map (fun r => [cell_at si r; cell_at ci r]) out))) /\
        out = orphans ci ki sales customers /\
        (forall r, In r out <->
                   In r (rows sales) /\
                   forall k, In k (rows customers) ->
                             cell_eqb (cell_at ci r) (cell_at ki k) = false)) /\
  (missing_customers one_sale known_customers =
   Ok (Table (mkFrame ["sale_id"; "customer_id"] [[CNum 9; CNum 3]])) /\
   missing_customers one_sale empty_frame =
   Ok (Info "Need both sales and customers data.")).
Proof.
  split; [|split].
  - unfold missing_customers. intros [-> | ->]; simpl; [reflexivity|].
    now rewrite andb_false_r.
  - intros si ci ki Es Ec Hs Hc Hk. exists (orphans ci ki sales customers).
    split; [|split; [reflexivity|]].
    + unfold missing_customers. rewrite Es, Ec. simpl.
      now rewrite (missing_orphans _ _ _ _ _ Hs Hc Hk).
    + intros r. unfold orphans. rewrite filter_In, forallb_forall.
      split; intros [H1 H2]; split; auto; intros k Hin.
      * apply negb_true_iff. now apply H2.
      * apply negb_true_iff. now apply H2.
  - split; reflexivity.
Qed.

Lemma lt_scalar_mask x rs i :
  Forall (fun r => exists o, as_number (cell_at i r) = Ok o) rs ->
  exists p, mapM (lt_scalar x) (map (cell_at i) rs) = Ok (map p rs) /\
            forall r, In r rs ->
                      p r = match cell_at i r with
                            | CNum q => Qltb q x
                            | _ => false
                            end.
Proof.
  intros H. exists (fun r => match cell_at i r with CNum q => Qltb q x | _ => false end).
  split; [|reflexivity].
  rewrite <- (map_map (cell_at i)
    (fun c => match c with CNum q => Qltb q x | _ => false end)).
  apply mapM_ok_map. intros c Hc. apply in_map_iff in Hc.
  destruct Hc as (r & <- & Hr). rewrite Forall_forall in H.
  destruct (H r Hr) as [o Ho]. destruct (cell_at i r); simpl in *; try discriminate;
    reflexivity.
Qed.

Lemma neg_negatives sales si ti :
  locate "sale_id" sales = Ok si ->
  locate "total_amount" sales = Ok ti ->
  Forall (fun r => exists o, as_number (cell_at ti r) = Ok o) (rows sales) ->
  neg sales = Ok (mkFrame ["sale_id"; "total_amount"]
                          (map (fun r => [cell_at si r; cell_at ti r])
                               (negatives ti sales))).
Proof.
  intros Hs Ht Hnum. unfold neg. rewrite (getitem_locate _ _ _ Ht). simpl.
  destruct (lt_scalar_mask 0 (rows sales) ti Hnum) as (p & -> & Hp). simpl.
  rewrite select_rows_filter.
  rewrite (select_two_columns _ "sale_id" "total_amount" si ti) by assumption.
  simpl. unfold negatives. do 3 f_equal. apply filter_ext_in. exact Hp.
Qed.

(** C4.  On the sales [(1, -5); (2, 10)] the negative-amounts check shows
    [(1, -5)], and on a sales table that has its columns and no row it
    answers that no negative sale was found.  On the frame [load_data]
    produces when the sales file is absent, which has no column, the check
    raises [KeyError] on [total_amount] instead of giving that answer. *)
Theorem negative_amounts_absent_sales :
  negative_amounts refund_and_sale =
  Ok (Table (mkFrame ["sale_id"; "total_amount"] [[CNum 1; CNum (-5)]])) /\
  negative_amounts header_only_sales = Ok (Success "No negative sales found") /\
  (forall P : Coercions,
      exists c i s,
        load_data None None None = Ok (c, i, s) /\ s = empty_frame /\
        empty s = true /\
        negative_amounts s = Err (KeyError "total_amount")).
Proof.
  split; [reflexivity|]. split; [reflexivity|].
  intros P. exists empty_frame, empty_frame, empty_frame. repeat split.
Qed.

(** C7.  [load_data] leaves a sales frame without a [sale_date] column as
    it is: the coercion is applied only when the column is present.  The
    monthly trend of a non-empty sales frame without that column does not
    degrade, it raises [KeyError] on [sale_date]. *)
Theorem monthly_trend_without_sale_date (P : Coercions) sales :
  empty sales = false ->
  has_column "sale_date" sales = false ->
  coerce_if_present "sale_date" to_datetime sales = Ok sales /\
  monthly_trend sales = Err (KeyError "sale_date").
Proof.
  intros He Hh. split.
  - unfold coerce_if_present. now rewrite Hh.
  - unfold monthly_trend. rewrite He. simpl. unfold monthly, dropna_subset.
    apply has_column_locate in Hh. now rewrite Hh.
Qed.

(** ** Sorting *)

Section InsertionFacts.
Variable A : Type.
Variable leb : A -> A -> bool.

Lemma insert_before_perm a l : Permutation (a :: l) (insert_before leb a l).
Proof.
  induction l as [|b t IH]; simpl; [reflexivity|].
  destruct (leb a b); [reflexivity|].
  rewrite perm_swap. now apply perm_skip.
Qed.

Lemma insert_after_perm a l : Permutation (a :: l) (insert_after leb a l).
Proof.
  induction l as [|b t IH]; simpl; [reflexivity|].
  destruct (leb b a); [|reflexivity].
  rewrite perm_swap. now apply perm_skip.
Qed.

Lemma stable_sort_perm l : Permutation l (stable_sort leb l).
Proof.
  induction l as [|a t IH]; simpl; [reflexivity|].
  rewrite <- insert_before_perm. now apply perm_skip.
Qed.

Lemma reversing_sort_perm l : Permutation l (reversing_sort leb l).
Proof.
  induction l as [|a t IH]; simpl; [reflexivity|].
  rewrite <- insert_after_perm. now apply perm_skip.
Qed.

Hypothesis leb_total : total leb.
Hypothesis leb_trans : transitive leb.

Let le (a b : A) : Prop := leb a b = true.

Lemma insert_before_sorted a l :
  StronglySorted le l -> StronglySorted le (insert_before leb a l).
Proof.
  induction 1 as [|b t Hs IH Hb]; simpl.
  - repeat constructor.
  - destruct (leb a b) eqn:E.
    + constructor; [now constructor|]. constructor; [exact E|].
      eapply Forall_impl; [|exact Hb]. intros c Hc. exact (leb_trans _ _ _ E Hc).
    + constructor; [exact IH|].
      assert (Hba : le b a) by (destruct (leb_total a b); [congruence|assumption]).
      eapply Permutation_Forall; [apply insert_before_perm|]. now constructor.
Qed.

Lemma insert_after_sorted a l :
  StronglySorted le l -> StronglySorted le (insert_after leb a l).
Proof.
  induction 1 as [|b t Hs IH Hb]; simpl.
  - repeat constructor.
  - destruct (leb b a) eqn:E.
    + constructor; [exact IH|].
      eapply Permutation_Forall; [apply insert_after_perm|]. now constructor.
    + assert (Hab : le a b) by (destruct (leb_total a b); [assumption|congruence]).
      constructor; [now constructor|]. constructor; [exact Hab|].
      eapply Forall_impl; [|exact Hb]. intros c Hc. exact (leb_trans _ _ _ Hab Hc).
Qed.

Lemma stable_sort_sorted l : StronglySorted le (stable_sort leb l).
Proof.
  induction l as [|a t IH]; simpl; [constructor|]. now apply insert_before_sorted.
Qed.

Lemma reversing_sort_sorted l : StronglySorted le (reversing_sort leb l).
Proof.
  induction l as [|a t IH]; simpl; [constructor|]. now apply insert_after_sorted.
Qed.

End InsertionFacts.

Lemma stable_contract : SortContract stable_kind.
Proof. split; [exact stable_sort_perm | exact stable_sort_sorted]. Qed.

Lemma reversing_contract : SortContract reversing_kind.
Proof. split; [exact reversing_sort_perm | exact reversing_sort_sorted]. Qed.

(** The order of the sort keys is a total preorder. *)
Lemma key_leb_total asc : total (key_leb asc).
Proof.
  intros [x|] [y|]; simpl; auto.
  destruct (Qlt_le_dec x y) as [H|H].
  - apply Qlt_le_weak in H. apply Qle_bool_iff in H.
    destruct asc; auto.
  - apply Qle_bool_iff in H. destruct asc; auto.
Qed.

Lemma key_leb_trans asc : transitive (key_leb asc).
Proof.
  intros [x|] [y|] [z|]; simpl; try discriminate; auto.
  destruct asc; rewrite !Qle_bool_iff; intros H1 H2.
  - exact (Qle_trans _ _ _ H1 H2).
  - exact (Qle_trans _ _ _ H2 H1).
Qed.

Lemma as_number_num_key c : numeric_or_missing c = true -> as_number c = Ok (num_key c).
Proof. destruct c; simpl; congruence. Qed.

Lemma StronglySorted_map {A B : Type} (R : A -> A -> Prop) (R' : B -> B -> Prop)
      (Q : A -> Prop) (f : A -> B) (l : list A) :
  (forall a b, Q a -> Q b -> R a b -> R' (f a) (f b)) ->
  Forall Q l -> StronglySorted R l -> StronglySorted R' (map f l).
Proof.
  intros HR HQ Hs. induction Hs as [|a t Hs IH Ha]; simpl; [constructor|].
  inversion HQ as [|? ? Qa Qt]; subst. constructor; [auto|].
  apply Forall_map. rewrite Forall_forall in *. intros b Hb. apply HR; auto.
Qed.

Lemma combine_map_self {A B : Type} (f : A -> B) (l : list A) :
  combine (map f l) l = map (fun a => (f a, a)) l.
Proof. induction l as [|a t IH]; simpl; [reflexivity|]. now rewrite IH. Qed.

Section SortFacts.
Context {S : SortKind} {C : SortContract S}.

Lemma sort_values_spec df label i asc :
  locate label df = Ok i ->
  Forall (fun r => numeric_or_missing (cell_at i r) = true) (rows df) ->
  exists out,
    sort_values df label asc = Ok (mkFrame (columns df) out) /\
    Permutation (rows df) out /\
    StronglySorted (row_le i asc) out.
Proof.
  intros Hl Hnum. unfold sort_values. rewrite Hl. simpl.
  rewrite (mapM_ok_map _ num_key).
  2:{ intros c Hc. apply in_map_iff in Hc. destruct Hc as (r & <- & Hr).
      rewrite Forall_forall in Hnum. apply as_number_num_key. auto. }
  simpl.
  set (keyed := combine (map num_key (map (cell_at i) (rows df))) (rows df)).
  assert (Ek : keyed = map (fun r => (num_key (cell_at i r), r)) (rows df)).
  { unfold keyed. rewrite map_map. apply combine_map_self. }
  set (leb := fun a b : option Q * list cell => key_leb asc (fst a) (fst b)).
  exists (map snd (sort_by leb keyed)). split; [reflexivity|]. split.
  - rewrite <- (sort_by_perm _ leb keyed). rewrite Ek, map_map. simpl.
    now rewrite map_id.
  - apply StronglySorted_map with
      (R := fun a b => leb a b = true)
      (Q := fun p => fst p = num_key (cell_at i (snd p))).
    + intros a b Ha Hb. unfold leb, row_le. now rewrite Ha, Hb.
    + eapply Permutation_Forall; [apply sort_by_perm|].
      rewrite Ek. apply Forall_map. apply Forall_forall. reflexivity.
    + apply sort_by_sorted.
      * intros a b. apply key_leb_total.
      * intros a b c. apply key_leb_trans.
Qed.

End SortFacts.

(** ** Low stock *)

Lemma Qltb_lt x y : Qltb x y = true <-> x < y.
Proof.
  unfold Qltb. rewrite negb_true_iff. split.
  - intros H. apply Qnot_le_lt. intros Hle. apply Qle_bool_iff in Hle. congruence.
  - intros H. destruct (Qle_bool y x) eqn:E; [|reflexivity].
    apply Qle_bool_iff in E. exfalso. exact (Qlt_not_le _ _ H E).
Qed.

Lemma below_spec i thr r :
  below i thr r = true <-> exists q, cell_at i r = CNum q /\ q < thr.
Proof.
  unfold below. destruct (cell_at i r) as [s|q|t|]; split;
    try discriminate; try (intros (q' & H & _); discriminate).
  - intros H. exists q. split; [reflexivity|]. now apply Qltb_lt.
  - intros (q' & H & Hlt). injection H as <-. now apply Qltb_lt.
Qed.

Lemma StronglySorted_impl_in {A : Type} (R R' : A -> A -> Prop) (l : list A) :
  (forall a b, In a l -> In b l -> R a b -> R' a b) ->
  StronglySorted R l -> StronglySorted R' l.
Proof.
  intros H Hs. induction Hs as [|a t Hs IH Ha]; [constructor|].
  constructor.
  - apply IH. intros x y Hx Hy. apply H; now right.
  - rewrite Forall_forall in *. intros b Hb. apply H; [now left|now right|auto].
Qed.

Lemma StronglySorted_before {A : Type} (R : A -> A -> Prop) (l1 l2 : list A) (x : A) :
  StronglySorted R (l1 ++ x :: l2) -> Forall (fun y => R y x) l1.
Proof.
  induction l1 as [|a t IH]; simpl; intros H; [constructor|].
  inversion H as [|? ? Hs Ha]; subst. constructor; [|auto].
  rewrite Forall_forall in Ha. apply Ha. apply in_or_app. right. now left.
Qed.

Section LowStock.
Context {S : SortKind} {C : SortContract S}.

Lemma low_stock_below_spec thr inventory i :
  locate "quantity_in_stock" inventory = Ok i ->
  Forall (fun r => numeric_or_missing (cell_at i r) = true) (rows inventory) ->
  exists out,
    low_stock_below thr inventory = Ok (mkFrame (columns inventory) out) /\
    Permutation (filter (below i thr) (rows inventory)) out /\
    (forall r, In r out <->
               In r (rows inventory) /\ exists q, cell_at i r = CNum q /\ q < thr) /\
    StronglySorted (fun r1 r2 => quantity i r1 <= quantity i r2) out.
Proof.
  intros Hl Hnum. unfold low_stock_below.
  rewrite (getitem_locate _ _ _ Hl). simpl.
  destruct (lt_scalar_mask thr (rows inventory) i) as (p & -> & Hp).
  { eapply Forall_impl; [|exact Hnum]. intros r Hr. simpl in Hr.
    rewrite (as_number_num_key _ Hr). eauto. }
  simpl. rewrite select_rows_filter.
  assert (Ef : filter p (rows inventory) = filter (below i thr) (rows inventory))
    by (apply filter_ext_in; exact Hp).
  rewrite Ef.
  set (low := mkFrame (columns inventory) (filter (below i thr) (rows inventory))).
  destruct (sort_values_spec low "quantity_in_stock" i true) as (out & Hsv & Hperm & Hsorted).
  { exact Hl. }
  { apply Forall_forall. intros r Hr. simpl in Hr. apply filter_In in Hr.
    rewrite Forall_forall in Hnum. now apply Hnum. }
  exists out. split; [exact Hsv|]. split; [exact Hperm|].
  assert (Hin : forall r, In r out <->
                In r (rows inventory) /\ exists q, cell_at i r = CNum q /\ q < thr).
  { intros r. rewrite <- below_spec, <- filter_In. split; intros H.
    - eapply Permutation_in; [symmetry; exact Hperm|exact H].
    - eapply Permutation_in; [exact Hperm|exact H]. }
  split; [exact Hin|].
  eapply StronglySorted_impl_in; [|exact Hsorted].
  intros a b Ha Hb. apply Hin in Ha, Hb.
  destruct Ha as (_ & qa & Ea & _). destruct Hb as (_ & qb & Eb & _).
  unfold row_le, quantity. rewrite Ea, Eb. simpl. now rewrite Qle_bool_iff.
Qed.

End LowStock.

(** C8, as amended.  On a non-empty inventory table whose
    [quantity_in_stock] column is numeric, the low-stock section shows exactly
    the rows whose quantity is strictly below the threshold (100 in the
    program), in ascending order of quantity; for the quantities
    [50; 150; 99; 100] these are the rows with 50 and 99.  On an empty
    inventory table no error is raised: the filter is skipped and the
    notice "Inventory data missing." is shown in place of a table. *)
Theorem low_stock_products_spec (S : SortKind) (C : SortContract S) inventory :
  (empty inventory = true ->
   low_stock_products inventory = Ok (Info "Inventory data missing.")) /\
  (forall i,
      empty inventory = false ->
      locate "quantity_in_stock" inventory = Ok i ->
      Forall (fun r => numeric_or_missing (cell_at i r) = true) (rows inventory) ->
      exists out,
        low_stock_products inventory = Ok (Table (mkFrame (columns inventory) out)) /\
        low_stock_below 100 inventory = Ok (mkFrame (columns inventory) out) /\
        Permutation (filter (below i 100) (rows inventory)) out /\
        (forall r, In r out <->
                   In r (rows inventory) /\
                   exists q, cell_at i r = CNum q /\ q < 100) /\
        StronglySorted (fun r1 r2 => quantity i r1 <= quantity i r2) out) /\
  low_stock_products shelf =
  Ok (Table (mkFrame ["product_id"; "quantity_in_stock"]
                     [[CNum 1; CNum 50]; [CNum 3; CNum 99]])).
Proof.
  assert (General : forall inv i,
      empty inv = false ->
      locate "quantity_in_stock" inv = Ok i ->
      Forall (fun r => numeric_or_missing (cell_at i r) = true) (rows inv) ->
      exists out,
        low_stock_products inv = Ok (Table (mkFrame (columns inv) out)) /\
        low_stock_below 100 inv = Ok (mkFrame (columns inv) out) /\
        Permutation (filter (below i 100) (rows inv)) out /\
        (forall r, In r out <->
                   In r (rows inv) /\ exists q, cell_at i r = CNum q /\ q < 100) /\
        StronglySorted (fun r1 r2 => quantity i r1 <= quantity i r2) out).
  { intros inv i He Hl Hnum.
    destruct (low_stock_below_spec 100 inv i Hl Hnum) as (out & H1 & H2 & H3 & H4).
    exists out. repeat split; try assumption; try (now apply H3).
    unfold low_stock_products, low_stock. rewrite He. simpl. now rewrite H1. }
  split; [|split].
  - unfold low_stock_products. now intros ->.
  - apply General.
  - destruct (General shelf 1%nat) as (out & H1 & _ & H2 & _ & H4); try reflexivity.
    { repeat constructor. }
    rewrite H1. do 3 f_equal.
    change (Permutation [[CNum 1; CNum 50]; [CNum 3; CNum 99]] out) in H2.
    apply Permutation_length_2_inv in H2. destruct H2 as [->| ->]; [reflexivity|].
    exfalso. inversion H4 as [|? ? _ Hf]; subst.
    inversion Hf as [|? ? Hle _]; subst. vm_compute in Hle. now apply Hle.
Qed.

(** The claim C8 as written fails on the empty table: what the section
    yields there is the notice, not a table without rows, which is what a
    non-empty inventory with nothing below the threshold yields. *)
Lemma low_stock_products_empty_is_no_table :
  (~ exists out, @low_stock_products stable_kind empty_frame = Ok (Table out)) /\
  @low_stock_products stable_kind empty_frame = Ok (Info "Inventory data missing.") /\
  @low_stock_products stable_kind full_shelf =
  Ok (Table (mkFrame ["product_id"; "quantity_in_stock"] [])).
Proof.
  split; [|split; reflexivity]. intros [out H]. discriminate H.
Qed.

Section UnparseableStock.
Context {P : Coercions} {S : SortKind} {C : SortContract S}.

Lemma normalized_stock_column customers inventory sales c' i' s' i :
  normalize customers inventory sales = Ok (c', i', s') ->
  locate "quantity_in_stock" (strip_columns inventory) = Ok i ->
  locate "quantity_in_stock" i' = Ok i /\
  map (cell_at i) (rows i') = map numeric0 (map (cell_at i) (rows inventory)).
Proof.
  intros H Hl.
  pose proof (normalize_inventory_numeric _ _ _ _ _ _ "quantity_in_stock" _ H
                (or_intror (or_introl eq_refl)) (getitem_locate _ _ _ Hl)) as Hg.
  destruct (normalize_steps _ _ _ _ _ _ H) as (s1 & s2 & i1 & _ & _ & _ & _ & H5 & H6).
  assert (Hc : columns i' = columns (strip_columns inventory)).
  { rewrite (coerce_columns _ _ _ _ H6). exact (coerce_columns _ _ _ _ H5). }
  assert (Hl' : locate "quantity_in_stock" i' = Ok i)
    by (rewrite (locate_columns _ _ _ Hc); exact Hl).
  split; [exact Hl'|].
  rewrite (getitem_locate _ _ _ Hl') in Hg. now injection Hg.
Qed.

(** C10, as amended.  A row of the inventory file whose
    [quantity_in_stock] does not parse as a number has quantity 0 after
    [load_data]; for every positive threshold it is one of the low-stock
    rows; only rows of quantity at most 0 are placed before it, and when no
    row has a negative quantity it has the least quantity of the output. *)
Theorem unparseable_stock_is_low_stock
  customers_csv inventory_csv sales_csv c' i' s' i n raw thr :
  load_data customers_csv inventory_csv sales_csv = Ok (c', i', s') ->
  locate "quantity_in_stock" (strip_columns (read_csv_if_exists inventory_csv)) = Ok i ->
  nth_error (rows (read_csv_if_exists inventory_csv)) n = Some raw ->
  to_numeric (cell_at i raw) = CNaN ->
  0 < thr ->
  exists row out,
    nth_error (rows i') n = Some row /\
    cell_at i row = CNum 0 /\
    low_stock_below thr i' = Ok (mkFrame (columns i') out) /\
    In row out /\
    (forall before after,
        out = before ++ row :: after ->
        Forall (fun r => quantity i r <= 0) before) /\
    ((forall r, In r (rows i') -> 0 <= quantity i r) ->
     Forall (fun r => quantity i row <= quantity i r) out).
Proof.
  unfold load_data. intros H Hl Hn Hraw Hthr.
  destruct (normalized_stock_column _ _ _ _ _ _ i H Hl) as [Hl' Hcol].
  destruct (normalize_shape _ _ _ _ _ _ H) as (_ & Hshape & _).
  assert (Hlt : (n < length (rows i'))%nat).
  { unfold shape0 in Hshape. rewrite Hshape. apply nth_error_Some. congruence. }
  destruct (nth_error (rows i') n) as [row|] eqn:Hrow;
    [|apply nth_error_None in Hrow; lia].
  assert (Hcell : cell_at i row = CNum 0).
  { pose proof (map_nth_error (cell_at i) _ _ Hrow) as E1.
    rewrite Hcol in E1. rewrite map_map in E1.
    rewrite (map_nth_error (fun r => numeric0 (cell_at i r)) _ _ Hn) in E1.
    injection E1 as E1. rewrite <- E1. now apply numeric0_unparseable. }
  assert (Hnum : Forall (fun r => numeric_or_missing (cell_at i r) = true) (rows i')).
  { apply Forall_forall. intros r Hr.
    assert (Hin : In (cell_at i r) (map (cell_at i) (rows i'))) by now apply in_map.
    rewrite Hcol in Hin. apply in_map_iff in Hin. destruct Hin as (c & Hc & _).
    destruct (numeric0_number c) as [q Hq]. rewrite <- Hc, Hq. reflexivity. }
  destruct (low_stock_below_spec thr i' i Hl' Hnum) as (out & Ho & _ & Hin & Hsorted).
  assert (Hq : quantity i row == 0) by (unfold quantity; now rewrite Hcell).
  exists row, out. split; [reflexivity|]. split; [exact Hcell|].
  split; [exact Ho|]. split; [|split].
  - apply Hin. split; [eapply nth_error_In; exact Hrow|]. exists 0. now split.
  - intros before after ->. apply StronglySorted_before in Hsorted.
    eapply Forall_impl; [|exact Hsorted]. intros r Hr. simpl in Hr. now rewrite <- Hq.
  - intros Hpos. apply Forall_forall. intros r Hr. rewrite Hq.
    apply Hpos. now apply Hin.
Qed.

End UnparseableStock.

(** The claim C10 as written fails when a quantity is negative: the row of
    product B, in stock for -5, comes before the unparseable row of
    product A. *)
Lemma unparseable_stock_not_in_front :
  exists c i s,
    @load_data simple_coercions None (Some returns_room) None = Ok (c, i, s) /\
    @low_stock stable_kind i =
    Ok (mkFrame ["product_name"; "quantity_in_stock"]
                [[CStr "B"; CNum (-5)]; [CStr "A"; CNum 0]]) /\
    ~ quantity 1 [CStr "A"; CNum 0] <= quantity 1 [CStr "B"; CNum (-5)].
Proof.
  eexists _, _, _. split; [vm_compute; reflexivity|].
  split; [vm_compute; reflexivity|].
  vm_compute. intros H. now apply H.
Qed.

(** ** Orders on keys *)

Lemma cmp_eq_compat_r {A : Type} (cmp : A -> A -> comparison) :
  order_laws cmp -> forall a b c, cmp a b = Eq -> cmp c a = cmp c b.
Proof.
  intros L a b c H. rewrite (cmp_antisym cmp L a c), (cmp_antisym cmp L b c).
  f_equal. now apply (cmp_eq_compat cmp L).
Qed.

Lemma Z_order : order_laws Z.compare.
Proof.
  split.
  - apply Z.compare_refl.
  - intros a b. apply Z.compare_antisym.
  - intros a b c H. apply Z.compare_eq in H. now subst.
  - intros a b c. rewrite !Z.compare_lt_iff. lia.
Qed.

Lemma N_order : order_laws N.compare.
Proof.
  split.
  - apply N.compare_refl.
  - intros a b. apply N.compare_antisym.
  - intros a b c H. apply N.compare_eq in H. now subst.
  - intros a b c. rewrite !N.compare_lt_iff. lia.
Qed.

Lemma Q_order : order_laws Qcompare.
Proof.
  split.
  - intros a. apply Qeq_alt. reflexivity.
  - intros a b. symmetry. apply Qcompare_antisym.
  - intros a b c H. apply Qeq_alt in H. now rewrite H.
  - intros a b c. rewrite <- !Qlt_alt. apply Qlt_trans.
Qed.

Lemma lex_order {X A : Type} (f : X -> A) (g : X -> X -> comparison)
      (cmpA : A -> A -> comparison) :
  order_laws cmpA -> order_laws g ->
  order_laws (fun x y => lex (cmpA (f x) (f y)) (g x y)).
Proof.
  intros LA LB. split.
  - intros a. now rewrite (cmp_refl _ LA), (cmp_refl _ LB).
  - intros a b. rewrite (cmp_antisym _ LA (f a) (f b)), (cmp_antisym _ LB a b).
    now destruct (cmpA (f a) (f b)).
  - intros a b c H.
    destruct (cmpA (f a) (f b)) eqn:E; simpl in H; try discriminate.
    rewrite (cmp_eq_compat _ LA _ _ (f c) E), (cmp_eq_compat _ LB _ _ c H).
    reflexivity.
  - intros a b c H1 H2.
    destruct (cmpA (f a) (f b)) eqn:E1; simpl in H1; try discriminate;
      destruct (cmpA (f b) (f c)) eqn:E2; simpl in H2; try discriminate.
    + rewrite (cmp_eq_compat _ LA _ _ (f c) E1), E2. simpl.
      exact (cmp_lt_trans _ LB _ _ _ H1 H2).
    + now rewrite (cmp_eq_compat _ LA _ _ (f c) E1), E2.
    + now rewrite <- (cmp_eq_compat_r _ LA _ _ (f a) E2), E1.
    + now rewrite (cmp_lt_trans _ LA _ _ _ E1 E2).
Qed.

Lemma ts_order : order_laws ts_compare.
Proof.
  unfold ts_compare.
  apply (lex_order ts_year _ Z.compare Z_order).
  apply (lex_order ts_month _ Z.compare Z_order).
  apply (lex_order ts_day _ Z.compare Z_order).
  split; intros.
  - apply Z.compare_refl.
  - apply Z.compare_antisym.
  - now apply (cmp_eq_compat _ Z_order).
  - eapply (cmp_lt_trans _ Z_order); eassumption.
Qed.

Lemma ts_compare_eq a b : ts_compare a b = Eq <-> a = b.
Proof.
  split; [|intros ->; apply (cmp_refl _ ts_order)].
  destruct a as [y1 m1 d1 n1], b as [y2 m2 d2 n2]. unfold ts_compare. simpl.
  destruct (Z.compare_spec y1 y2) as [->| |]; simpl; try discriminate.
  destruct (Z.compare_spec m1 m2) as [->| |]; simpl; try discriminate.
  destruct (Z.compare_spec d1 d2) as [->| |]; simpl; try discriminate.
  intros Hn. apply Z.compare_eq in Hn. now subst.
Qed.

Lemma string_compare_cons a s b t :
  String.compare (String a s) (String b t) =
  lex (Ascii.compare a b) (String.compare s t).
Proof. simpl. now destruct (Ascii.compare a b). Qed.

Lemma ascii_order : order_laws Ascii.compare.
Proof.
  unfold Ascii.compare. split; intros.
  - apply N.compare_refl.
  - apply N.compare_antisym.
  - now apply (cmp_eq_compat _ N_order).
  - eapply (cmp_lt_trans _ N_order); eassumption.
Qed.

Lemma string_order : order_laws String.compare.
Proof.
  split.
  - induction a as [|a s IH]; [reflexivity|].
    now rewrite string_compare_cons, (cmp_refl _ ascii_order), IH.
  - intros a b. apply String.compare_antisym.
  - induction a as [|a s IH]; intros [|b t] [|c u] H; try discriminate; try reflexivity.
    rewrite string_compare_cons in H. rewrite !string_compare_cons.
    destruct (Ascii.compare a b) eqn:E; simpl in H; try discriminate.
    now rewrite (cmp_eq_compat _ ascii_order _ _ c E), (IH t u H).
  - induction a as [|a s IH]; intros [|b t] [|c u] H1 H2; try discriminate; try reflexivity.
    rewrite string_compare_cons in *.
    destruct (Ascii.compare a b) eqn:E1; simpl in H1; try discriminate;
      destruct (Ascii.compare b c) eqn:E2; simpl in H2; try discriminate.
    + rewrite (cmp_eq_compat _ ascii_order _ _ c E1), E2. simpl. eauto.
    + now rewrite (cmp_eq_compat _ ascii_order _ _ c E1), E2.
    + now rewrite <- (cmp_eq_compat_r _ ascii_order _ _ a E2), E1.
    + now rewrite (cmp_lt_trans _ ascii_order _ _ _ E1 E2).
Qed.

Lemma cell_order : order_laws cell_compare.
Proof.
  split.
  - intros [s|q|t|]; simpl.
    + apply (cmp_refl _ string_order).
    + apply (cmp_refl _ Q_order).
    + apply (cmp_refl _ ts_order).
    + reflexivity.
  - intros [s|q|t|] [s'|q'|t'|]; simpl; try reflexivity.
    + apply (cmp_antisym _ string_order).
    + apply (cmp_antisym _ Q_order).
    + apply (cmp_antisym _ ts_order).
  - intros [s|q|t|] [s'|q'|t'|] [s''|q''|t''|]; simpl; try discriminate;
      try reflexivity.
    + apply (cmp_eq_compat _ string_order).
    + apply (cmp_eq_compat _ Q_order).
    + apply (cmp_eq_compat _ ts_order).
  - intros [s|q|t|] [s'|q'|t'|] [s''|q''|t''|]; simpl; try discriminate;
      try reflexivity.
    + apply (cmp_lt_trans _ string_order).
    + apply (cmp_lt_trans _ Q_order).
    + apply (cmp_lt_trans _ ts_order).
Qed.

Lemma cell_eqb_compare a b : cell_eqb a b = true <-> cell_compare a b = Eq.
Proof. unfold cell_eqb. destruct (cell_compare a b); split; congruence. Qed.

Lemma cell_eqb_refl a : cell_eqb a a = true.
Proof. apply cell_eqb_compare, (cmp_refl _ cell_order). Qed.

Lemma cell_eqb_date t k : cell_eqb (CDate t) k = true <-> k = CDate t.
Proof.
  rewrite cell_eqb_compare. destruct k as [s|q|t'|]; simpl; split;
    try discriminate.
  - intros H. apply ts_compare_eq in H. now subst.
  - intros H. injection H as ->. now apply ts_compare_eq.
Qed.

(** ** Group keys *)

Lemma insert_key_in k ks x : In x (insert_key k ks) -> x = k \/ In x ks.
Proof.
  induction ks as [|k' t IH]; simpl.
  - intros [<-|[]]. now left.
  - destruct (cell_compare k k'); simpl.
    + auto.
    + intros [<-|H]; auto.
    + intros [<-|H]; auto. destruct (IH H); auto.
Qed.

Lemma insert_key_keeps k ks x : In x ks -> In x (insert_key k ks).
Proof.
  induction ks as [|k' t IH]; simpl; [contradiction|].
  destruct (cell_compare k k'); simpl; intros [<-|H]; auto.
Qed.

Lemma insert_key_covers k ks : exists x, In x (insert_key k ks) /\ same_key k x.
Proof.
  induction ks as [|k' t IH]; simpl.
  - exists k. split; [now left|apply cell_eqb_refl].
  - destruct (cell_compare k k') eqn:E.
    + exists k'. split; [now left|]. now apply cell_eqb_compare.
    + exists k. split; [now left|apply cell_eqb_refl].
    + destruct IH as (x & Hx & Hk). exists x. split; [now right|exact Hk].
Qed.

Lemma insert_key_sorted k ks :
  StronglySorted key_lt ks -> StronglySorted key_lt (insert_key k ks).
Proof.
  induction 1 as [|k' t Hs IH Hk']; simpl.
  - repeat constructor.
  - destruct (cell_compare k k') eqn:E.
    + now constructor.
    + constructor; [now constructor|]. constructor; [exact E|].
      eapply Forall_impl; [|exact Hk']. intros x Hx.
      exact (cmp_lt_trans _ cell_order _ _ _ E Hx).
    + constructor; [exact IH|]. apply Forall_forall. intros x Hx.
      destruct (insert_key_in _ _ _ Hx) as [->|Hin].
      * unfold key_lt. rewrite (cmp_antisym _ cell_order k k'), E. reflexivity.
      * rewrite Forall_forall in Hk'. now apply Hk'.
Qed.

Lemma fold_keys_sorted l acc :
  StronglySorted key_lt acc ->
  StronglySorted key_lt (fold_left (fun acc k => insert_key k acc) l acc).
Proof.
  revert acc. induction l as [|k t IH]; simpl; intros acc H; [exact H|].
  apply IH. now apply insert_key_sorted.
Qed.

Lemma fold_keys_in l acc x :
  In x (fold_left (fun acc k => insert_key k acc) l acc) -> In x l \/ In x acc.
Proof.
  revert acc. induction l as [|k t IH]; simpl; intros acc H; [now right|].
  destruct (IH _ H) as [H1|H1]; [now left; right|].
  destruct (insert_key_in _ _ _ H1) as [->|H2]; auto.
Qed.

Lemma fold_keys_keeps l acc x :
  In x acc -> In x (fold_left (fun acc k => insert_key k acc) l acc).
Proof.
  revert acc. induction l as [|k t IH]; simpl; intros acc H; [exact H|].
  apply IH. now apply insert_key_keeps.
Qed.

Lemma fold_keys_covers l acc k :
  In k l ->
  exists x, In x (fold_left (fun acc k => insert_key k acc) l acc) /\ same_key k x.
Proof.
  revert acc. induction l as [|k' t IH]; simpl; intros acc H; [contradiction|].
  destruct H as [->|H]; [|now apply IH].
  destruct (insert_key_covers k acc) as (x & Hx & Hk).
  exists x. split; [now apply fold_keys_keeps|exact Hk].
Qed.

Lemma group_keys_sorted l : StronglySorted key_lt (group_keys l).
Proof. apply fold_keys_sorted. constructor. Qed.

Lemma group_keys_in l x : In x (group_keys l) -> In x l.
Proof. intros H. destruct (fold_keys_in _ _ _ H) as [H1|[]]. exact H1. Qed.

Lemma group_keys_covers l k :
  In k l -> exists x, In x (group_keys l) /\ same_key k x.
Proof. apply fold_keys_covers. Qed.

(** ** Group sums *)

Lemma series_sum_amounts vi rs :
  Forall (fun r => numeric_or_missing (cell_at vi r) = true) rs ->
  series_sum (map (cell_at vi) rs) = Ok (Qsum (amounts vi rs)).
Proof.
  intros H. unfold series_sum, amounts.
  rewrite (mapM_ok_map _ num_key).
  - simpl. now rewrite map_map.
  - intros c Hc. apply in_map_iff in Hc. destruct Hc as (r & <- & Hr).
    rewrite Forall_forall in H. apply as_number_num_key. auto.
Qed.

Lemma filter_filter {A : Type} (p q : A -> bool) (l : list A) :
  filter p (filter q l) = filter (fun a => q a && p a) l.
Proof.
  induction l as [|a t IH]; simpl; [reflexivity|].
  destruct (q a); simpl; [|exact IH]. destruct (p a); now rewrite IH.
Qed.

Lemma group_of_present_key ki k df :
  isna k = false ->
  filter (fun r => cell_eqb (cell_at ki r) k) (keyed_rows ki df) = group_rows ki k df.
Proof.
  intros Hk. unfold keyed_rows, group_rows. rewrite filter_filter.
  apply filter_ext. intros r.
  destruct (cell_at ki r) eqn:E; simpl; try reflexivity.
  destruct k; simpl in *; try reflexivity. discriminate.
Qed.

Lemma keyed_rows_present ki df k :
  In k (map (cell_at ki) (keyed_rows ki df)) -> isna k = false.
Proof.
  intros H. apply in_map_iff in H. destruct H as (r & <- & Hr).
  unfold keyed_rows in Hr. apply filter_In in Hr. destruct Hr as [_ Hr].
  now apply negb_true_iff in Hr.
Qed.

Lemma groupby_sum_spec df key value ki vi :
  locate key df = Ok ki ->
  locate value df = Ok vi ->
  Forall (fun r => numeric_or_missing (cell_at vi r) = true) (rows df) ->
  groupby_sum df key value =
  Ok (mkFrame [key; value]
              (map (fun k => [k; CNum (group_total ki vi df k)])
                   (group_keys (map (cell_at ki) (keyed_rows ki df))))).
Proof.
  intros Hk Hv Hnum. unfold groupby_sum. rewrite Hk, Hv. simpl.
  fold (keyed_rows ki df).
  rewrite (mapM_ok_map _ (fun k => [k; CNum (group_total ki vi df k)])).
  - reflexivity.
  - intros k Hin. apply group_keys_in in Hin. apply keyed_rows_present in Hin.
    rewrite (group_of_present_key ki k df Hin).
    rewrite series_sum_amounts; [reflexivity|].
    apply Forall_forall. intros r Hr. unfold group_rows in Hr.
    apply filter_In in Hr. rewrite Forall_forall in Hnum. now apply Hnum.
Qed.

(** ** The moving average *)

Lemma present_map_Some {A : Type} (l : list A) : present (map Some l) = l.
Proof. induction l as [|a t IH]; simpl; [reflexivity|]. now rewrite IH. Qed.

Lemma keep_last_map {A B : Type} (f : A -> B) w (l : list A) :
  keep_last w (map f l) = map f (keep_last w l).
Proof. unfold keep_last. now rewrite length_map, skipn_map. Qed.

Lemma keep_last_app {A : Type} w (a b : list A) :
  keep_last w (keep_last w a ++ b) = keep_last w (a ++ b).
Proof.
  unfold keep_last.
  assert (E : skipn (length a - w) a ++ b = skipn (length a - w) (a ++ b)).
  { rewrite skipn_app. replace (length a - w - length a)%nat with 0%nat by lia.
    reflexivity. }
  rewrite E, skipn_skipn. f_equal.
  rewrite length_skipn, !length_app. lia.
Qed.

Lemma keep_last_length {A : Type} w (l : list A) :
  length (keep_last w l) = Nat.min w (length l).
Proof. unfold keep_last. rewrite length_skipn. lia. Qed.

Lemma roll_prefix pre xs :
  roll 3 1 (map Some (keep_last 3 pre)) (map Some xs) =
  map (fun j => CNum (Qmean (keep_last 3 (pre ++ firstn (S j) xs))))
      (seq 0 (length xs)).
Proof.
  revert pre. induction xs as [|x t IH]; intros pre; [reflexivity|].
  cbn [map roll length seq].
  assert (Ew : keep_last 3 (map Some (keep_last 3 pre) ++ [Some x]) =
               map Some (keep_last 3 (pre ++ [x]))).
  { change [Some x] with (map Some [x]). rewrite <- map_app, keep_last_map.
    now rewrite keep_last_app. }
  rewrite Ew. f_equal.
  - unfold window_mean. rewrite present_map_Some.
    assert (Hl : (1 <= length (keep_last 3 (pre ++ [x])))%nat).
    { rewrite keep_last_length, length_app. cbn [length]. lia. }
    apply Nat.leb_le in Hl. rewrite Hl. reflexivity.
  - rewrite IH, <- seq_shift, map_map. apply map_ext. intros j.
    now rewrite <- app_assoc.
Qed.

Lemma rolling_mean_numbers xs :
  rolling_mean 3 1 (map CNum xs) =
  Ok (map (fun j => CNum (trailing_mean xs j)) (seq 0 (length xs))).
Proof.
  unfold rolling_mean. rewrite (mapM_ok_map _ num_key).
  2:{ intros c Hc. apply in_map_iff in Hc. now destruct Hc as (q & <- & _). }
  cbn [bind]. rewrite map_map.
  change (map (fun x => num_key (CNum x)) xs) with (map Some xs).
  rewrite (roll_prefix [] xs : roll 3 1 [] (map Some xs) = _). f_equal. apply map_ext_in. intros j Hj.
  apply in_seq in Hj. cbn [app]. unfold trailing_mean, keep_last.
  replace (j + 1)%nat with (S j) by lia. do 3 f_equal.
  rewrite length_firstn. lia.
Qed.

(** ** Adding a column *)

Lemma positions_app name cols extra n :
  positions name (cols ++ [extra]) n =
  positions name cols n ++
  (if String.eqb extra name then [(n + length cols)%nat] else []).
Proof.
  revert n. induction cols as [|c t IH]; intros n; simpl.
  - rewrite Nat.add_0_r. reflexivity.
  - rewrite IH. replace (S n + length t)%nat with (n + S (length t))%nat by lia.
    now destruct (String.eqb c name).
Qed.

Lemma locate_bound name df i : locate name df = Ok i -> (i < length (columns df))%nat.
Proof.
  intros H. apply locate_label in H. apply nth_error_Some. congruence.
Qed.

Lemma setitem_spec df name vals :
  locate name df <> Err ValueError ->
  exists j cols,
    setitem df name vals = Ok (mkFrame cols (write_column j vals (rows df))) /\
    locate name (mkFrame cols (write_column j vals (rows df))) = Ok j /\
    forall other i,
      other <> name -> locate other df = Ok i ->
      locate other (mkFrame cols (write_column j vals (rows df))) = Ok i /\ i <> j.
Proof.
  intros Hne. unfold setitem.
  destruct (positions name (columns df) 0) as [|j [|j' rest]] eqn:E.
  - exists (length (columns df)), (columns df ++ [name]).
    split; [reflexivity|]. split.
    + unfold locate. simpl. rewrite positions_app, E, String.eqb_refl. reflexivity.
    + intros other i Ho Hi. split.
      * unfold locate in *. simpl. rewrite positions_app.
        destruct (String.eqb_spec name other) as [->|_]; [congruence|].
        now rewrite app_nil_r.
      * apply locate_bound in Hi. lia.
  - exists j, (columns df). split; [reflexivity|].
    assert (Hj : locate name df = Ok j) by (unfold locate; now rewrite E).
    split; [exact Hj|]. intros other i Ho Hi. split; [exact Hi|].
    exact (locate_distinct _ _ _ _ _ Hi Hj Ho).
  - exfalso. apply Hne. unfold locate. now rewrite E.
Qed.

(** ** The monthly trend *)

Lemma month_keys di j rs :
  Forall (fun r => datetime_or_missing (cell_at di r) = true) rs ->
  map (cell_at j)
      (filter (fun r => negb (isna (cell_at j r)))
              (map (fun r => set_at j (month_cell (cell_at di r)) r)
                   (filter (fun r => negb (isna (cell_at di r))) rs))) =
  map CDate (present (map (sale_month di) rs)).
Proof.
  induction 1 as [|r t Hr Ht IH]; [reflexivity|].
  cbn [filter map]. unfold sale_month at 1.
  destruct (cell_at di r) eqn:E; try discriminate; cbn [isna negb filter map present].
  - rewrite cell_at_set_at_same, E. cbn [month_cell isna negb filter map].
    rewrite cell_at_set_at_same. now rewrite IH.
  - exact IH.
Qed.

Lemma month_amounts di ti j m rs :
  ti <> j ->
  Forall (fun r => datetime_or_missing (cell_at di r) = true) rs ->
  amounts ti
    (filter (fun r => cell_eqb (cell_at j r) (CDate m))
            (map (fun r => set_at j (month_cell (cell_at di r)) r)
                 (filter (fun r => negb (isna (cell_at di r))) rs))) =
  amounts ti (filter (in_month di m) rs).
Proof.
  intros Hne. induction 1 as [|r t Hr Ht IH]; [reflexivity|].
  cbn [filter map]. unfold in_month at 1, sale_month.
  destruct (cell_at di r) eqn:E; try discriminate; cbn [isna negb filter map].
  - rewrite cell_at_set_at_same, E. cbn [month_cell].
    destruct (cell_eqb (CDate (month_start t0)) (CDate m)).
    + unfold amounts in *. cbn [map]. rewrite cell_at_set_at_other by congruence.
      destruct (num_key (cell_at ti r)); cbn [present]; now rewrite IH.
    + exact IH.
  - exact IH.
Qed.

Lemma dates_of_cells (l : list cell) :
  (forall c, In c l -> exists t, c = CDate t) -> exists ts, l = map CDate ts.
Proof.
  induction l as [|c t IH]; intros H.
  - now exists [].
  - destruct (H c (or_introl eq_refl)) as [d ->].
    destruct IH as [ts ->]; [intros; apply H; now right|].
    now exists (d :: ts).
Qed.

Lemma sorted_dates ts :
  StronglySorted key_lt (map CDate ts) -> StronglySorted ts_lt ts.
Proof.
  induction ts as [|a t IH]; intros H; [constructor|].
  inversion H as [|? ? Hs Ha]; subst. constructor; [auto|].
  rewrite Forall_map in Ha. exact Ha.
Qed.

Lemma month_buckets ms :
  exists months,
    group_keys (map CDate ms) = map CDate months /\
    StronglySorted ts_lt months /\
    forall m, In m months <-> In m ms.
Proof.
  destruct (dates_of_cells (group_keys (map CDate ms))) as [months E].
  { intros c Hc. apply group_keys_in in Hc. apply in_map_iff in Hc.
    destruct Hc as (t & <- & _). eauto. }
  exists months. split; [exact E|]. split.
  - apply sorted_dates. rewrite <- E. apply group_keys_sorted.
  - intros m. split; intros H.
    + assert (Hin : In (CDate m) (group_keys (map CDate ms)))
        by (rewrite E; now apply in_map).
      apply group_keys_in in Hin. apply in_map_iff in Hin.
      destruct Hin as (t & Ht & Hin). now injection Ht as <-.
    + destruct (group_keys_covers (map CDate ms) (CDate m)) as (x & Hx & Hk);
        [now apply in_map|].
      apply cell_eqb_date in Hk. subst x. rewrite E in Hx.
      apply in_map_iff in Hx. destruct Hx as (t & Ht & Hin). now injection Ht as <-.
Qed.

Lemma write_trend avg months (f : Timestamp -> Q) :
  length avg = length months ->
  write_column 2 (map CNum avg) (map (fun m => [CDate m; CNum (f m)]) months) =
  trend_rows months (map f months) avg.
Proof.
  revert avg. induction months as [|m t IH]; intros [|a avs] H; try discriminate;
    [reflexivity|].
  simpl. f_equal. apply IH. simpl in H. lia.
Qed.

Lemma in_present {A : Type} (l : list (option A)) (a : A) :
  In a (present l) <-> In (Some a) l.
Proof.
  induction l as [|[x|] t IH]; simpl; [tauto| |].
  - rewrite IH. split; intros [H|H]; auto; left; congruence.
  - rewrite IH. split; [auto|]. intros [H|H]; [discriminate|auto].
Qed.

Lemma monthly_spec sales di ti :
  locate "sale_date" sales = Ok di ->
  locate "total_amount" sales = Ok ti ->
  locate "sale_month" sales <> Err ValueError ->
  Forall (fun r => datetime_or_missing (cell_at di r) = true) (rows sales) ->
  Forall (fun r => numeric_or_missing (cell_at ti r) = true) (rows sales) ->
  exists months,
    monthly sales =
    Ok (mkFrame ["sale_month"; "total_amount"]
                (map (fun m => [CDate m; CNum (bucket_revenue di ti sales m)]) months)) /\
    StronglySorted ts_lt months /\
    forall m, In m months <-> In m (present (map (sale_month di) (rows sales))).
Proof.
  intros Hd Ht Hm Hdate Hnum. unfold monthly, dropna_subset. rewrite Hd.
  cbn [bind].
  set (dated := filter (fun r => negb (isna (cell_at di r))) (rows sales)).
  set (df1 := mkFrame (columns sales) dated).
  assert (Hd1 : locate "sale_date" df1 = Ok di) by exact Hd.
  assert (Ht1 : locate "total_amount" df1 = Ok ti) by exact Ht.
  rewrite (getitem_locate _ _ _ Hd1). cbn [bind].
  rewrite (mapM_ok_map _ month_cell).
  2:{ intros c Hc. apply in_map_iff in Hc. destruct Hc as (r & <- & Hr).
      apply filter_In in Hr. destruct Hr as [Hr _].
      rewrite Forall_forall in Hdate. specialize (Hdate r Hr).
      destruct (cell_at di r); try discriminate; reflexivity. }
  cbn [bind]. rewrite map_map.
  destruct (setitem_spec df1 "sale_month"
              (map (fun r => month_cell (cell_at di r)) (rows df1)))
    as (j & cols & Hset & Hj & Hother); [exact Hm|].
  rewrite Hset. cbn [bind].
  destruct (Hother "total_amount" ti ltac:(discriminate) Ht1) as [Ht2 Hne].
  rewrite (write_column_map j (fun r => month_cell (cell_at di r))) in *.
  set (df2 := mkFrame cols (map (fun r => set_at j (month_cell (cell_at di r)) r)
                               (rows df1))) in *.
  rewrite (groupby_sum_spec df2 "sale_month" "total_amount" j ti Hj Ht2).
  2:{ apply Forall_forall. intros r2 Hr2. cbn [df2 rows] in Hr2.
      apply in_map_iff in Hr2. destruct Hr2 as (r & <- & Hr).
      rewrite cell_at_set_at_other by congruence.
      apply filter_In in Hr. rewrite Forall_forall in Hnum. now apply Hnum. }
  assert (Ek : map (cell_at j) (keyed_rows j df2) =
               map CDate (present (map (sale_month di) (rows sales))))
    by (apply month_keys; exact Hdate).
  rewrite Ek.
  destruct (month_buckets (present (map (sale_month di) (rows sales))))
    as (months & Eg & Hsorted & Hin).
  exists months. rewrite Eg. split; [|split; assumption].
  rewrite map_map. do 2 f_equal. apply map_ext. intros m. do 3 f_equal.
  unfold group_total, bucket_revenue, group_rows. f_equal.
  apply month_amounts; [exact Hne|exact Hdate].
Qed.

Lemma ma3_spec months (f : Timestamp -> Q) :
  let revenue := map f months in
  ma3 (mkFrame ["sale_month"; "total_amount"]
               (map (fun m => [CDate m; CNum (f m)]) months)) =
  Ok (mkFrame ["sale_month"; "total_amount"; "ma3"]
              (trend_rows months revenue
                          (map (trailing_mean revenue) (seq 0 (length revenue))))).
Proof.
  intros revenue. unfold ma3, getitem.
  change (locate "total_amount"
            (mkFrame ["sale_month"; "total_amount"]
                     (map (fun m => [CDate m; CNum (f m)]) months)))
    with (@Ok nat 1%nat).
  cbn [bind rows]. rewrite map_map.
  change (map (fun m => cell_at 1 [CDate m; CNum (f m)]) months)
    with (map (fun m => CNum (f m)) months).
  rewrite <- (map_map f CNum). fold revenue.
  rewrite rolling_mean_numbers. cbn [bind].
  unfold setitem. cbn [columns rows positions String.eqb Ascii.eqb Bool.eqb].
  cbn. f_equal. f_equal.
  rewrite <- (map_map (trailing_mean revenue) CNum).
  apply write_trend. unfold revenue. now rewrite ?length_map, length_seq, ?length_map.
Qed.

(** C1.  On a non-empty normalized sales table the monthly trend is a table
    of (month, revenue, moving average).  Its months are the first instants
    of the months of the sales whose date is present, each once, in
    ascending order; rows without a date are left out without an error.  The
    revenue of a month is the sum of [total_amount] over the sales dated in
    it, and the moving average of bucket [j] is the mean of the revenues of
    the buckets [max 0 (j - 2) .. j].  For the revenues
    [100; 200; 300; 400] the averages are [100; 150; 200; 300]. *)
Theorem monthly_trend_spec sales di ti :
  empty sales = false ->
  locate "sale_date" sales = Ok di ->
  locate "total_amount" sales = Ok ti ->
  locate "sale_month" sales <> Err ValueError ->
  Forall (fun r => datetime_or_missing (cell_at di r) = true) (rows sales) ->
  Forall (fun r => numeric_or_missing (cell_at ti r) = true) (rows sales) ->
  (exists months,
      let revenue := map (bucket_revenue di ti sales) months in
      let average := map (trailing_mean revenue) (seq 0 (length revenue)) in
      monthly_trend sales =
      Ok (Table (mkFrame ["sale_month"; "total_amount"; "ma3"]
                         (trend_rows months revenue average))) /\
      StronglySorted ts_lt months /\
      (forall m, In m months <->
                 exists r t, In r (rows sales) /\ cell_at di r = CDate t /\
                             m = mkTimestamp (ts_year t) (ts_month t) 1 0)) /\
  (exists a0 a1 a2 a3,
      monthly_trend march_sales =
      Ok (Table (mkFrame ["sale_month"; "total_amount"; "ma3"]
                   [[CDate (mkTimestamp 2024 1 1 0); CNum 100; CNum a0];
                    [CDate (mkTimestamp 2024 2 1 0); CNum 200; CNum a1];
                    [CDate (mkTimestamp 2024 3 1 0); CNum 300; CNum a2];
                    [CDate (mkTimestamp 2024 4 1 0); CNum 400; CNum a3]])) /\
      a0 == 100 /\ a1 == 150 /\ a2 == 200 /\ a3 == 300 /\
      [a0; a1; a2; a3] = map (trailing_mean [100; 200; 300; 400]) [0; 1; 2; 3]%nat).
Proof.
  intros He Hd Ht Hm Hdate Hnum. split.
  - destruct (monthly_spec sales di ti Hd Ht Hm Hdate Hnum) as (months & Hmo & Hs & Hin).
    exists months. cbn zeta. split; [|split; [exact Hs|]].
    + unfold monthly_trend. rewrite He. cbn [negb]. rewrite Hmo. cbn [bind].
      now rewrite (ma3_spec months (bucket_revenue di ti sales)).
    + intros m. rewrite Hin, in_present, in_map_iff. unfold sale_month.
      split.
      * intros (r & Hr & Hin'). destruct (cell_at di r) as [| |t|] eqn:E;
          try discriminate. injection Hr as <-. exists r, t. auto.
      * intros (r & t & Hin' & E & ->). exists r. now rewrite E.
  - eexists _, _, _, _. split; [vm_compute; reflexivity|].
    repeat split; reflexivity.
Qed.

(** ** Top-N rankings *)

Lemma plain_contract : MergeContract plain_keys.
Proof.
  split.
  - intros l r Hr Hl Hn. cbn. destruct l as [|a l]; [reflexivity|].
    destruct r as [|b r]; [reflexivity|]. now rewrite Hl, Hn.
  - intros l r Hl Hr He. cbn. destruct l as [|a l]; [reflexivity|].
    destruct r as [|b r]; [reflexivity|].
    assert (Nl : forallb numeric_or_missing (a :: l) = false).
    { cbn [forallb] in *. apply andb_true_iff in Hl. destruct Hl as [Ha _].
      destruct a; try discriminate. reflexivity. }
    assert (Nr : forallb numeric_or_missing (b :: r) = false).
    { apply existsb_exists in He. destruct He as (x & Hx & Tx).
      destruct (forallb numeric_or_missing (b :: r)) eqn:E; [|reflexivity].
      rewrite forallb_forall in E. specialize (E x Hx).
      destruct x; discriminate. }
    now rewrite Nl, Nr.
  - intros l r Hl Hr H. cbn. destruct l as [|a l]; [congruence|].
    destruct r as [|b r]; [congruence|].
    destruct H as [[Hn Ht]|[Ht Hn]].
    + assert (Nl : forallb numeric_or_missing (a :: l) = true).
      { apply forallb_forall. intros x Hx. rewrite forallb_forall in Hn.
        specialize (Hn x Hx). now destruct x. }
      assert (Nr : forallb numeric_or_missing (b :: r) = false).
      { cbn [forallb] in *. apply andb_true_iff in Ht. destruct Ht as [Hb _].
        destruct b; try discriminate. reflexivity. }
      now rewrite Nl, Nr.
    + assert (Nl : forallb numeric_or_missing (a :: l) = false).
      { cbn [forallb] in *. apply andb_true_iff in Ht. destruct Ht as [Ha _].
        destruct a; try discriminate. reflexivity. }
      assert (Nr : forallb numeric_or_missing (b :: r) = true).
      { apply forallb_forall. intros x Hx. rewrite forallb_forall in Hn.
        specialize (Hn x Hx). now destruct x. }
      now rewrite Nl, Nr.
Qed.

Lemma flat_map_map {A B C : Type} (f : A -> B) (g : B -> list C) (l : list A) :
  flat_map g (map f l) = flat_map (fun a => g (f a)) l.
Proof. induction l as [|a t IH]; simpl; [reflexivity|]. now rewrite IH. Qed.

Lemma positions_none name l n :
  (forall c, In c l -> c <> name) -> positions name l n = [].
Proof.
  revert n. induction l as [|c t IH]; intros n H; simpl; [reflexivity|].
  destruct (String.eqb_spec c name) as [->|_].
  - exfalso. now apply (H name (or_introl eq_refl)).
  - apply IH. intros; apply H; now right.
Qed.

Lemma in_drop_label i l c : In c (drop_label i l) -> In c l.
Proof.
  revert i. induction l as [|x t IH]; intros [|i]; simpl; auto.
  intros [<-|H]; eauto.
Qed.

Lemma has_column_false name df c :
  has_column name df = false -> In c (columns df) -> c <> name.
Proof.
  unfold has_column. intros H Hin ->.
  assert (E : existsb (String.eqb name) (columns df) = true).
  { apply existsb_exists. exists name. split; [exact Hin|apply String.eqb_refl]. }
  congruence.
Qed.

Lemma group_frame_keys (total : cell -> Q) keys :
  map (cell_at 0) (map (fun k => [k; CNum (total k)]) keys) = keys.
Proof. rewrite map_map. cbn. apply map_id. Qed.

Section Merging.
Context {M : MergeKeys}.

Lemma merge_groups key keys (total : cell -> Q) dim ci :
  key <> "total_amount" ->
  locate key dim = Ok ci ->
  has_column "total_amount" dim = false ->
  keys_compatible keys (dim_keys ci dim) = true ->
  merge_left (mkFrame [key; "total_amount"] (map (fun k => [k; CNum (total k)]) keys))
             dim key =
  Ok (mkFrame ([key; "total_amount"] ++ drop_label ci (columns dim))
              (flat_map (join_group ci dim total) keys)).
Proof.
  intros Hkey Hl Hno Hok. unfold merge_left, locate at 1. cbn [columns positions].
  rewrite String.eqb_refl.
  destruct (String.eqb_spec "total_amount" key) as [E|_]; [congruence|].
  cbn [bind]. rewrite Hl. cbn [bind rows]. rewrite group_frame_keys.
  fold (dim_keys ci dim). rewrite Hok. cbn [length]. f_equal. f_equal.
  - f_equal.
    + unfold suffixed. cbn [map]. rewrite String.eqb_refl. cbn [negb andb].
      unfold has_column in Hno. rewrite Hno. now rewrite andb_false_r.
    + f_equal. unfold suffixed. rewrite <- (map_id (columns dim)) at 2.
      apply map_ext_in. intros c Hc. cbn [existsb].
      destruct (String.eqb_spec c key) as [->|Hc1]; [reflexivity|].
      destruct (String.eqb_spec c "total_amount") as [->|Hc2]; [|reflexivity].
      exfalso. exact (has_column_false _ _ _ Hno Hc eq_refl).
  - rewrite flat_map_map. apply flat_map_ext. intros k. unfold join_group.
    reflexivity.
Qed.

Lemma locate_revenue key rest rs :
  key <> "total_amount" ->
  (forall c, In c rest -> c <> "total_amount") ->
  locate "total_amount" (mkFrame ([key; "total_amount"] ++ rest) rs) = Ok 1%nat.
Proof.
  intros Hkey Hrest. unfold locate. cbn [columns app positions].
  destruct (String.eqb_spec key "total_amount") as [E|_]; [congruence|].
  rewrite String.eqb_refl. now rewrite positions_none.
Qed.

Lemma join_group_rows ci dim total k row :
  In row (join_group ci dim total k) ->
  cell_at 0 row = k /\ cell_at 1 row = CNum (total k) /\
  ((forall c, In c (rows dim) -> cell_eqb k (cell_at ci c) = false) /\
   row = [k; CNum (total k)] ++ repeat CNaN (length (columns dim) - 1)
   \/
   exists c, In c (rows dim) /\ cell_eqb k (cell_at ci c) = true /\
             row = [k; CNum (total k)]
                   ++ fit (length (columns dim) - 1) (drop_at ci c)).
Proof.
  unfold join_group.
  destruct (filter (fun c => cell_eqb k (cell_at ci c)) (rows dim)) as [|m ms] eqn:E.
  - intros [<-|[]]. repeat split. left. split; [|reflexivity].
    intros c Hc. destruct (cell_eqb k (cell_at ci c)) eqn:Ek; [|reflexivity].
    assert (Hin : In c (filter (fun c => cell_eqb k (cell_at ci c)) (rows dim)))
      by (apply filter_In; auto).
    rewrite E in Hin. contradiction.
  - intros Hin. apply in_map_iff in Hin. destruct Hin as (c & <- & Hc).
    repeat split. right. exists c. rewrite <- E in Hc. apply filter_In in Hc.
    destruct Hc. auto.
Qed.

Lemma join_group_unmatched ci dim total k :
  (forall c, In c (rows dim) -> cell_eqb k (cell_at ci c) = false) ->
  join_group ci dim total k =
  [[k; CNum (total k)] ++ repeat CNaN (length (columns dim) - 1)].
Proof.
  intros H. unfold join_group.
  destruct (filter (fun c => cell_eqb k (cell_at ci c)) (rows dim)) as [|m ms] eqn:E;
    [reflexivity|].
  assert (Hin : In m (filter (fun c => cell_eqb k (cell_at ci c)) (rows dim)))
    by (rewrite E; now left).
  apply filter_In in Hin. destruct Hin as [Hm Hk]. rewrite (H m Hm) in Hk. discriminate.
Qed.

Lemma join_group_matched ci dim total k c :
  In c (rows dim) -> cell_eqb k (cell_at ci c) = true ->
  In ([k; CNum (total k)] ++ fit (length (columns dim) - 1) (drop_at ci c))
     (join_group ci dim total k).
Proof.
  intros Hc Hk. unfold join_group.
  assert (Hin : In c (filter (fun c => cell_eqb k (cell_at ci c)) (rows dim)))
    by (apply filter_In; auto).
  destruct (filter (fun c => cell_eqb k (cell_at ci c)) (rows dim)) as [|m ms];
    [contradiction|].
  apply in_map_iff. exists c. auto.
Qed.

(** Numbers against texts: the merge raises before it joins. *)
Lemma merge_refused key keys (total : cell -> Q) dim ci :
  key <> "total_amount" ->
  locate key dim = Ok ci ->
  keys_compatible keys (dim_keys ci dim) = false ->
  merge_left (mkFrame [key; "total_amount"] (map (fun k => [k; CNum (total k)]) keys))
             dim key = Err ValueError.
Proof.
  intros Hkey Hl Hno. unfold merge_left, locate at 1. cbn [columns positions].
  rewrite String.eqb_refl.
  destruct (String.eqb_spec "total_amount" key) as [E|_]; [congruence|].
  cbn [bind]. rewrite Hl. cbn [bind rows]. rewrite group_frame_keys.
  fold (dim_keys ci dim). now rewrite Hno.
Qed.

Lemma merge_clash key keys (total : cell -> Q) dim ci :
  key <> "total_amount" ->
  locate key dim = Ok ci ->
  has_column "total_amount" dim = true ->
  keys_compatible keys (dim_keys ci dim) = true ->
  exists m,
    merge_left (mkFrame [key; "total_amount"] (map (fun k => [k; CNum (total k)]) keys))
               dim key = Ok m /\
    forall c, In c (columns m) -> c <> "total_amount".
Proof.
  intros Hkey Hl Hhas Hok. unfold merge_left, locate at 1. cbn [columns positions].
  rewrite String.eqb_refl.
  destruct (String.eqb_spec "total_amount" key) as [E|Hne]; [congruence|].
  cbn [bind]. rewrite Hl. cbn [bind rows]. rewrite group_frame_keys.
  fold (dim_keys ci dim). rewrite Hok. eexists. split; [reflexivity|].
  cbn [columns]. intros c Hc. apply in_app_or in Hc. destruct Hc as [Hc|Hc].
  - unfold suffixed in Hc. cbn [map] in Hc. rewrite String.eqb_refl in Hc.
    cbn [negb andb] in Hc.
    destruct (String.eqb_spec "total_amount" key) as [E|_]; [congruence|].
    unfold has_column in Hhas. rewrite Hhas in Hc. cbn [negb andb] in Hc.
    destruct Hc as [<-|[<-|[]]]; [exact Hkey|discriminate].
  - apply in_drop_label in Hc. unfold suffixed in Hc. apply in_map_iff in Hc.
    destruct Hc as (c0 & Hc0 & _). cbn [existsb] in Hc0.
    destruct (String.eqb c0 key) eqn:Ek; cbn [negb andb orb] in Hc0.
    + apply String.eqb_eq in Ek. congruence.
    + destruct (String.eqb c0 "total_amount") eqn:Et; cbn [orb] in Hc0.
      * apply String.eqb_eq in Et. subst c0 c. discriminate.
      * apply String.eqb_neq in Et. congruence.
Qed.

Lemma merged_spec key sales dim ki vi ci :
  key <> "total_amount" ->
  locate key sales = Ok ki ->
  locate "total_amount" sales = Ok vi ->
  Forall (fun r => numeric_or_missing (cell_at vi r) = true) (rows sales) ->
  locate key dim = Ok ci ->
  has_column "total_amount" dim = false ->
  keys_compatible (sales_keys ki sales) (dim_keys ci dim) = true ->
  merged key sales dim =
  Ok (mkFrame ([key; "total_amount"] ++ drop_label ci (columns dim))
              (flat_map (join_group ci dim (group_total ki vi sales))
                        (sales_keys ki sales))).
Proof.
  intros Hkey Hk Hv Hnum Hc Hno Hok. unfold merged.
  rewrite (groupby_sum_spec sales key "total_amount" ki vi Hk Hv Hnum). cbn [bind].
  now apply merge_groups.
Qed.

Lemma merged_refused key sales dim ki vi ci :
  key <> "total_amount" ->
  locate key sales = Ok ki ->
  locate "total_amount" sales = Ok vi ->
  Forall (fun r => numeric_or_missing (cell_at vi r) = true) (rows sales) ->
  locate key dim = Ok ci ->
  keys_compatible (sales_keys ki sales) (dim_keys ci dim) = false ->
  merged key sales dim = Err ValueError.
Proof.
  intros Hkey Hk Hv Hnum Hc Hno. unfold merged.
  rewrite (groupby_sum_spec sales key "total_amount" ki vi Hk Hv Hnum). cbn [bind].
  now apply (merge_refused key _ _ dim ci).
Qed.

End Merging.

Section Ranking.
Context {S : SortKind} {C : SortContract S} {M : MergeKeys}.

Lemma top_cust_ranking sales customers :
  top_cust sales customers = ranking "customer_id" sales customers.
Proof.
  unfold top_cust, ranking, merged.
  now destruct (groupby_sum sales "customer_id" "total_amount").
Qed.

Lemma top_prod_ranking sales inventory :
  top_prod sales inventory = ranking "product_id" sales inventory.
Proof.
  unfold top_prod, ranking, merged.
  now destruct (groupby_sum sales "product_id" "total_amount").
Qed.

Lemma ranking_spec key sales dim ki vi ci :
  key <> "total_amount" ->
  locate key sales = Ok ki ->
  locate "total_amount" sales = Ok vi ->
  Forall (fun r => numeric_or_missing (cell_at vi r) = true) (rows sales) ->
  locate key dim = Ok ci ->
  has_column "total_amount" dim = false ->
  keys_compatible (sales_keys ki sales) (dim_keys ci dim) = true ->
  exists sorted,
    ranking key sales dim =
    Ok (mkFrame ([key; "total_amount"] ++ drop_label ci (columns dim))
                (firstn 10 sorted)) /\
    Permutation (flat_map (join_group ci dim (group_total ki vi sales))
                          (sales_keys ki sales))
                sorted /\
    StronglySorted (fun r1 r2 => quantity 1 r2 <= quantity 1 r1) sorted.
Proof.
  intros Hkey Hk Hv Hnum Hc Hno Hok. unfold ranking.
  rewrite (merged_spec key sales dim ki vi ci) by assumption. cbn [bind].
  set (joined := flat_map (join_group ci dim (group_total ki vi sales))
                          (sales_keys ki sales)).
  set (m := mkFrame ([key; "total_amount"] ++ drop_label ci (columns dim)) joined).
  assert (Hrev : forall r, In r joined -> exists q, cell_at 1 r = CNum q).
  { intros r Hr. apply in_flat_map in Hr. destruct Hr as (k & _ & Hr).
    apply join_group_rows in Hr. destruct Hr as (_ & Hr & _). eauto. }
  destruct (sort_values_spec m "total_amount" 1 false) as (sorted & Hs & Hperm & Hsorted).
  { apply locate_revenue; [exact Hkey|]. intros c Hin.
    apply in_drop_label in Hin. exact (has_column_false _ _ _ Hno Hin). }
  { apply Forall_forall. intros r Hr. destruct (Hrev r Hr) as [q ->]. reflexivity. }
  exists sorted. rewrite Hs. cbn [bind]. split; [reflexivity|].
  split; [exact Hperm|].
  eapply StronglySorted_impl_in; [|exact Hsorted].
  intros a b Ha Hb. unfold row_le, quantity.
  destruct (Hrev a) as [qa ->]; [eapply Permutation_in; [symmetry; exact Hperm|exact Ha]|].
  destruct (Hrev b) as [qb ->]; [eapply Permutation_in; [symmetry; exact Hperm|exact Hb]|].
  cbn. now rewrite Qle_bool_iff.
Qed.

(** A dimension table with a [total_amount] column of its own: both
    columns of that name are renamed and the sort finds none. *)
Lemma ranking_clash key sales dim ki vi ci :
  key <> "total_amount" ->
  locate key sales = Ok ki ->
  locate "total_amount" sales = Ok vi ->
  Forall (fun r => numeric_or_missing (cell_at vi r) = true) (rows sales) ->
  locate key dim = Ok ci ->
  has_column "total_amount" dim = true ->
  keys_compatible (sales_keys ki sales) (dim_keys ci dim) = true ->
  ranking key sales dim = Err (KeyError "total_amount").
Proof.
  intros Hkey Hk Hv Hnum Hc Hhas Hok. unfold ranking, merged.
  rewrite (groupby_sum_spec sales key "total_amount" ki vi Hk Hv Hnum). cbn [bind].
  destruct (merge_clash key (sales_keys ki sales)
              (group_total ki vi sales) dim ci Hkey Hc Hhas Hok) as (m & Hm & Hcols).
  unfold sales_keys in Hm. rewrite Hm.
  cbn [bind]. unfold sort_values, locate. now rewrite (positions_none _ _ _ Hcols).
Qed.

Lemma ranking_refused key sales dim ki vi ci :
  key <> "total_amount" ->
  locate key sales = Ok ki ->
  locate "total_amount" sales = Ok vi ->
  Forall (fun r => numeric_or_missing (cell_at vi r) = true) (rows sales) ->
  locate key dim = Ok ci ->
  keys_compatible (sales_keys ki sales) (dim_keys ci dim) = false ->
  ranking key sales dim = Err ValueError.
Proof.
  intros Hkey Hk Hv Hnum Hc Hno. unfold ranking.
  now rewrite (merged_refused key sales dim ki vi ci Hkey Hk Hv Hnum Hc Hno).
Qed.

End Ranking.

Lemma ranking_top_n (S : SortKind) (C : SortContract S) (M : MergeKeys)
  key sales dim :
  key <> "total_amount" ->
  top_n_spec key (t <- ranking key sales dim ;; Ok (Table t)) sales dim.
Proof.
  intros Hkey ki vi ci Hk Hv Hnum Hc Hno Hok total.
  destruct (ranking_spec key sales dim ki vi ci Hkey Hk Hv Hnum Hc Hno Hok)
    as (sorted & Hr & Hperm & Hsorted).
  exists (sales_keys ki sales), sorted.
  split; [apply group_keys_sorted|]. split; [|split; [|split; [|split]]].
  - intros k Hin. apply group_keys_in in Hin. split.
    + exact (keyed_rows_present _ _ _ Hin).
    + apply in_map_iff in Hin. destruct Hin as (r & <- & Hr').
      apply filter_In in Hr'. exists r. split; [apply Hr'|reflexivity].
  - intros r Hin Hna. apply group_keys_covers. apply in_map.
    apply filter_In. split; [exact Hin|]. now rewrite Hna.
  - exact Hperm.
  - exact Hsorted.
  - now rewrite Hr.
Qed.

(** C2, as amended.  For non-empty sales and customers (resp. inventory)
    tables, when the customers (resp. inventory) table has no [total_amount]
    column of its own and [merge] accepts the two key columns, the top
    customers (resp. products) are computed from one group per
    [customer_id] (resp. [product_id]) of the sales table, with the sum of
    [total_amount] over the sales of the group; each group is joined with
    the matching rows of the other table, one joined row per match, and a
    group without a match is kept as one row with missing attributes; the
    joined rows are sorted by descending revenue and the first 10 are
    shown.  This holds for every sorting algorithm that returns a sorted
    permutation and for every answer of the key check. *)
Theorem top_n_left_join_sorted (S : SortKind) (C : SortContract S) (M : MergeKeys)
  sales customers inventory :
  (empty sales = false -> empty customers = false ->
   top_n_spec "customer_id" (top_customers sales customers) sales customers) /\
  (empty sales = false -> empty inventory = false ->
   top_n_spec "product_id" (top_products sales inventory) sales inventory).
Proof.
  split; intros Hs Hd.
  - unfold top_customers. rewrite Hs, Hd. cbn [negb andb].
    rewrite top_cust_ranking. apply (ranking_top_n S C M). discriminate.
  - unfold top_products. rewrite Hs, Hd. cbn [negb andb].
    rewrite top_prod_ranking. apply (ranking_top_n S C M). discriminate.
Qed.

(** The claim C2 as written fails on non-empty tables: when the customers
    table has a [total_amount] column of its own the ranking raises
    [KeyError] instead of sorting, since the merge has renamed the revenue
    column, and when the customer ids are numbers in one table and texts in
    the other the merge raises [ValueError]. *)
Lemma top_n_raises_on_some_tables :
  empty orders = false /\ empty billed_clients = false /\
  empty coded_clients = false /\
  (forall (S : SortKind) (M : MergeKeys), MergeContract M ->
     @top_customers S M orders billed_clients = Err (KeyError "total_amount") /\
     @top_customers S M orders coded_clients = Err ValueError).
Proof.
  split; [reflexivity|]. split; [reflexivity|]. split; [reflexivity|].
  intros S M K. split.
  - unfold top_customers. cbn [orders billed_clients empty columns rows negb andb].
    rewrite top_cust_ranking.
    rewrite (ranking_clash "customer_id" orders billed_clients 1 3 0);
      try reflexivity; try discriminate; [repeat constructor|].
    apply numbers_compatible; [discriminate|reflexivity|reflexivity].
  - unfold top_customers. cbn [orders coded_clients empty columns rows negb andb].
    rewrite top_cust_ranking.
    rewrite (ranking_refused "customer_id" orders coded_clients 1 3 0);
      try reflexivity; try discriminate; [repeat constructor|].
    apply numbers_and_texts_refused; [discriminate|discriminate|].
    left. split; reflexivity.
Qed.

(** ** Ties *)

Lemma sorted_perm_unique {A : Type} (R : A -> A -> Prop) (l1 l2 : list A) :
  Permutation l1 l2 ->
  StronglySorted R l1 -> StronglySorted R l2 ->
  (forall a b, In a l1 -> In b l1 -> R a b -> R b a -> a = b) ->
  l1 = l2.
Proof.
  revert l2. induction l1 as [|a t1 IH]; intros l2 Hp H1 H2 Hanti.
  - apply Permutation_nil in Hp. now subst.
  - destruct l2 as [|b t2]; [symmetry in Hp; now apply Permutation_nil in Hp|].
    inversion H1 as [|? ? Hs1 Ha]; subst. inversion H2 as [|? ? Hs2 Hb]; subst.
    assert (Eab : a = b).
    { assert (Hin_a : In a (b :: t2))
        by (eapply Permutation_in; [exact Hp|now left]).
      assert (Hin_b : In b (a :: t1))
        by (eapply Permutation_in; [symmetry; exact Hp|now left]).
      destruct Hin_a as [->|Hin_a]; [reflexivity|].
      destruct Hin_b as [->|Hin_b]; [reflexivity|].
      rewrite Forall_forall in Ha, Hb.
      apply Hanti; [now left|now right|now apply Ha|now apply Hb]. }
    subst b. f_equal. apply IH; auto.
    + now apply Permutation_cons_inv in Hp.
    + intros x y Hx Hy. apply Hanti; now right.
Qed.

Lemma sort_values_untied
  (S1 S2 : SortKind) (C1 : SortContract S1) (C2 : SortContract S2) df label i :
  locate label df = Ok i ->
  Forall (fun r => numeric (cell_at i r) = true) (rows df) ->
  (forall r1 r2, In r1 (rows df) -> In r2 (rows df) ->
                 quantity i r1 == quantity i r2 -> r1 = r2) ->
  @sort_values S1 df label false = @sort_values S2 df label false.
Proof.
  intros Hl Hnum Hties.
  assert (Hnm : Forall (fun r => numeric_or_missing (cell_at i r) = true) (rows df)).
  { eapply Forall_impl; [|exact Hnum]. intros r Hr. simpl in Hr.
    now destruct (cell_at i r). }
  destruct (@sort_values_spec S1 C1 df label i false Hl Hnm) as (o1 & E1 & P1 & St1).
  destruct (@sort_values_spec S2 C2 df label i false Hl Hnm) as (o2 & E2 & P2 & St2).
  rewrite E1, E2. do 2 f_equal.
  apply (sorted_perm_unique (row_le i false)); try assumption.
  - now rewrite <- P1.
  - intros a b Ha Hb Hab Hba.
    assert (Ha' : In a (rows df)) by (eapply Permutation_in; [symmetry; exact P1|exact Ha]).
    assert (Hb' : In b (rows df)) by (eapply Permutation_in; [symmetry; exact P1|exact Hb]).
    apply Hties; try assumption.
    rewrite Forall_forall in Hnum. pose proof (Hnum a Ha') as Na.
    pose proof (Hnum b Hb') as Nb. unfold row_le, quantity in *.
    destruct (cell_at i a); try discriminate. destruct (cell_at i b); try discriminate.
    cbn in Hab, Hba. apply Qle_bool_iff in Hab, Hba. now apply Qle_antisym.
Qed.

(** X18.  When no two different joined rows have the same revenue, a Top-N
    table does not depend on the sorting algorithm that [sort_values] runs:
    any two algorithms that return a sorted permutation give the same
    table.  Only the order of rows with the same revenue is left to the
    algorithm. *)
Theorem top_n_determined_up_to_ties
  (S1 S2 : SortKind) (C1 : SortContract S1) (C2 : SortContract S2) (M : MergeKeys)
  sales customers inventory :
  (forall m i,
      merged "customer_id" sales customers = Ok m ->
      locate "total_amount" m = Ok i ->
      Forall (fun r => numeric (cell_at i r) = true) (rows m) ->
      (forall r1 r2, In r1 (rows m) -> In r2 (rows m) ->
                     quantity i r1 == quantity i r2 -> r1 = r2) ->
      @top_cust S1 M sales customers = @top_cust S2 M sales customers) /\
  (forall m i,
      merged "product_id" sales inventory = Ok m ->
      locate "total_amount" m = Ok i ->
      Forall (fun r => numeric (cell_at i r) = true) (rows m) ->
      (forall r1 r2, In r1 (rows m) -> In r2 (rows m) ->
                     quantity i r1 == quantity i r2 -> r1 = r2) ->
      @top_prod S1 M sales inventory = @top_prod S2 M sales inventory).
Proof.
  split; intros m i Hm Hl Hnum Hties.
  - rewrite !top_cust_ranking. unfold ranking. rewrite Hm. cbn [bind].
    now rewrite (sort_values_untied S1 S2 C1 C2 m "total_amount" i).
  - rewrite !top_prod_ranking. unfold ranking. rewrite Hm. cbn [bind].
    now rewrite (sort_values_untied S1 S2 C1 C2 m "total_amount" i).
Qed.

(* ================================================================== *)
(** * Worked instances *)

Lemma load_data_idempotent_witness :
  exists c i s,
    @load_data simple_coercions
               (Some messy_customers) (Some messy_inventory) (Some messy_sales) =
    Ok (c, i, s) /\
    @load_data simple_coercions (Some c) (Some i) (Some s) = Ok (c, i, s).
Proof.
  eexists _, _, _. split; [vm_compute; reflexivity|].
  apply (@load_data_idempotent simple_coercions
           (Some messy_customers) (Some messy_inventory) (Some messy_sales)).
  vm_compute. reflexivity.
Defined.

Lemma numeric_coercion_to_zero_witness :
  exists c' i' s',
    @load_data simple_coercions
               (Some messy_customers) (Some messy_inventory) (Some messy_sales) =
    Ok (c', i', s') /\
    getitem s' "total_amount" = Ok [CNum 10; CNum 0; CNum (-5)] /\
    getitem s' "quantity" = Ok [CNum 1; CNum 2; CNum 0] /\
    getitem i' "quantity_in_stock" = Ok [CNum 12; CNum 0] /\
    shape0 s' = 3%nat.
Proof.
  eexists _, _, _. split; [vm_compute; reflexivity|].
  destruct (numeric_coercion_to_zero simple_coercions
              (Some messy_customers) (Some messy_inventory) (Some messy_sales)
              _ _ _ ltac:(vm_compute; reflexivity))
    as ((_ & _ & Hshape) & Hsales & Hinv & _).
  split; [|split; [|split]].
  - exact (Hsales "total_amount" [CStr "10"; CStr "abc"; CStr "-5"]
                  ltac:(simpl; tauto) ltac:(vm_compute; reflexivity)).
  - exact (Hsales "quantity" [CNum 1; CStr "2"; CNaN]
                  ltac:(simpl; tauto) ltac:(vm_compute; reflexivity)).
  - exact (Hinv "quantity_in_stock" [CStr "12"; CStr "none"]
                ltac:(simpl; tauto) ltac:(vm_compute; reflexivity)).
  - exact Hshape.
Defined.

Lemma monthly_trend_spec_witness :
  empty march_sales = false /\
  locate "sale_date" march_sales = Ok 1%nat /\
  locate "total_amount" march_sales = Ok 2%nat /\
  exists months,
    let revenue := map (bucket_revenue 1 2 march_sales) months in
    let average := map (trailing_mean revenue) (seq 0 (length revenue)) in
    monthly_trend march_sales =
    Ok (Table (mkFrame ["sale_month"; "total_amount"; "ma3"]
                       (trend_rows months revenue average))) /\
    StronglySorted ts_lt months /\
    (forall m, In m months <->
               exists r t, In r (rows march_sales) /\ cell_at 1 r = CDate t /\
                           m = mkTimestamp (ts_year t) (ts_month t) 1 0).
Proof.
  split; [reflexivity|]. split; [reflexivity|]. split; [reflexivity|].
  apply (monthly_trend_spec march_sales 1 2).
  - reflexivity.
  - reflexivity.
  - reflexivity.
  - vm_compute. discriminate.
  - repeat constructor.
  - repeat constructor.
Defined.

Lemma monthly_trend_without_sale_date_witness :
  empty receipts = false /\
  has_column "sale_date" receipts = false /\
  @coerce_if_present "sale_date" (@to_datetime simple_coercions) receipts = Ok receipts /\
  monthly_trend receipts = Err (KeyError "sale_date").
Proof.
  split; [reflexivity|]. split; [reflexivity|].
  apply (monthly_trend_without_sale_date simple_coercions receipts); reflexivity.
Defined.

Lemma missing_customers_spec_witness :
  empty one_sale = false /\ empty known_customers = false /\
  exists out,
    missing_customers one_sale known_customers =
    Ok (Table (mkFrame ["sale_id"; "customer_id"]
                       (map (fun r => [cell_at 0 r; cell_at 1 r]) out))) /\
    out = orphans 1 0 one_sale known_customers /\
    (forall r, In r out <->
               In r (rows one_sale) /\
               forall k, In k (rows known_customers) ->
                         cell_eqb (cell_at 1 r) (cell_at 0 k) = false).
Proof.
  split; [reflexivity|]. split; [reflexivity|].
  apply (proj1 (proj2 (missing_customers_spec one_sale known_customers)) 0%nat 1%nat 0%nat);
    reflexivity.
Defined.

Lemma low_stock_products_spec_witness :
  empty shelf = false /\
  locate "quantity_in_stock" shelf = Ok 1%nat /\
  exists out,
    @low_stock_products stable_kind shelf = Ok (Table (mkFrame (columns shelf) out)) /\
    @low_stock_below stable_kind 100 shelf = Ok (mkFrame (columns shelf) out) /\
    Permutation (filter (below 1 100) (rows shelf)) out /\
    (forall r, In r out <->
               In r (rows shelf) /\ exists q, cell_at 1 r = CNum q /\ q < 100) /\
    StronglySorted (fun r1 r2 => quantity 1 r1 <= quantity 1 r2) out.
Proof.
  split; [reflexivity|]. split; [reflexivity|].
  apply (proj1 (proj2 (low_stock_products_spec stable_kind stable_contract shelf)) 1%nat).
  - reflexivity.
  - reflexivity.
  - repeat constructor.
Defined.

Lemma unparseable_stock_is_low_stock_witness :
  exists c' i' s',
    @load_data simple_coercions None (Some stockroom) None = Ok (c', i', s') /\
    @to_numeric simple_coercions (cell_at 1 [CStr "A"; CStr "abc"]) = CNaN /\
    0 < 100 /\
    exists row out,
      nth_error (rows i') 0 = Some row /\
      cell_at 1 row = CNum 0 /\
      @low_stock_below stable_kind 100 i' = Ok (mkFrame (columns i') out) /\
      In row out /\
      (forall before after,
          out = before ++ row :: after ->
          Forall (fun r => quantity 1 r <= 0) before) /\
      ((forall r, In r (rows i') -> 0 <= quantity 1 r) ->
       Forall (fun r => quantity 1 row <= quantity 1 r) out).
Proof.
  eexists _, _, _. split; [vm_compute; reflexivity|].
  split; [reflexivity|]. split; [reflexivity|].
  apply (@unparseable_stock_is_low_stock simple_coercions stable_kind stable_contract
           None (Some stockroom) None empty_frame _ empty_frame
           1%nat 0%nat [CStr "A"; CStr "abc"] 100).
  - vm_compute. reflexivity.
  - reflexivity.
  - reflexivity.
  - reflexivity.
  - reflexivity.
Defined.

Lemma top_n_left_join_sorted_witness :
  MergeContract plain_keys /\
  empty orders = false /\ empty clients = false /\
  locate "customer_id" orders = Ok 1%nat /\
  locate "total_amount" orders = Ok 3%nat /\
  locate "customer_id" clients = Ok 0%nat /\
  has_column "total_amount" clients = false /\
  @keys_compatible plain_keys (sales_keys 1 orders) (dim_keys 0 clients) = true /\
  @top_customers stable_kind plain_keys orders clients =
  Ok (Table (mkFrame ["customer_id"; "total_amount"; "customer_name"]
                     [[CNum 8; CNum 60; CStr "Bob"];
                      [CNum 7; CNum 50; CStr "Ann"];
                      [CNum 9; CNum 5; CNaN]])) /\
  exists groups sorted,
    StronglySorted key_lt groups /\
    (forall k, In k groups ->
               isna k = false /\ exists r, In r (rows orders) /\ cell_at 1 r = k) /\
    (forall r, In r (rows orders) -> isna (cell_at 1 r) = false ->
               exists k, In k groups /\ same_key (cell_at 1 r) k) /\
    Permutation (flat_map (join_group 0 clients (group_total 1 3 orders)) groups)
                sorted /\
    StronglySorted (fun r1 r2 => quantity 1 r2 <= quantity 1 r1) sorted /\
    @top_customers stable_kind plain_keys orders clients =
    Ok (Table (mkFrame (["customer_id"; "total_amount"] ++ drop_label 0 (columns clients))
                       (firstn 10 sorted))).
Proof.
  split; [exact plain_contract|]. repeat (split; [reflexivity|]).
  apply (proj1 (top_n_left_join_sorted stable_kind stable_contract plain_keys
                  orders clients goods)
               eq_refl eq_refl 1%nat 3%nat 0%nat).
  - reflexivity.
  - reflexivity.
  - repeat constructor.
  - reflexivity.
  - reflexivity.
  - reflexivity.
Defined.

Lemma top_n_determined_up_to_ties_witness :
  exists m,
    @merged plain_keys "customer_id" orders clients = Ok m /\
    locate "total_amount" m = Ok 1%nat /\
    map (quantity 1) (rows m) = [50; 60; 5] /\
    @top_cust stable_kind plain_keys orders clients =
    @top_cust reversing_kind plain_keys orders clients.
Proof.
  eexists. split; [vm_compute; reflexivity|].
  split; [reflexivity|]. split; [reflexivity|].
  eapply (proj1 (top_n_determined_up_to_ties
                   stable_kind reversing_kind stable_contract reversing_contract
                   plain_keys orders clients goods) _ 1%nat).
  - vm_compute. reflexivity.
  - reflexivity.
  - repeat constructor.
  - intros r1 r2 H1 H2 Hq. simpl in H1, H2.
    destruct H1 as [<-|[<-|[<-|[]]]], H2 as [<-|[<-|[<-|[]]]];
      try reflexivity; vm_compute in Hq; discriminate Hq.
Defined.

(* ================================================================== *)
(** * Further properties *)

(** ** Labels after [load_data] *)

Lemma lstrip_split s :
  exists before, s = (before ++ lstrip s)%string /\ all_space before = true.
Proof.
  induction s as [|a s IH]; simpl.
  - now exists EmptyString.
  - destruct (is_space a) eqn:E.
    + destruct IH as (b & Hb & Hs). exists (String a b). simpl.
      rewrite E, Hs. split; [now rewrite <- Hb|reflexivity].
    + now exists EmptyString.
Qed.

Lemma rstrip_split s :
  exists after, s = (rstrip s ++ after)%string /\ all_space after = true.
Proof.
  induction s as [|a s IH]; [now exists EmptyString|].
  rewrite rstrip_cons. destruct IH as (p & Hp & Hs).
  destruct (rstrip s) as [|b r] eqn:E.
  - simpl in Hp. subst p. destruct (is_space a) eqn:Ea.
    + exists (String a s). simpl. now rewrite Ea, Hs.
    + exists s. now split.
  - exists p. split; [|exact Hs]. simpl. simpl in Hp. now rewrite <- Hp.
Qed.

Lemma rstrip_end s : ends_with_space (rstrip s) = false.
Proof.
  induction s as [|a s IH]; [reflexivity|].
  rewrite rstrip_cons. destruct (rstrip s) as [|b r] eqn:E.
  - destruct (is_space a) eqn:Ea; simpl; [reflexivity|exact Ea].
  - exact IH.
Qed.

Lemma strip_start s : starts_with_space (strip s) = false.
Proof.
  unfold strip. destruct (lstrip_head s) as [->|(a & r & -> & Ha)]; [reflexivity|].
  destruct (rstrip_head a r Ha) as [r' ->]. exact Ha.
Qed.

Lemma strip_trimmed s : trimmed s (strip s).
Proof.
  destruct (lstrip_split s) as (b & Hb & Hbs).
  destruct (rstrip_split (lstrip s)) as (a & Ha & Has).
  exists b, a. unfold strip. split; [now rewrite <- Ha|].
  split; [exact Hbs|]. split; [exact Has|].
  split; [apply strip_start|apply rstrip_end].
Qed.

Lemma strip_columns_trimmed df :
  Forall2 trimmed (columns df) (columns (strip_columns df)).
Proof.
  unfold strip_columns. simpl. induction (columns df) as [|c t IH]; simpl;
    constructor; [apply strip_trimmed|exact IH].
Qed.

Section FurtherNormalizer.
Context {P : Coercions}.

Lemma normalize_columns customers inventory sales c' i' s' :
  normalize customers inventory sales = Ok (c', i', s') ->
  columns c' = columns (strip_columns customers) /\
  columns i' = columns (strip_columns inventory) /\
  columns s' = columns (strip_columns sales).
Proof.
  intros H.
  destruct (normalize_steps _ _ _ _ _ _ H) as (s1 & s2 & i1 & H1 & H2 & H3 & H4 & H5 & H6).
  apply coerce_columns in H1, H2, H3, H4, H5, H6. repeat split; congruence.
Qed.

(** X1.  [load_data] keeps the number and the order of the columns of each
    table, and each label is the label of the file without the whitespace
    around it: nothing but whitespace is removed, and only at the two ends.
    Whitespace is that of [str.strip], the no-break space included. *)
Theorem load_data_trims_labels customers_csv inventory_csv sales_csv c' i' s' :
  load_data customers_csv inventory_csv sales_csv = Ok (c', i', s') ->
  Forall2 trimmed (columns (read_csv_if_exists customers_csv)) (columns c') /\
  Forall2 trimmed (columns (read_csv_if_exists inventory_csv)) (columns i') /\
  Forall2 trimmed (columns (read_csv_if_exists sales_csv)) (columns s').
Proof.
  unfold load_data. intros H.
  destruct (normalize_columns _ _ _ _ _ _ H) as (-> & -> & ->).
  repeat split; apply strip_columns_trimmed.
Qed.

(** X2.  [load_data] changes no column but the six it coerces: under every
    other label the normalized table holds the cells the file had. *)
Theorem load_data_keeps_other_columns customers_csv inventory_csv sales_csv c' i' s' :
  load_data customers_csv inventory_csv sales_csv = Ok (c', i', s') ->
  (forall label, ~ In label ["join_date"] ->
     getitem c' label =
     getitem (strip_columns (read_csv_if_exists customers_csv)) label) /\
  (forall label, ~ In label ["price_per_unit"; "quantity_in_stock"] ->
     getitem i' label =
     getitem (strip_columns (read_csv_if_exists inventory_csv)) label) /\
  (forall label, ~ In label ["sale_date"; "total_amount"; "quantity"] ->
     getitem s' label =
     getitem (strip_columns (read_csv_if_exists sales_csv)) label).
Proof.
  unfold load_data. intros H.
  destruct (normalize_steps _ _ _ _ _ _ H) as (s1 & s2 & i1 & H1 & H2 & H3 & H4 & H5 & H6).
  assert (Other : forall (label name : string) (l : list string),
             ~ In label l -> In name l -> label <> name)
    by (intros label name l Hn Hin ->; exact (Hn Hin)).
  split; [|split]; intros label Hn.
  - apply (coerce_getitem_other _ _ _ _ label H2).
    apply (Other _ _ _ Hn). simpl. tauto.
  - rewrite (coerce_getitem_other _ _ _ _ label H6)
      by (apply (Other _ _ _ Hn); simpl; tauto).
    apply (coerce_getitem_other _ _ _ _ label H5).
    apply (Other _ _ _ Hn). simpl. tauto.
  - rewrite (coerce_getitem_other _ _ _ _ label H4)
      by (apply (Other _ _ _ Hn); simpl; tauto).
    rewrite (coerce_getitem_other _ _ _ _ label H3)
      by (apply (Other _ _ _ Hn); simpl; tauto).
    apply (coerce_getitem_other _ _ _ _ label H1).
    apply (Other _ _ _ Hn). simpl. tauto.
Qed.

(** X3.  After [load_data] the date columns [sale_date] and [join_date],
    when present, hold row by row the date read from the cell of the file: a
    timestamp, or the missing marker when the cell does not parse, never a
    number or a text. *)
Theorem date_coercion_marks_missing customers_csv inventory_csv sales_csv c' i' s' :
  load_data customers_csv inventory_csv sales_csv = Ok (c', i', s') ->
  (forall col,
      getitem (strip_columns (read_csv_if_exists sales_csv)) "sale_date" = Ok col ->
      getitem s' "sale_date" = Ok (map to_datetime col)) /\
  (forall col,
      getitem (strip_columns (read_csv_if_exists customers_csv)) "join_date" = Ok col ->
      getitem c' "join_date" = Ok (map to_datetime col)) /\
  (forall c, datetime_or_missing (to_datetime c) = true) /\
  (forall s, datetime_of_string s = None -> to_datetime (CStr s) = CNaN).
Proof.
  unfold load_data. intros H. split; [|split; [|split]].
  - intros col. exact (normalize_sale_date _ _ _ _ _ _ col H).
  - intros col Hg.
    destruct (normalize_steps _ _ _ _ _ _ H) as (s1 & s2 & i1 & _ & H2 & _).
    exact (coerce_getitem_same _ _ _ _ _ H2 Hg).
  - intros [s|q|t|]; simpl; try reflexivity.
    + now destruct (datetime_of_string s).
    + now destruct (datetime_of_number q).
  - intros s Hs. simpl. now rewrite Hs.
Qed.

End FurtherNormalizer.

(** ** More on the monthly trend *)

Lemma in_firstn_in {A : Type} n (l : list A) x : In x (firstn n l) -> In x l.
Proof.
  revert l. induction n as [|n IH]; intros [|a t]; simpl; try contradiction.
  intros [->|H]; auto.
Qed.

Lemma in_skipn_in {A : Type} n (l : list A) x : In x (skipn n l) -> In x l.
Proof.
  revert l. induction n as [|n IH]; intros [|a t]; simpl; auto.
Qed.

Lemma count_positive n : 0 < inject_Z (Z.of_nat (S n)).
Proof. unfold Qlt. simpl. lia. Qed.

Lemma count_succ n :
  inject_Z (Z.of_nat (S n)) == inject_Z (Z.of_nat n) + 1.
Proof. rewrite Nat2Z.inj_succ. unfold Z.succ. now rewrite inject_Z_plus. Qed.

Lemma Qsum_bounds l lo hi :
  (forall x, In x l -> lo <= x /\ x <= hi) ->
  inject_Z (Z.of_nat (length l)) * lo <= Qsum l /\
  Qsum l <= inject_Z (Z.of_nat (length l)) * hi.
Proof.
  induction l as [|a t IH]; intros H.
  - simpl. split; rewrite Qmult_0_l; apply Qle_refl.
  - destruct (H a (or_introl eq_refl)) as [Ha1 Ha2].
    destruct IH as [IH1 IH2]; [intros; apply H; now right|].
    cbn [length Qsum fold_right]. fold (Qsum t). rewrite count_succ. split.
    + setoid_replace ((inject_Z (Z.of_nat (length t)) + 1) * lo)
        with (lo + inject_Z (Z.of_nat (length t)) * lo) by ring.
      now apply Qplus_le_compat.
    + setoid_replace ((inject_Z (Z.of_nat (length t)) + 1) * hi)
        with (hi + inject_Z (Z.of_nat (length t)) * hi) by ring.
      now apply Qplus_le_compat.
Qed.

Lemma Qmean_bounds l lo hi :
  l <> [] ->
  (forall x, In x l -> lo <= x /\ x <= hi) ->
  lo <= Qmean l /\ Qmean l <= hi.
Proof.
  intros Hne H. destruct (Qsum_bounds l lo hi H) as [H1 H2].
  destruct l as [|a t]; [congruence|]. unfold Qmean. split.
  - apply Qle_shift_div_l; [apply count_positive|]. now rewrite Qmult_comm.
  - apply Qle_shift_div_r; [apply count_positive|]. now rewrite Qmult_comm.
Qed.

Lemma trailing_mean_bounds revenue j lo hi :
  (j < length revenue)%nat ->
  (forall x, In x revenue -> lo <= x /\ x <= hi) ->
  lo <= trailing_mean revenue j /\ trailing_mean revenue j <= hi.
Proof.
  intros Hj H. unfold trailing_mean. apply Qmean_bounds.
  - intros E. apply (f_equal (@length Q)) in E.
    rewrite length_skipn, length_firstn in E. simpl in E. lia.
  - intros x Hx. apply H. eapply in_firstn_in, in_skipn_in, Hx.
Qed.

Lemma trend_rows_revenue months revenue average :
  length revenue = length months -> length average = length months ->
  map (quantity 1) (trend_rows months revenue average) = revenue /\
  map (quantity 2) (trend_rows months revenue average) = average /\
  Forall (fun r => numeric (cell_at 2 r) = true) (trend_rows months revenue average).
Proof.
  revert revenue average.
  induction months as [|m t IH]; intros [|v vs] [|a avs] H1 H2; try discriminate.
  - repeat split. constructor.
  - simpl in H1, H2. destruct (IH vs avs) as (E1 & E2 & E3); try lia.
    cbn [trend_rows map]. rewrite E1, E2. repeat split. now constructor.
Qed.

Lemma monthly_trend_table sales di ti :
  empty sales = false ->
  locate "sale_date" sales = Ok di ->
  locate "total_amount" sales = Ok ti ->
  locate "sale_month" sales <> Err ValueError ->
  Forall (fun r => datetime_or_missing (cell_at di r) = true) (rows sales) ->
  Forall (fun r => numeric_or_missing (cell_at ti r) = true) (rows sales) ->
  exists months revenue average,
    monthly_trend sales =
    Ok (Table (mkFrame ["sale_month"; "total_amount"; "ma3"]
                       (trend_rows months revenue average))) /\
    revenue = map (bucket_revenue di ti sales) months /\
    average = map (trailing_mean revenue) (seq 0 (length revenue)) /\
    StronglySorted ts_lt months /\
    (forall m, In m months <-> In m (present (map (sale_month di) (rows sales)))).
Proof.
  intros He Hd Ht Hm Hdate Hnum.
  destruct (monthly_spec sales di ti Hd Ht Hm Hdate Hnum) as (months & Hmo & Hs & Hin).
  exists months, (map (bucket_revenue di ti sales) months),
    (map (trailing_mean (map (bucket_revenue di ti sales) months))
         (seq 0 (length (map (bucket_revenue di ti sales) months)))).
  split; [|auto]. unfold monthly_trend. rewrite He. cbn [negb]. rewrite Hmo.
  cbn [bind]. now rewrite (ma3_spec months (bucket_revenue di ti sales)).
Qed.

(** X7.  Every bucket of the trend has a moving average, a number that lies
    between any two bounds of the monthly revenues, and the moving average
    of the first bucket is its revenue. *)
Theorem moving_average_within_revenues sales di ti t lo hi :
  empty sales = false ->
  locate "sale_date" sales = Ok di ->
  locate "total_amount" sales = Ok ti ->
  locate "sale_month" sales <> Err ValueError ->
  Forall (fun r => datetime_or_missing (cell_at di r) = true) (rows sales) ->
  Forall (fun r => numeric_or_missing (cell_at ti r) = true) (rows sales) ->
  monthly_trend sales = Ok (Table t) ->
  (forall r, In r (rows t) -> lo <= quantity 1 r /\ quantity 1 r <= hi) ->
  (forall r, In r (rows t) ->
             numeric (cell_at 2 r) = true /\
             lo <= quantity 2 r /\ quantity 2 r <= hi) /\
  (forall r rest, rows t = r :: rest -> quantity 2 r == quantity 1 r).
Proof.
  intros He Hd Ht Hm Hdate Hnum Htrend Hb.
  destruct (monthly_trend_table sales di ti He Hd Ht Hm Hdate Hnum)
    as (months & revenue & average & Hmt & Hrev & Havg & Hs & Hin).
  rewrite Hmt in Htrend. injection Htrend as <-. cbn [rows] in *.
  assert (L1 : length revenue = length months) by (subst revenue; apply length_map).
  assert (L2 : length average = length months)
    by (subst average; now rewrite length_map, length_seq).
  destruct (trend_rows_revenue months revenue average L1 L2) as (E1 & E2 & E3).
  assert (Hrevb : forall x, In x revenue -> lo <= x /\ x <= hi).
  { intros x Hx. rewrite <- E1 in Hx. apply in_map_iff in Hx.
    destruct Hx as (r & <- & Hr). now apply Hb. }
  split.
  - intros r Hr. split; [rewrite Forall_forall in E3; now apply E3|].
    assert (Ha : In (quantity 2 r) average)
      by (rewrite <- E2; now apply in_map).
    rewrite Havg in Ha. apply in_map_iff in Ha. destruct Ha as (j & <- & Hj).
    apply in_seq in Hj. apply trailing_mean_bounds; [lia|exact Hrevb].
  - intros r rest Erows.
    destruct months as [|m ms]; [discriminate|].
    destruct revenue as [|v vs]; [discriminate|].
    rewrite Havg in Erows. cbn [length seq map trend_rows] in Erows.
    injection Erows as <- _. unfold quantity, trailing_mean, Qmean. cbn.
    field.
Qed.

(** X8.  A sales table that has rows, none of them with a date, has a trend
    table without rows: neither the notice of the empty table nor an error. *)
Theorem monthly_trend_without_dates sales di ti :
  empty sales = false ->
  locate "sale_date" sales = Ok di ->
  locate "total_amount" sales = Ok ti ->
  locate "sale_month" sales <> Err ValueError ->
  Forall (fun r => cell_at di r = CNaN) (rows sales) ->
  Forall (fun r => numeric_or_missing (cell_at ti r) = true) (rows sales) ->
  monthly_trend sales =
  Ok (Table (mkFrame ["sale_month"; "total_amount"; "ma3"] [])).
Proof.
  intros He Hd Ht Hm Hnone Hnum.
  assert (Hdate : Forall (fun r => datetime_or_missing (cell_at di r) = true)
                         (rows sales)).
  { eapply Forall_impl; [|exact Hnone]. intros r Hr. simpl in Hr. now rewrite Hr. }
  destruct (monthly_trend_table sales di ti He Hd Ht Hm Hdate Hnum)
    as (months & revenue & average & Hmt & Hrev & Havg & Hs & Hin).
  assert (Hnil : months = []).
  { destruct months as [|m ms]; [reflexivity|]. exfalso.
    assert (Hm0 : In m (present (map (sale_month di) (rows sales))))
      by (apply Hin; now left).
    apply in_present, in_map_iff in Hm0. destruct Hm0 as (r & Hr & Hrin).
    rewrite Forall_forall in Hnone. unfold sale_month in Hr.
    rewrite (Hnone r Hrin) in Hr. discriminate. }
  rewrite Hmt. now subst months.
Qed.

(** ** More on the rankings *)

Lemma same_key_eqb a b x : same_key a b -> cell_eqb a x = cell_eqb b x.
Proof.
  unfold same_key. intros H. apply cell_eqb_compare in H.
  unfold cell_eqb. now rewrite (cmp_eq_compat _ cell_order _ _ x H).
Qed.

Lemma at_most_one_match ci dim k :
  distinct_keys ci dim ->
  (length (filter (fun c => cell_eqb k (cell_at ci c)) (rows dim)) <= 1)%nat.
Proof.
  unfold distinct_keys. induction 1 as [|c t Hc Ht IH]; simpl; [lia|].
  destruct (cell_eqb k (cell_at ci c)) eqn:E; [|exact IH].
  assert (Hnone : filter (fun c => cell_eqb k (cell_at ci c)) t = []).
  { destruct (filter (fun c => cell_eqb k (cell_at ci c)) t) as [|c2 rest] eqn:Ef;
      [reflexivity|]. exfalso.
    assert (Hin : In c2 (filter (fun c => cell_eqb k (cell_at ci c)) t))
      by (rewrite Ef; now left).
    apply filter_In in Hin. destruct Hin as [Hin Hk].
    rewrite Forall_forall in Hc. specialize (Hc c2 Hin).
    rewrite <- (same_key_eqb k (cell_at ci c) (cell_at ci c2) E) in Hc. congruence. }
  rewrite Hnone. simpl. lia.
Qed.

Lemma join_group_single ci dim total k :
  distinct_keys ci dim -> length (join_group ci dim total k) = 1%nat.
Proof.
  intros H. pose proof (at_most_one_match ci dim k H) as Hl. unfold join_group.
  destruct (filter (fun c => cell_eqb k (cell_at ci c)) (rows dim)) as [|m [|m' ms]];
    simpl in *; try reflexivity. lia.
Qed.

Lemma length_flat_map_single {A B : Type} (f : A -> list B) (l : list A) :
  (forall a, length (f a) = 1%nat) -> length (flat_map f l) = length l.
Proof.
  intros H. induction l as [|a t IH]; simpl; [reflexivity|].
  now rewrite length_app, H, IH.
Qed.

Section FurtherRanking.
Context {S : SortKind} {C : SortContract S} {M : MergeKeys}.

Lemma ranking_length key sales dim ki vi ci :
  key <> "total_amount" ->
  locate key sales = Ok ki ->
  locate "total_amount" sales = Ok vi ->
  Forall (fun r => numeric_or_missing (cell_at vi r) = true) (rows sales) ->
  locate key dim = Ok ci ->
  has_column "total_amount" dim = false ->
  keys_compatible (sales_keys ki sales) (dim_keys ci dim) = true ->
  exists t,
    ranking key sales dim = Ok t /\
    (length (rows t) <= 10)%nat /\
    (distinct_keys ci dim ->
     length (rows t) = Nat.min 10 (length (sales_keys ki sales))).
Proof.
  intros Hkey Hk Hv Hnum Hc Hno Hok.
  destruct (ranking_spec key sales dim ki vi ci Hkey Hk Hv Hnum Hc Hno Hok)
    as (sorted & Hr & Hperm & _).
  eexists. split; [exact Hr|]. cbn [rows]. rewrite length_firstn. split; [lia|].
  intros Hd. rewrite <- (Permutation_length Hperm).
  rewrite (length_flat_map_single _ _ (fun k => join_group_single ci dim _ k Hd)).
  reflexivity.
Qed.

(** X9.  When the customers (resp. inventory) table has no [total_amount]
    column and [merge] accepts the two key columns, the Top-N table has at
    most 10 rows; when moreover no two rows of the customers (resp.
    inventory) table carry the same key, it has one row for each customer
    (resp. product) of the sales table, up to 10. *)
Theorem top_n_one_row_per_group sales customers inventory :
  (forall ki vi ci,
      empty sales = false -> empty customers = false ->
      locate "customer_id" sales = Ok ki ->
      locate "total_amount" sales = Ok vi ->
      Forall (fun r => numeric_or_missing (cell_at vi r) = true) (rows sales) ->
      locate "customer_id" customers = Ok ci ->
      has_column "total_amount" customers = false ->
      keys_compatible (sales_keys ki sales) (dim_keys ci customers) = true ->
      exists t,
        top_customers sales customers = Ok (Table t) /\
        (length (rows t) <= 10)%nat /\
        (distinct_keys ci customers ->
         length (rows t) = Nat.min 10 (length (sales_keys ki sales)))) /\
  (forall ki vi ci,
      empty sales = false -> empty inventory = false ->
      locate "product_id" sales = Ok ki ->
      locate "total_amount" sales = Ok vi ->
      Forall (fun r => numeric_or_missing (cell_at vi r) = true) (rows sales) ->
      locate "product_id" inventory = Ok ci ->
      has_column "total_amount" inventory = false ->
      keys_compatible (sales_keys ki sales) (dim_keys ci inventory) = true ->
      exists t,
        top_products sales inventory = Ok (Table t) /\
        (length (rows t) <= 10)%nat /\
        (distinct_keys ci inventory ->
         length (rows t) = Nat.min 10 (length (sales_keys ki sales)))).
Proof.
  split; intros ki vi ci Hs Hd Hk Hv Hnum Hc Hno Hok.
  - destruct (ranking_length "customer_id" sales customers ki vi ci
                ltac:(discriminate) Hk Hv Hnum Hc Hno Hok) as (t & Hr & Hl).
    exists t. split; [|exact Hl]. unfold top_customers. rewrite Hs, Hd.
    cbn [negb andb]. now rewrite top_cust_ranking, Hr.
  - destruct (ranking_length "product_id" sales inventory ki vi ci
                ltac:(discriminate) Hk Hv Hnum Hc Hno Hok) as (t & Hr & Hl).
    exists t. split; [|exact Hl]. unfold top_products. rewrite Hs, Hd.
    cbn [negb andb]. now rewrite top_prod_ranking, Hr.
Qed.

End FurtherRanking.

(** X10.  Where [merge] accepts the two [customer_id] columns, the orphan
    check and the left join of the customer ranking agree: a sale with a
    customer id that is reported as orphaned belongs to a group that no row
    of the customers table matches, and the joined row of that group has
    missing attributes; a sale that is not reported belongs to a group that
    is joined with a matching customer row. *)
Theorem orphans_are_unmatched_groups (M : MergeKeys) sales customers ki vi ci :
  locate "customer_id" sales = Ok ki ->
  locate "total_amount" sales = Ok vi ->
  Forall (fun r => numeric_or_missing (cell_at vi r) = true) (rows sales) ->
  locate "customer_id" customers = Ok ci ->
  has_column "total_amount" customers = false ->
  keys_compatible (sales_keys ki sales) (dim_keys ci customers) = true ->
  let total := group_total ki vi sales in
  exists m,
    merged "customer_id" sales customers = Ok m /\
    forall r, In r (rows sales) -> isna (cell_at ki r) = false ->
      exists k,
        same_key (cell_at ki r) k /\
        (In r (orphans ki ci sales customers) ->
         In (unmatched_row customers total k) (rows m) /\
         forall c, In c (rows customers) -> cell_eqb k (cell_at ci c) = false) /\
        (~ In r (orphans ki ci sales customers) ->
         exists c, In c (rows customers) /\
                   cell_eqb k (cell_at ci c) = true /\
                   In (matched_row ci customers total k c) (rows m)).
Proof.
  intros Hk Hv Hnum Hc Hno Hok total.
  rewrite (merged_spec "customer_id" sales customers ki vi ci) by
    (assumption || discriminate).
  eexists. split; [reflexivity|]. cbn [rows]. unfold sales_keys. intros r Hr Hna.
  destruct (group_keys_covers (map (cell_at ki) (keyed_rows ki sales)) (cell_at ki r))
    as (k & Hin & Hsame).
  { apply in_map. apply filter_In. split; [exact Hr|]. now rewrite Hna. }
  exists k. split; [exact Hsame|].
  assert (Horph : In r (orphans ki ci sales customers) <->
                  forall c, In c (rows customers) -> cell_eqb k (cell_at ci c) = false).
  { unfold orphans. rewrite filter_In, forallb_forall. split.
    - intros [_ H] c Hcin. rewrite <- (same_key_eqb _ _ _ Hsame).
      apply negb_true_iff. now apply H.
    - intros H. split; [exact Hr|]. intros c Hcin. apply negb_true_iff.
      rewrite (same_key_eqb _ _ _ Hsame). now apply H. }
  split.
  - intros Ho. pose proof (proj1 Horph Ho) as Hun. split; [|exact Hun].
    apply in_flat_map. exists k. split; [exact Hin|].
    rewrite (join_group_unmatched _ _ _ _ Hun). now left.
  - intros Hn.
    destruct (existsb (fun c => cell_eqb k (cell_at ci c)) (rows customers)) eqn:E.
    + apply existsb_exists in E. destruct E as (c & Hcin & Hm).
      exists c. split; [exact Hcin|]. split; [exact Hm|].
      apply in_flat_map. exists k. split; [exact Hin|].
      now apply join_group_matched.
    + exfalso. apply Hn. apply Horph. intros c Hcin.
      destruct (cell_eqb k (cell_at ci c)) eqn:Ec; [|reflexivity].
      assert (existsb (fun c => cell_eqb k (cell_at ci c)) (rows customers) = true)
        by (apply existsb_exists; eauto).
      congruence.
Qed.

Section RankingClash.
Context {S : SortKind} {M : MergeKeys}.

(** X11.  When the customers (resp. inventory) table has a column named
    [total_amount] of its own, the Top-N section raises instead of showing
    a ranking: the merge renames both [total_amount] columns and
    [sort_values] raises [KeyError] on [total_amount]; when the merge
    refuses the two key columns it is the merge that raises, with
    [ValueError]. *)
Theorem top_n_raises_on_revenue_clash sales customers inventory :
  (forall ki vi ci,
      empty sales = false -> empty customers = false ->
      locate "customer_id" sales = Ok ki ->
      locate "total_amount" sales = Ok vi ->
      Forall (fun r => numeric_or_missing (cell_at vi r) = true) (rows sales) ->
      locate "customer_id" customers = Ok ci ->
      has_column "total_amount" customers = true ->
      top_customers sales customers =
      Err (if keys_compatible (sales_keys ki sales) (dim_keys ci customers)
           then KeyError "total_amount" else ValueError)) /\
  (forall ki vi ci,
      empty sales = false -> empty inventory = false ->
      locate "product_id" sales = Ok ki ->
      locate "total_amount" sales = Ok vi ->
      Forall (fun r => numeric_or_missing (cell_at vi r) = true) (rows sales) ->
      locate "product_id" inventory = Ok ci ->
      has_column "total_amount" inventory = true ->
      top_products sales inventory =
      Err (if keys_compatible (sales_keys ki sales) (dim_keys ci inventory)
           then KeyError "total_amount" else ValueError)).
Proof.
  split; intros ki vi ci Hs Hd Hk Hv Hnum Hc Hhas.
  - unfold top_customers. rewrite Hs, Hd. cbn [negb andb].
    rewrite top_cust_ranking.
    destruct (keys_compatible (sales_keys ki sales) (dim_keys ci customers)) eqn:Hok.
    + now rewrite (ranking_clash "customer_id" sales customers ki vi ci
                     ltac:(discriminate) Hk Hv Hnum Hc Hhas Hok).
    + now rewrite (ranking_refused "customer_id" sales customers ki vi ci
                     ltac:(discriminate) Hk Hv Hnum Hc Hok).
  - unfold top_products. rewrite Hs, Hd. cbn [negb andb].
    rewrite top_prod_ranking.
    destruct (keys_compatible (sales_keys ki sales) (dim_keys ci inventory)) eqn:Hok.
    + now rewrite (ranking_clash "product_id" sales inventory ki vi ci
                     ltac:(discriminate) Hk Hv Hnum Hc Hhas Hok).
    + now rewrite (ranking_refused "product_id" sales inventory ki vi ci
                     ltac:(discriminate) Hk Hv Hnum Hc Hok).
Qed.

End RankingClash.

(** ** More on the quality checks and on low stock *)

(** X12.  On a sales table that has its [sale_id] column and a numeric
    [total_amount] column, the negative-amounts check shows the pairs
    (sale_id, total_amount) of exactly the rows whose amount is below 0, in
    the order of the table, and answers that no negative sale was found
    exactly when there is none. *)
Theorem negative_amounts_spec sales si ti :
  locate "sale_id" sales = Ok si ->
  locate "total_amount" sales = Ok ti ->
  Forall (fun r => numeric_or_missing (cell_at ti r) = true) (rows sales) ->
  (forall r, In r (negatives ti sales) <->
             In r (rows sales) /\ exists q, cell_at ti r = CNum q /\ q < 0) /\
  (negatives ti sales <> [] ->
   negative_amounts sales =
   Ok (Table (mkFrame ["sale_id"; "total_amount"]
                      (map (fun r => [cell_at si r; cell_at ti r])
                           (negatives ti sales))))) /\
  (negatives ti sales = [] ->
   negative_amounts sales = Ok (Success "No negative sales found")).
Proof.
  intros Hs Ht Hnum.
  assert (Hneg : forall r, In r (negatives ti sales) <->
                   In r (rows sales) /\ exists q, cell_at ti r = CNum q /\ q < 0).
  { intros r. unfold negatives. rewrite filter_In. apply and_iff_compat_l.
    exact (below_spec ti 0 r). }
  assert (Hnum' : Forall (fun r => exists o, as_number (cell_at ti r) = Ok o) (rows sales)).
  { eapply Forall_impl; [|exact Hnum]. intros r Hr. simpl in Hr.
    rewrite (as_number_num_key _ Hr). eauto. }
  split; [exact Hneg|]. split.
  - intros Hne. unfold negative_amounts.
    rewrite (neg_negatives sales si ti Hs Ht Hnum'). cbn [bind].
    destruct (negatives ti sales); [congruence|reflexivity].
  - intros Hnil. unfold negative_amounts.
    rewrite (neg_negatives sales si ti Hs Ht Hnum'). cbn [bind].
    now rewrite Hnil.
Qed.

Section FurtherLowStock.
Context {S : SortKind} {C : SortContract S}.

(** X13.  The low-stock table grows with the threshold: every row shown
    for a threshold is shown for any larger one.  Rows whose quantity is
    missing, or equal to the threshold or above it, are never shown. *)
Theorem low_stock_grows_with_threshold inventory i t1 t2 :
  locate "quantity_in_stock" inventory = Ok i ->
  Forall (fun r => numeric_or_missing (cell_at i r) = true) (rows inventory) ->
  t1 <= t2 ->
  exists f1 f2,
    low_stock_below t1 inventory = Ok f1 /\
    low_stock_below t2 inventory = Ok f2 /\
    incl (rows f1) (rows f2) /\
    (forall r, In r (rows inventory) ->
               cell_at i r = CNaN \/ (exists q, cell_at i r = CNum q /\ t2 <= q) ->
               ~ In r (rows f2)).
Proof.
  intros Hl Hnum Hle.
  destruct (low_stock_below_spec t1 inventory i Hl Hnum) as (o1 & E1 & _ & In1 & _).
  destruct (low_stock_below_spec t2 inventory i Hl Hnum) as (o2 & E2 & _ & In2 & _).
  exists (mkFrame (columns inventory) o1), (mkFrame (columns inventory) o2).
  split; [exact E1|]. split; [exact E2|]. cbn [rows]. split.
  - intros r Hr. apply In1 in Hr. destruct Hr as (Hr & q & Hq & Hlt).
    apply In2. split; [exact Hr|]. exists q. split; [exact Hq|].
    exact (Qlt_le_trans _ _ _ Hlt Hle).
  - intros r Hr Hcase Hin. apply In2 in Hin. destruct Hin as (_ & q & Hq & Hlt).
    destruct Hcase as [Hna|(q' & Hq' & Hge)]; [congruence|].
    rewrite Hq in Hq'. injection Hq' as <-. exact (Qlt_not_le _ _ Hlt Hge).
Qed.

End FurtherLowStock.

(** ** The sidebar *)

Lemma not_lt_trans {A : Type} (cmp : A -> A -> comparison) :
  order_laws cmp ->
  forall a b c, cmp a b <> Lt -> cmp b c <> Lt -> cmp a c <> Lt.
Proof.
  intros L a b c Hab Hbc Hac.
  destruct (cmp b c) eqn:Ebc; [| congruence |].
  - rewrite <- (cmp_eq_compat_r _ L _ _ a Ebc) in Hac. congruence.
  - assert (Hcb : cmp c b = Lt) by (rewrite (cmp_antisym _ L b c), Ebc; reflexivity).
    exact (Hab (cmp_lt_trans _ L _ _ _ Hac Hcb)).
Qed.

Lemma gt_is_lt {A : Type} (cmp : A -> A -> comparison) :
  order_laws cmp -> forall a b, cmp a b = Gt <-> cmp b a = Lt.
Proof.
  intros L a b. rewrite (cmp_antisym _ L b a). destruct (cmp b a); simpl;
    split; congruence.
Qed.

(** The smallest value has nothing below it, the largest nothing above. *)
Lemma extreme_spec (better : comparison -> bool) best col :
  better = is_lt \/ better = is_gt ->
  (forall c, In c col -> isna c = true \/ cell_rank c = cell_rank best) ->
  exists m,
    extreme better best col = Ok m /\
    In m (best :: dropna col) /\
    forall x, In x (best :: dropna col) -> better (cell_compare x m) = false.
Proof.
  intros Hb. revert best. induction col as [|c t IH]; intros best Hrank.
  - exists best. split; [reflexivity|]. split; [now left|].
    intros x [<-|[]]. rewrite (cmp_refl _ cell_order). now destruct Hb as [->| ->].
  - cbn [extreme dropna filter]. destruct (isna c) eqn:Ena; cbn [negb].
    + apply IH. intros; apply Hrank; now right.
    + destruct (Hrank c (or_introl eq_refl)) as [Hn|Hr]; [congruence|].
      rewrite Hr, Nat.eqb_refl.
      set (b' := if better (cell_compare c best) then c else best).
      destruct (IH b') as (m & Hm & Hin & Hall).
      { intros c' Hc'. destruct (Hrank c' (or_intror Hc')) as [Hn'|Hr']; [now left|].
        right. unfold b'. destruct (better (cell_compare c best)); congruence. }
      exists m. split; [exact Hm|]. split.
      { destruct Hin as [<-|Hin].
        - unfold b'. destruct (better (cell_compare c best)); simpl; auto.
        - right. now right. }
      assert (Hb' : better (cell_compare b' m) = false) by (apply Hall; now left).
      assert (Two : better (cell_compare best m) = false /\
                    better (cell_compare c m) = false).
      { unfold b' in Hb'. destruct Hb as [->| ->].
        - destruct (cell_compare c best) eqn:Ecb; cbn [is_lt] in Hb'.
          + split; [exact Hb'|].
            now rewrite (cmp_eq_compat _ cell_order _ _ m Ecb).
          + split; [|exact Hb'].
            destruct (cell_compare best m) eqn:E; try reflexivity. exfalso.
            pose proof (cmp_lt_trans _ cell_order _ _ _ Ecb E) as Hcm.
            rewrite Hcm in Hb'. discriminate.
          + split; [exact Hb'|].
            destruct (cell_compare c m) eqn:E; try reflexivity. exfalso.
            assert (H1 : cell_compare c best <> Lt) by congruence.
            assert (H2 : cell_compare best m <> Lt)
              by (intro H2; rewrite H2 in Hb'; discriminate).
            exact (not_lt_trans _ cell_order _ _ _ H1 H2 E).
        - destruct (cell_compare c best) eqn:Ecb; cbn [is_gt] in Hb'.
          + split; [exact Hb'|].
            now rewrite (cmp_eq_compat _ cell_order _ _ m Ecb).
          + split; [exact Hb'|].
            destruct (cell_compare c m) eqn:E; try reflexivity. exfalso.
            apply (gt_is_lt _ cell_order) in E.
            assert (H1 : cell_compare m best <> Lt).
            { intro H1. apply (gt_is_lt _ cell_order) in H1.
              rewrite H1 in Hb'. discriminate. }
            assert (H2 : cell_compare best c <> Lt).
            { intro H2. apply (gt_is_lt _ cell_order) in H2. congruence. }
            exact (not_lt_trans _ cell_order _ _ _ H1 H2 E).
          + split; [|exact Hb'].
            destruct (cell_compare best m) eqn:E; try reflexivity. exfalso.
            apply (gt_is_lt _ cell_order) in E.
            assert (H1 : cell_compare m c <> Lt).
            { intro H1. apply (gt_is_lt _ cell_order) in H1.
              rewrite H1 in Hb'. discriminate. }
            assert (H2 : cell_compare c best <> Lt) by congruence.
            exact (not_lt_trans _ cell_order _ _ _ H1 H2 E). }
      intros x [<-|[<-|Hx]]; [apply Two|apply Two|].
      apply Hall. now right.
Qed.

Lemma dates_one_rank col :
  Forall (fun c => datetime_or_missing c = true) col ->
  forall best, In best (dropna col) ->
  forall c, In c col -> isna c = true \/ cell_rank c = cell_rank best.
Proof.
  intros H best Hb c Hc. unfold dropna in Hb. apply filter_In in Hb.
  destruct Hb as [Hb Hnb]. rewrite Forall_forall in H.
  pose proof (H best Hb) as T1. pose proof (H c Hc) as T2.
  destruct best; try discriminate; destruct c; try discriminate; auto.
Qed.

Lemma series_extreme_spec (better : comparison -> bool) col c t :
  better = is_lt \/ better = is_gt ->
  Forall (fun c => datetime_or_missing c = true) col ->
  dropna col = c :: t ->
  exists m,
    extreme better c t = Ok m /\ In m (dropna col) /\
    forall x, In x (dropna col) -> better (cell_compare x m) = false.
Proof.
  intros Hb Hd E.
  assert (Hc : In c (dropna col)) by (rewrite E; now left).
  destruct (extreme_spec better c t Hb) as (m & Hm & Hin & Hall).
  { intros x Hx. apply (dates_one_rank col Hd c Hc).
    assert (Hx' : In x (dropna col)) by (rewrite E; now right).
    unfold dropna in Hx'. now apply filter_In in Hx'. }
  assert (Et : dropna t = t).
  { assert (Hf : forall x, In x t -> negb (isna x) = true).
    { intros x Hx. assert (Hx' : In x (dropna col)) by (rewrite E; now right).
      unfold dropna in Hx'. now apply filter_In in Hx'. }
    unfold dropna. clear - Hf. induction t as [|x t IH]; [reflexivity|].
    simpl. rewrite (Hf x (or_introl eq_refl)). f_equal. apply IH.
    intros; apply Hf; now right. }
  rewrite Et in Hin, Hall. rewrite E. eauto.
Qed.

(** X14.  For a sales table with a datetime [sale_date] column, the date
    range of the sidebar is, when the page is first run, the day of the
    earliest sale to the day of the latest: both bounds are dates of sales
    and no sale is dated before the first or after the second.  With rows
    but no dated sale the sidebar raises [ValueError], and with no sale at
    all there is no range. *)
Theorem date_range_covers_sales sales di :
  locate "sale_date" sales = Ok di ->
  Forall (fun r => datetime_or_missing (cell_at di r) = true) (rows sales) ->
  (empty sales = true -> date_range_bounds sales = Ok None) /\
  (empty sales = false ->
   (forall r, In r (rows sales) -> cell_at di r = CNaN) ->
   date_range_bounds sales = Err ValueError) /\
  (empty sales = false ->
   (exists r t, In r (rows sales) /\ cell_at di r = CDate t) ->
   exists tlo thi rlo rhi,
     date_range_bounds sales =
     Ok (Some (timestamp_date tlo, timestamp_date thi)) /\
     In rlo (rows sales) /\ cell_at di rlo = CDate tlo /\
     In rhi (rows sales) /\ cell_at di rhi = CDate thi /\
     forall r t, In r (rows sales) -> cell_at di r = CDate t ->
                 ts_compare t tlo <> Lt /\ ts_compare thi t <> Lt).
Proof.
  intros Hl Hdate.
  set (col := map (cell_at di) (rows sales)).
  assert (Hcol : Forall (fun c => datetime_or_missing c = true) col)
    by (unfold col; now apply Forall_map).
  assert (Dated : forall r d, In r (rows sales) -> cell_at di r = CDate d ->
                              In (CDate d) (dropna col)).
  { intros r d Hr Hd. unfold dropna. apply filter_In. split; [|reflexivity].
    unfold col. rewrite <- Hd. now apply in_map. }
  assert (Origin : forall m, In m (dropna col) ->
            exists tm rm, m = CDate tm /\ In rm (rows sales) /\ cell_at di rm = m).
  { intros m Hm. unfold dropna in Hm. apply filter_In in Hm.
    destruct Hm as [Hm Hna]. unfold col in Hm. apply in_map_iff in Hm.
    destruct Hm as (rm & Hrm & Hin). rewrite Forall_forall in Hdate.
    pose proof (Hdate rm Hin) as T. rewrite Hrm in T.
    destruct m as [| |tm|]; try discriminate. exists tm, rm. auto. }
  split; [|split].
  - unfold date_range_bounds. now intros ->.
  - intros He Hnone. unfold date_range_bounds. rewrite He. cbn [negb].
    rewrite (getitem_locate _ _ _ Hl). cbn [bind]. fold col.
    unfold series_min, series_max.
    destruct (dropna col) as [|c t] eqn:E; [reflexivity|]. exfalso.
    destruct (Origin c (or_introl eq_refl)) as (tm & rm & -> & Hrm & Hcell).
    rewrite (Hnone rm Hrm) in Hcell. discriminate.
  - intros He (r0 & t0 & Hr0 & Hd0). unfold date_range_bounds. rewrite He.
    cbn [negb]. rewrite (getitem_locate _ _ _ Hl). cbn [bind]. fold col.
    unfold series_min, series_max.
    destruct (dropna col) as [|c t] eqn:E.
    { exfalso. exact (Dated r0 t0 Hr0 Hd0). }
    destruct (series_extreme_spec is_lt col c t (or_introl eq_refl) Hcol E)
      as (lo & Hlo & Hlin & Hlall).
    destruct (series_extreme_spec is_gt col c t (or_intror eq_refl) Hcol E)
      as (hi & Hhi & Hhin & Hhall).
    rewrite E in Hlin, Hhin, Hlall, Hhall.
    rewrite Hlo. cbn [bind]. rewrite Hhi. cbn [bind].
    destruct (Origin lo Hlin) as (tlo & rlo & Elo & Hrlo & Hclo).
    destruct (Origin hi Hhin) as (thi & rhi & Ehi & Hrhi & Hchi).
    subst lo hi. exists tlo, thi, rlo, rhi.
    split; [reflexivity|]. repeat (split; [assumption|]).
    intros r d Hr Hd.
    pose proof (Hlall _ (Dated r d Hr Hd)) as H1.
    pose proof (Hhall _ (Dated r d Hr Hd)) as H2.
    cbn [cell_compare] in H1, H2. split.
    + intros Hlt. rewrite Hlt in H1. discriminate.
    + intros Hlt. apply (gt_is_lt _ ts_order) in Hlt. rewrite Hlt in H2.
      discriminate.
Qed.

(** ** The category selector *)

Lemma unique_in col x : In x (unique col) -> In x col.
Proof.
  induction col as [|c t IH]; simpl; [auto|].
  intros [<-|H]; [now left|]. apply filter_In in H. right. now apply IH.
Qed.

Lemma unique_covers col x :
  In x col -> exists o, In o (unique col) /\ same_key x o.
Proof.
  induction col as [|c t IH]; simpl; [contradiction|].
  intros [->|H].
  - exists x. split; [now left|apply cell_eqb_refl].
  - destruct (IH H) as (o & Ho & Hxo).
    destruct (cell_eqb o c) eqn:E.
    + exists c. split; [now left|].
      unfold same_key. rewrite (same_key_eqb _ _ _ Hxo). exact E.
    + exists o. split; [|exact Hxo]. right. apply filter_In. now rewrite E.
Qed.

Lemma ForallOrdPairs_filter {A : Type} (R : A -> A -> Prop) (p : A -> bool) l :
  ForallOrdPairs R l -> ForallOrdPairs R (filter p l).
Proof.
  induction 1 as [|a t Ha Ht IH]; simpl; [constructor|].
  destruct (p a); [|exact IH]. constructor; [|exact IH].
  rewrite Forall_forall in *. intros x Hx. apply filter_In in Hx. now apply Ha.
Qed.

Lemma unique_distinct col :
  ForallOrdPairs (fun a b => cell_eqb b a = false) (unique col).
Proof.
  induction col as [|c t IH]; simpl; constructor.
  - apply Forall_forall. intros x Hx. apply filter_In in Hx.
    now apply negb_true_iff.
  - now apply ForallOrdPairs_filter.
Qed.

Lemma same_key_text s o : same_key (CStr s) o -> o = CStr s.
Proof.
  unfold same_key, cell_eqb.
  destruct o as [x| | |]; cbn [cell_compare cell_rank Nat.compare]; try discriminate.
  destruct (String.compare s x) eqn:E; try discriminate.
  intros _. apply String.compare_eq_iff in E. now subst x.
Qed.

(** X15.  The category selector offers "All" first and then the
    categories of the inventory: the options after "All" are categories of
    products, none of them is missing, no two of them are equal, and every
    product with a category finds it among them.  "All" itself is listed a
    second time exactly when it is the category of a product.  Without a
    [category] column there is no selector. *)
Theorem categories_all_then_each_once inventory :
  (has_column "category" inventory = false -> categories inventory = Ok None) /\
  (forall ci, locate "category" inventory = Ok ci ->
     exists options,
       categories inventory = Ok (Some (CStr "All" :: options)) /\
       ForallOrdPairs (fun a b => cell_eqb b a = false) options /\
       (forall o, In o options ->
                  isna o = false /\
                  exists r, In r (rows inventory) /\ cell_at ci r = o) /\
       (forall r, In r (rows inventory) -> isna (cell_at ci r) = false ->
                  exists o, In o options /\ same_key (cell_at ci r) o) /\
       (In (CStr "All") options <->
        exists r, In r (rows inventory) /\ cell_at ci r = CStr "All")).
Proof.
  split.
  - unfold categories. now intros ->.
  - intros ci Hl. unfold categories.
    assert (Hh : has_column "category" inventory = true).
    { destruct (has_column "category" inventory) eqn:E; [reflexivity|].
      apply has_column_locate in E. congruence. }
    rewrite Hh, (getitem_locate _ _ _ Hl). cbn [bind].
    set (options := unique (dropna (map (cell_at ci) (rows inventory)))).
    assert (From : forall o, In o options ->
              isna o = false /\ exists r, In r (rows inventory) /\ cell_at ci r = o).
    { intros o Ho. apply unique_in in Ho. unfold dropna in Ho.
      apply filter_In in Ho. destruct Ho as [Ho Hna].
      split; [now apply negb_true_iff|].
      apply in_map_iff in Ho. destruct Ho as (r & Hr & Hin). eauto. }
    assert (Covers : forall r, In r (rows inventory) -> isna (cell_at ci r) = false ->
              exists o, In o options /\ same_key (cell_at ci r) o).
    { intros r Hr Hna. apply unique_covers. unfold dropna. apply filter_In.
      split; [now apply in_map|]. now rewrite Hna. }
    exists options. split; [reflexivity|]. split; [apply unique_distinct|].
    split; [exact From|]. split; [exact Covers|]. split.
    + intros Hin. exact (proj2 (From _ Hin)).
    + intros (r & Hr & Hc).
      assert (Hna : isna (cell_at ci r) = false) by now rewrite Hc.
      destruct (Covers r Hr Hna) as (o & Ho & Hsame).
      rewrite Hc in Hsame. apply same_key_text in Hsame. now subst o.
Qed.

(** ** Absent files and absent columns *)

Section Degradation.
Context {P : Coercions} {S : SortKind} {M : MergeKeys}.

Lemma coerce_absent name f :
  forall df', coerce_if_present name f empty_frame = Ok df' -> df' = empty_frame.
Proof. intros df' H. unfold coerce_if_present in H. simpl in H. congruence. Qed.

Lemma normalize_absent customers inventory sales c' i' s' :
  normalize customers inventory sales = Ok (c', i', s') ->
  (customers = empty_frame -> c' = empty_frame) /\
  (inventory = empty_frame -> i' = empty_frame) /\
  (sales = empty_frame -> s' = empty_frame).
Proof.
  intros H.
  destruct (normalize_steps _ _ _ _ _ _ H) as (s1 & s2 & i1 & H1 & H2 & H3 & H4 & H5 & H6).
  split; [|split]; intros ->.
  - exact (coerce_absent _ _ _ H2).
  - apply coerce_absent in H5. subst i1. exact (coerce_absent _ _ _ H6).
  - apply coerce_absent in H1. subst s1. apply coerce_absent in H3. subst s2.
    exact (coerce_absent _ _ _ H4).
Qed.

(** X16.  A file that does not exist is loaded as the empty table, whatever
    the other two files hold, and the sections that need it degrade instead
    of raising: without the sales file the revenue and the transaction count
    are 0, no date range is offered, and the trend, both rankings and the
    orphan check show their notice; without the customers file the customer
    count is 0 and the customer ranking and the orphan check show their
    notice; without the inventory file the product count is 0, there is no
    category selector, and the product ranking and the low-stock section
    show their notice. *)
Theorem absent_file_degrades :
  (forall customers_csv inventory_csv c' i' s',
      load_data customers_csv inventory_csv None = Ok (c', i', s') ->
      s' = empty_frame /\
      total_sales s' = Ok 0 /\ total_transactions s' = 0%nat /\
      date_range_bounds s' = Ok None /\
      monthly_trend s' = Ok (Info "No sales data available to plot.") /\
      top_customers s' c' = Ok (Info "Customers or sales data missing.") /\
      top_products s' i' = Ok (Info "Inventory or sales data missing.") /\
      missing_customers s' c' = Ok (Info "Need both sales and customers data.")) /\
  (forall inventory_csv sales_csv c' i' s',
      load_data None inventory_csv sales_csv = Ok (c', i', s') ->
      c' = empty_frame /\ num_customers c' = 0%nat /\
      top_customers s' c' = Ok (Info "Customers or sales data missing.") /\
      missing_customers s' c' = Ok (Info "Need both sales and customers data.")) /\
  (forall customers_csv sales_csv c' i' s',
      load_data customers_csv None sales_csv = Ok (c', i', s') ->
      i' = empty_frame /\ num_products i' = 0%nat /\
      categories i' = Ok None /\
      top_products s' i' = Ok (Info "Inventory or sales data missing.") /\
      low_stock_products i' = Ok (Info "Inventory data missing.")).
Proof.
  unfold load_data. split; [|split].
  - intros cs ics c' i' s' H.
    destruct (normalize_absent _ _ _ _ _ _ H) as (_ & _ & Hs).
    rewrite (Hs eq_refl). repeat split.
  - intros ics ss c' i' s' H.
    destruct (normalize_absent _ _ _ _ _ _ H) as (Hc & _ & _).
    rewrite (Hc eq_refl). repeat split.
    + unfold top_customers. cbn. now rewrite andb_false_r.
    + unfold missing_customers. cbn. now rewrite andb_false_r.
  - intros cs ss c' i' s' H.
    destruct (normalize_absent _ _ _ _ _ _ H) as (_ & Hi & _).
    rewrite (Hi eq_refl). repeat split.
    unfold top_products. cbn. now rewrite andb_false_r.
Qed.

(** X17.  No section looks for its columns: on tables that have rows but
    lack the column a section reads first, the date range of the sidebar,
    the low-stock section, both rankings and the orphan check raise
    [KeyError] on that column. *)
Theorem sections_raise_without_their_column :
  (forall sales,
      empty sales = false -> has_column "sale_date" sales = false ->
      date_range_bounds sales = Err (KeyError "sale_date")) /\
  (forall inventory,
      empty inventory = false -> has_column "quantity_in_stock" inventory = false ->
      low_stock_products inventory = Err (KeyError "quantity_in_stock")) /\
  (forall sales customers,
      empty sales = false -> empty customers = false ->
      has_column "customer_id" sales = false ->
      top_customers sales customers = Err (KeyError "customer_id") /\
      missing_customers sales customers = Err (KeyError "customer_id")) /\
  (forall sales inventory,
      empty sales = false -> empty inventory = false ->
      has_column "product_id" sales = false ->
      top_products sales inventory = Err (KeyError "product_id")).
Proof.
  split; [|split; [|split]].
  - intros sales He Hh. unfold date_range_bounds, getitem. rewrite He.
    apply has_column_locate in Hh. now rewrite Hh.
  - intros inventory He Hh.
    unfold low_stock_products, low_stock, low_stock_below, getitem. rewrite He.
    apply has_column_locate in Hh. now rewrite Hh.
  - intros sales customers Hs Hc Hh. apply has_column_locate in Hh. split.
    + unfold top_customers, top_cust, groupby_sum. rewrite Hs, Hc, Hh. reflexivity.
    + unfold missing_customers, missing, getitem. rewrite Hs, Hc, Hh. reflexivity.
  - intros sales inventory Hs Hi Hh. apply has_column_locate in Hh.
    unfold top_products, top_prod, groupby_sum. rewrite Hs, Hi, Hh. reflexivity.
Qed.

End Degradation.

(** ** Worked instances of the further properties *)

Lemma load_data_trims_labels_witness :
  exists c' i' s',
    @load_data simple_coercions
               (Some messy_customers) (Some messy_inventory) (Some padded_sales) =
    Ok (c', i', s') /\
    s' = mkFrame ["sale_id"; "total_amount"] [[CNum 1; CNum 7]] /\
    Forall2 trimmed (columns messy_customers) (columns c') /\
    Forall2 trimmed (columns messy_inventory) (columns i') /\
    Forall2 trimmed (columns padded_sales) (columns s').
Proof.
  eexists _, _, _. split; [vm_compute; reflexivity|]. split; [reflexivity|].
  apply (@load_data_trims_labels simple_coercions
           (Some messy_customers) (Some messy_inventory) (Some padded_sales)).
  vm_compute. reflexivity.
Defined.

Lemma load_data_keeps_other_columns_witness :
  exists c' i' s',
    @load_data simple_coercions
               (Some messy_customers) (Some messy_inventory) (Some messy_sales) =
    Ok (c', i', s') /\
    getitem s' "customer_id" = Ok [CNum 1; CNum 3; CNum 2] /\
    getitem c' "customer_name" = Ok [CStr "Ann"; CStr "Bob"].
Proof.
  eexists _, _, _. split; [vm_compute; reflexivity|].
  destruct (@load_data_keeps_other_columns simple_coercions
              (Some messy_customers) (Some messy_inventory) (Some messy_sales)
              _ _ _ ltac:(vm_compute; reflexivity)) as (Hc & _ & Hs).
  split.
  - rewrite (Hs "customer_id"); [reflexivity|]. simpl. intuition discriminate.
  - rewrite (Hc "customer_name"); [reflexivity|]. simpl. intuition discriminate.
Defined.

Lemma date_coercion_marks_missing_witness :
  exists c' i' s',
    @load_data simple_coercions
               (Some messy_customers) (Some messy_inventory) (Some messy_sales) =
    Ok (c', i', s') /\
    getitem s' "sale_date" =
    Ok [CDate (mkTimestamp 2024 1 5 0); CNaN; CDate (mkTimestamp 2024 2 7 0)] /\
    getitem c' "join_date" = Ok [CDate (mkTimestamp 2023 5 1 0); CNaN].
Proof.
  eexists _, _, _. split; [vm_compute; reflexivity|].
  destruct (@date_coercion_marks_missing simple_coercions
              (Some messy_customers) (Some messy_inventory) (Some messy_sales)
              _ _ _ ltac:(vm_compute; reflexivity)) as (Hs & Hc & _).
  split.
  - exact (Hs [CStr "2024-01-05"; CStr "bad"; CStr "2024-02-07"]
              ltac:(vm_compute; reflexivity)).
  - exact (Hc [CStr "2023-05-01"; CStr "soon"] ltac:(vm_compute; reflexivity)).
Defined.

Lemma moving_average_within_revenues_witness :
  monthly_trend march_sales = Ok (Table march_trend) /\
  (forall r, In r (rows march_trend) ->
             numeric (cell_at 2 r) = true /\
             100 <= quantity 2 r /\ quantity 2 r <= 400) /\
  (forall r rest, rows march_trend = r :: rest -> quantity 2 r == quantity 1 r).
Proof.
  split; [vm_compute; reflexivity|].
  apply (moving_average_within_revenues march_sales 1 2 march_trend 100 400).
  - reflexivity.
  - reflexivity.
  - reflexivity.
  - vm_compute. discriminate.
  - repeat constructor.
  - repeat constructor.
  - vm_compute. reflexivity.
  - intros r Hr. simpl in Hr.
    destruct Hr as [<-|[<-|[<-|[<-|[]]]]]; vm_compute; split; discriminate.
Defined.

Lemma monthly_trend_without_dates_witness :
  empty undated_sales = false /\
  monthly_trend undated_sales =
  Ok (Table (mkFrame ["sale_month"; "total_amount"; "ma3"] [])).
Proof.
  split; [reflexivity|].
  apply (monthly_trend_without_dates undated_sales 1 2).
  - reflexivity.
  - reflexivity.
  - reflexivity.
  - vm_compute. discriminate.
  - repeat constructor.
  - repeat constructor.
Defined.

Lemma top_n_one_row_per_group_witness :
  distinct_keys 0 clients /\ distinct_keys 0 goods /\
  (exists t, @top_customers stable_kind plain_keys orders clients = Ok (Table t) /\
             (length (rows t) <= 10)%nat /\
             (distinct_keys 0 clients -> length (rows t) = 3%nat)) /\
  (exists t, @top_products stable_kind plain_keys orders goods = Ok (Table t) /\
             (length (rows t) <= 10)%nat /\
             (distinct_keys 0 goods -> length (rows t) = 3%nat)).
Proof.
  split; [repeat constructor|]. split; [repeat constructor|].
  pose proof (@top_n_one_row_per_group stable_kind stable_contract plain_keys
                orders clients goods) as [Hc Hp].
  split.
  - apply (Hc 1 3 0)%nat; try reflexivity. repeat constructor.
  - apply (Hp 2 3 0)%nat; try reflexivity. repeat constructor.
Defined.

Lemma orphans_are_unmatched_groups_witness :
  orphans 1 0 orders clients = [[CNum 4; CNum 9; CNum 555; CNum 5]] /\
  exists m,
    @merged plain_keys "customer_id" orders clients = Ok m /\
    forall r, In r (rows orders) -> isna (cell_at 1 r) = false ->
      exists k,
        same_key (cell_at 1 r) k /\
        (In r (orphans 1 0 orders clients) ->
         In (unmatched_row clients (group_total 1 3 orders) k) (rows m) /\
         forall c, In c (rows clients) -> cell_eqb k (cell_at 0 c) = false) /\
        (~ In r (orphans 1 0 orders clients) ->
         exists c, In c (rows clients) /\
                   cell_eqb k (cell_at 0 c) = true /\
                   In (matched_row 0 clients (group_total 1 3 orders) k c) (rows m)).
Proof.
  split; [reflexivity|].
  apply (orphans_are_unmatched_groups plain_keys orders clients 1 3 0).
  - reflexivity.
  - reflexivity.
  - repeat constructor.
  - reflexivity.
  - reflexivity.
  - reflexivity.
Defined.

Lemma top_n_raises_on_revenue_clash_witness :
  has_column "total_amount" billed_clients = true /\
  @top_customers stable_kind plain_keys orders billed_clients =
  Err (KeyError "total_amount") /\
  has_column "total_amount" coded_billed_clients = true /\
  @top_customers stable_kind plain_keys orders coded_billed_clients =
  Err ValueError.
Proof.
  split; [reflexivity|]. split.
  - apply (proj1 (@top_n_raises_on_revenue_clash stable_kind plain_keys
                    orders billed_clients empty_frame) 1 3 0)%nat;
      try reflexivity.
    repeat constructor.
  - split; [reflexivity|].
    apply (proj1 (@top_n_raises_on_revenue_clash stable_kind plain_keys
                    orders coded_billed_clients empty_frame) 1 3 0)%nat;
      try reflexivity.
    repeat constructor.
Defined.

Lemma negative_amounts_spec_witness :
  negatives 1 refund_and_sale = [[CNum 1; CNum (-5)]] /\
  negative_amounts refund_and_sale =
  Ok (Table (mkFrame ["sale_id"; "total_amount"] [[CNum 1; CNum (-5)]])) /\
  negatives 1 receipts = [] /\
  negative_amounts receipts = Ok (Success "No negative sales found").
Proof.
  split; [reflexivity|]. split.
  - apply (proj1 (proj2 (negative_amounts_spec refund_and_sale 0 1
                           eq_refl eq_refl ltac:(repeat constructor)))).
    discriminate.
  - split; [reflexivity|].
    apply (proj2 (proj2 (negative_amounts_spec receipts 0 1
                           eq_refl eq_refl ltac:(repeat constructor)))).
    reflexivity.
Defined.

Lemma low_stock_grows_with_threshold_witness :
  60 <= 100 /\
  exists f1 f2,
    @low_stock_below stable_kind 60 shelf = Ok f1 /\
    @low_stock_below stable_kind 100 shelf = Ok f2 /\
    incl (rows f1) (rows f2) /\
    (forall r, In r (rows shelf) ->
               cell_at 1 r = CNaN \/ (exists q, cell_at 1 r = CNum q /\ 100 <= q) ->
               ~ In r (rows f2)).
Proof.
  split; [discriminate|].
  apply (@low_stock_grows_with_threshold stable_kind stable_contract shelf 1 60 100).
  - reflexivity.
  - repeat constructor.
  - discriminate.
Defined.

Lemma date_range_covers_sales_witness :
  empty march_sales = false /\
  date_range_bounds march_sales = Ok (Some (mkDate 2024 1 5, mkDate 2024 4 1)) /\
  (exists tlo thi rlo rhi,
     date_range_bounds march_sales =
     Ok (Some (timestamp_date tlo, timestamp_date thi)) /\
     In rlo (rows march_sales) /\ cell_at 1 rlo = CDate tlo /\
     In rhi (rows march_sales) /\ cell_at 1 rhi = CDate thi /\
     forall r t, In r (rows march_sales) -> cell_at 1 r = CDate t ->
                 ts_compare t tlo <> Lt /\ ts_compare thi t <> Lt) /\
  empty undated_sales = false /\
  date_range_bounds undated_sales = Err ValueError.
Proof.
  split; [reflexivity|]. split; [vm_compute; reflexivity|]. split.
  - apply (proj2 (proj2 (date_range_covers_sales march_sales 1 eq_refl
                           ltac:(repeat constructor)))); [reflexivity|].
    exists [CNum 1; CDate (mkTimestamp 2024 3 15 0); CNum 300],
           (mkTimestamp 2024 3 15 0).
    split; [now left|reflexivity].
  - split; [reflexivity|].
    apply (proj1 (proj2 (date_range_covers_sales undated_sales 1 eq_refl
                           ltac:(repeat constructor)))); [reflexivity|].
    intros r Hr. simpl in Hr. destruct Hr as [<-|[<-|[]]]; reflexivity.
Defined.

Lemma categories_all_then_each_once_witness :
  categories catalog = Ok (Some [CStr "All"; CStr "Tools"; CStr "Toys"]) /\
  exists options,
    categories catalog = Ok (Some (CStr "All" :: options)) /\
    ForallOrdPairs (fun a b => cell_eqb b a = false) options /\
    (forall o, In o options ->
               isna o = false /\
               exists r, In r (rows catalog) /\ cell_at 1 r = o) /\
    (forall r, In r (rows catalog) -> isna (cell_at 1 r) = false ->
               exists o, In o options /\ same_key (cell_at 1 r) o) /\
    (In (CStr "All") options <->
     exists r, In r (rows catalog) /\ cell_at 1 r = CStr "All").
Proof.
  split; [vm_compute; reflexivity|].
  apply (proj2 (categories_all_then_each_once catalog) 1%nat).
  reflexivity.
Defined.

Lemma absent_file_degrades_witness :
  exists c' i' s',
    @load_data simple_coercions (Some messy_customers) (Some messy_inventory) None =
    Ok (c', i', s') /\
    s' = empty_frame /\
    total_sales s' = Ok 0 /\ total_transactions s' = 0%nat /\
    date_range_bounds s' = Ok None /\
    monthly_trend s' = Ok (Info "No sales data available to plot.") /\
    @top_customers stable_kind plain_keys s' c' =
    Ok (Info "Customers or sales data missing.") /\
    @top_products stable_kind plain_keys s' i' =
    Ok (Info "Inventory or sales data missing.") /\
    missing_customers s' c' = Ok (Info "Need both sales and customers data.").
Proof.
  eexists _, _, _. split; [vm_compute; reflexivity|].
  apply (proj1 (@absent_file_degrades simple_coercions stable_kind plain_keys)
               (Some messy_customers) (Some messy_inventory)).
  vm_compute. reflexivity.
Defined.

Lemma sections_raise_without_their_column_witness :
  date_range_bounds receipts = Err (KeyError "sale_date") /\
  @low_stock_products stable_kind clients = Err (KeyError "quantity_in_stock") /\
  @top_customers stable_kind plain_keys receipts clients =
  Err (KeyError "customer_id") /\
  missing_customers receipts clients = Err (KeyError "customer_id") /\
  @top_products stable_kind plain_keys receipts goods = Err (KeyError "product_id").
Proof.
  destruct (@sections_raise_without_their_column stable_kind plain_keys)
    as (Hd & Hl & Hc & Hp).
  split; [apply Hd; reflexivity|].
  split; [apply Hl; reflexivity|].
  split; [apply (Hc receipts clients); reflexivity|].
  split; [apply (Hc receipts clients); reflexivity|].
  apply Hp; reflexivity.
Defined.
